(** * Silent alarm detector: pattern detection, impact scoring and hook

    A shallow embedding of [analyzers/pattern_detector.py],
    [analyzers/impact_assessor.py] and the pre-tool-use hook
    [alarm_silencing_detector.py].

    Python [float] is IEEE 754 binary64; it is modelled by the standard
    library's [spec_float] at precision 53 and maximal exponent 1024, so
    every rounding of the source is the rounding of the model.  Python
    [int] is [Z].  A Python exception is a value of [exn] carried by the
    [result] monad. *)

From Stdlib Require Import ZArith List String Ascii Bool Lia Arith.
From Stdlib Require Import Floats.SpecFloat.
From Stdlib Require Import Permutation DecimalString Sorted.
Import ListNotations.

Local Open Scope Z_scope.

(** ** Exceptions *)

Inductive exn : Type :=
| SyntaxError
| ValueError
| OverflowError
| ZeroDivisionError
| KeyError
| IndexError
| RecursionError
| MemoryError.

Inductive result (A : Type) : Type :=
| Ok (a : A)
| Raise (e : exn).

Arguments Ok {A} a.
Arguments Raise {A} e.

Definition bind {A B : Type} (r : result A) (k : A -> result B) : result B :=
  match r with
  | Ok a => k a
  | Raise e => Raise e
  end.

Notation "x <- c1 ;; c2" := (bind c1 (fun x => c2))
  (at level 61, c1 at next level, right associativity).

Definition returns {A : Type} (r : result A) : Prop := exists a, r = Ok a.

(** ** Python numbers *)

Module PyNum.

Definition float : Type := spec_float.

Definition prec : Z := 53.
Definition emax : Z := 1024.

Definition fadd : float -> float -> float := SFadd prec emax.
Definition fmul : float -> float -> float := SFmul prec emax.
Definition fdiv : float -> float -> float := SFdiv prec emax.

Definition is_infinite (x : float) : bool :=
  match x with S754_infinity _ => true | _ => false end.

Definition is_zero (x : float) : bool :=
  match x with S754_zero _ => true | _ => false end.

(** [float(z)]: the nearest double, [OverflowError] beyond the double range. *)
Definition float_of_int (z : Z) : result float :=
  let f := binary_normalize prec emax z 0 false in
  if is_infinite f then Raise OverflowError else Ok f.

(** A decimal literal [p / 10^k] of the source, correctly rounded. *)
Definition float_lit (p : Z) (k : Z) : float :=
  fdiv (binary_normalize prec emax p 0 false)
       (binary_normalize prec emax (10 ^ k) 0 false).

(** [int * float], [float * float], [float + float], [float / int]. *)
Definition int_mul_float (z : Z) (x : float) : result float :=
  f <- float_of_int z ;; Ok (fmul f x).

Definition int_add_float (z : Z) (x : float) : result float :=
  f <- float_of_int z ;; Ok (fadd f x).

Definition float_div_int (x : float) (z : Z) : result float :=
  f <- float_of_int z ;;
  if is_zero f then Raise ZeroDivisionError else Ok (fdiv x f).

(** [int(x)]: truncation towards zero; Python raises on infinities and NaN. *)
Definition int_of_float (x : float) : result Z :=
  match x with
  | S754_zero _ => Ok 0
  | S754_finite s m e =>
      Ok (cond_Zopp s
            match e with
            | Z0 => Zpos m
            | Zpos _ => Zpos m * 2 ^ e
            | Zneg p => Zpos m / 2 ^ Zpos p
            end)
  | S754_infinity _ => Raise OverflowError
  | S754_nan => Raise ValueError
  end.

(** Nearest integer to [a / b] for [0 <= a], [0 < b], ties to even. *)
Definition div_half_even (a b : Z) : Z :=
  let q := a / b in
  match 2 * (a mod b) ?= b with
  | Lt => q
  | Gt => q + 1
  | Eq => if Z.even q then q else q + 1
  end.

(** [round(x, 1)]: the exact value of [x] is rounded half-even to a whole
    number of tenths [k], and the result is the double nearest to [k / 10];
    zeros, infinities and NaN round to themselves. *)
Definition round1 (x : float) : float :=
  match x with
  | S754_finite s m e =>
      let k := match e with
               | Zneg p => div_half_even (Zpos m * 10) (2 ^ Zpos p)
               | _ => Zpos m * 10 * 2 ^ e
               end in
      match k with
      | Z0 => S754_zero s
      | _ => let '(q, e', l) := SFdiv_core_binary prec emax k 0 10 0 in
             binary_round_aux prec emax s q e' l
      end
  | _ => x
  end.

Definition fzero : float := S754_zero false.

End PyNum.

Import PyNum.

(** ** Data model ([pattern_detector.py]) *)

Inductive PatternType : Type :=
| SILENT_FALLBACK
| WARNING_SUPPRESSION
| ASSUMPTION_BYPASS
| DUPLICATE_CODE
| PERFORMANCE_DEGRADATION
| SECURITY_SHORTCUT
| ERROR_MASKING
| TEST_AVOIDANCE.

Inductive Severity : Type :=
| CRITICAL
| WARNING
| INFO.

Definition PatternType_eqb (a b : PatternType) : bool :=
  match a, b with
  | SILENT_FALLBACK, SILENT_FALLBACK
  | WARNING_SUPPRESSION, WARNING_SUPPRESSION
  | ASSUMPTION_BYPASS, ASSUMPTION_BYPASS
  | DUPLICATE_CODE, DUPLICATE_CODE
  | PERFORMANCE_DEGRADATION, PERFORMANCE_DEGRADATION
  | SECURITY_SHORTCUT, SECURITY_SHORTCUT
  | ERROR_MASKING, ERROR_MASKING
  | TEST_AVOIDANCE, TEST_AVOIDANCE => true
  | _, _ => false
  end.

Definition Severity_eqb (a b : Severity) : bool :=
  match a, b with
  | CRITICAL, CRITICAL | WARNING, WARNING | INFO, INFO => true
  | _, _ => false
  end.

Record Detection : Type := mkDetection {
  pattern_type : PatternType;
  severity : Severity;
  line_number : Z;
  code_snippet : string;
  description : string;
  impact : string;
  recommendation : string;
  confidence : float
}.

(** A Python [dict] read through [get] and [[]]: the first binding of the
    key in insertion order of a table without repeated keys. *)
Section Dict.
Context {K V : Type} (eqb : K -> K -> bool).

Fixpoint dict_find (d : list (K * V)) (k : K) : option V :=
  match d with
  | [] => None
  | (k', v) :: d' => if eqb k' k then Some v else dict_find d' k
  end.

Definition dict_get (d : list (K * V)) (k : K) (default : V) : V :=
  match dict_find d k with
  | Some v => v
  | None => default
  end.

Definition dict_index (d : list (K * V)) (k : K) : result V :=
  match dict_find d k with
  | Some v => Ok v
  | None => Raise KeyError
  end.
End Dict.

(** ** Impact assessor ([impact_assessor.py]) *)

Record ImpactScore : Type := mkImpactScore {
  total_score : Z;
  performance_cost : Z;
  security_risk : Z;
  maintainability_debt : Z;
  estimated_debug_hours : float;
  risk_level : string
}.

Record Weights : Type := mkWeights {
  w_performance : Z;
  w_security : Z;
  w_maintainability : Z;
  w_debug_hours : float
}.

Definition PATTERN_WEIGHTS : list (PatternType * Weights) :=
  [ (SILENT_FALLBACK,         mkWeights 10 30 50 (float_lit 80 1));
    (WARNING_SUPPRESSION,     mkWeights 5 20 40 (float_lit 40 1));
    (ASSUMPTION_BYPASS,       mkWeights 10 40 30 (float_lit 60 1));
    (DUPLICATE_CODE,          mkWeights 15 10 60 (float_lit 120 1));
    (PERFORMANCE_DEGRADATION, mkWeights 70 5 20 (float_lit 160 1));
    (SECURITY_SHORTCUT,       mkWeights 5 95 30 (float_lit 240 1));
    (ERROR_MASKING,           mkWeights 10 15 45 (float_lit 100 1));
    (TEST_AVOIDANCE,          mkWeights 5 10 50 (float_lit 200 1)) ].

Definition DEFAULT_WEIGHTS : Weights := mkWeights 10 10 10 (float_lit 40 1).

Definition SEVERITY_MULTIPLIERS : list (Severity * float) :=
  [ (CRITICAL, float_lit 20 1);
    (WARNING,  float_lit 10 1);
    (INFO,     float_lit 5 1) ].

(** The four running sums of the loop of [assess_impact]. *)
Record Sums : Type := mkSums {
  s_performance : float;
  s_security : float;
  s_maintainability : float;
  s_debug_hours : float
}.

(** One iteration of [for detection in detections]. *)
Definition accumulate (acc : Sums) (detection : Detection) : result Sums :=
  let weights := dict_get PatternType_eqb PATTERN_WEIGHTS
                   (pattern_type detection) DEFAULT_WEIGHTS in
  multiplier <- dict_index Severity_eqb SEVERITY_MULTIPLIERS (severity detection) ;;
  let confidence := confidence detection in
  p <- int_mul_float (w_performance weights) multiplier ;;
  s <- int_mul_float (w_security weights) multiplier ;;
  m <- int_mul_float (w_maintainability weights) multiplier ;;
  Ok (mkSums (fadd (s_performance acc) (fmul p confidence))
             (fadd (s_security acc) (fmul s confidence))
             (fadd (s_maintainability acc) (fmul m confidence))
             (fadd (s_debug_hours acc)
                   (fmul (fmul (w_debug_hours weights) multiplier) confidence))).

Fixpoint for_detections (acc : Sums) (detections : list Detection) : result Sums :=
  match detections with
  | [] => Ok acc
  | detection :: rest =>
      acc' <- accumulate acc detection ;;
      for_detections acc' rest
  end.

(** [min(100, int(total / max(num_detections, 1)))]. *)
Definition normalize (total : float) (num_detections : Z) : result Z :=
  q <- float_div_int total (Z.max num_detections 1) ;;
  i <- int_of_float q ;;
  Ok (Z.min 100 i).

Definition risk_level_of (total_score security_risk : Z) : string :=
  if (80 <=? total_score) || (90 <=? security_risk) then "CRITICAL"%string
  else if (60 <=? total_score) || (70 <=? security_risk) then "HIGH"%string
  else if 40 <=? total_score then "MEDIUM"%string
  else "LOW"%string.

Definition assess_impact (detections : list Detection) : result ImpactScore :=
  match detections with
  | [] => Ok (mkImpactScore 0 0 0 0 fzero "LOW")
  | _ =>
      (* performance = 0; security = 0; maintainability = 0 are the int 0,
         converted by the first [+=]; debug_hours = 0.0 *)
      zero <- float_of_int 0 ;;
      sums <- for_detections (mkSums zero zero zero fzero) detections ;;
      let num_detections := Z.of_nat (List.length detections) in
      performance_cost <- normalize (s_performance sums) num_detections ;;
      security_risk <- normalize (s_security sums) num_detections ;;
      maintainability_debt <- normalize (s_maintainability sums) num_detections ;;
      a <- int_mul_float performance_cost (float_lit 3 1) ;;
      b <- int_mul_float security_risk (float_lit 4 1) ;;
      c <- int_mul_float maintainability_debt (float_lit 3 1) ;;
      total_score <- int_of_float (fadd (fadd a b) c) ;;
      Ok (mkImpactScore total_score performance_cost security_risk
            maintainability_debt (round1 (s_debug_hours sums))
            (risk_level_of total_score security_risk))
  end.

(** *** The scoring rule as the specification words it

    Each metric is a sum over the findings of
    [category_weight * severity_multiplier * confidence], divided by the
    number of findings, truncated and capped at 100. *)

Module ScoringSpec.

Definition severity_multiplier (s : Severity) : float :=
  match s with
  | CRITICAL => float_lit 20 1
  | WARNING => float_lit 10 1
  | INFO => float_lit 5 1
  end.

(** The weight tuple of a category, [(10, 10, 10, 4.0)] when the table has
    no entry for it. *)
Definition category_weights (table : list (PatternType * Weights))
    (c : PatternType) : Weights :=
  match dict_find PatternType_eqb table c with
  | Some w => w
  | None => mkWeights 10 10 10 (float_lit 40 1)
  end.





Definition weighted_total (p s m : Z) : result Z :=
  a <- int_mul_float p (float_lit 3 1) ;;
  b <- int_mul_float s (float_lit 4 1) ;;
  c <- int_mul_float m (float_lit 3 1) ;;
  int_of_float (fadd (fadd a b) c).


(** First matching rule, in the order of the specification. *)
Definition risk_rule (total security : Z) : string :=
  if Z_ge_dec total 80 then "CRITICAL"%string
  else if Z_ge_dec security 90 then "CRITICAL"%string
  else if Z_ge_dec total 60 then "HIGH"%string
  else if Z_ge_dec security 70 then "HIGH"%string
  else if Z_ge_dec total 40 then "MEDIUM"%string
  else "LOW"%string.

End ScoringSpec.

(** The contribution of one finding to the four sums. *)
Definition contribution (d : Detection) : Sums :=
  let w := ScoringSpec.category_weights PATTERN_WEIGHTS (pattern_type d) in
  let m := ScoringSpec.severity_multiplier (severity d) in
  let z := fun k => binary_normalize prec emax k 0 false in
  mkSums (fmul (fmul (z (w_performance w)) m) (confidence d))
         (fmul (fmul (z (w_security w)) m) (confidence d))
         (fmul (fmul (z (w_maintainability w)) m) (confidence d))
         (fmul (fmul (w_debug_hours w) m) (confidence d)).

Definition add_sums (a b : Sums) : Sums :=
  mkSums (fadd (s_performance a) (s_performance b))
         (fadd (s_security a) (s_security b))
         (fadd (s_maintainability a) (s_maintainability b))
         (fadd (s_debug_hours a) (s_debug_hours b)).

Definition sums0 : Sums := mkSums fzero fzero fzero fzero.

Definition total_sums (ds : list Detection) : Sums :=
  fold_left (fun a d => add_sums a (contribution d)) ds sums0.




(** Two findings score alike when they agree on category, severity and
    confidence. *)
Definition same_scoring_fields (a b : Detection) : Prop :=
  pattern_type a = pattern_type b /\
  severity a = severity b /\
  confidence a = confidence b.

(** A finding that only carries the fields the assessor reads. *)
Definition finding (c : PatternType) (s : Severity) (conf : float) : Detection :=
  mkDetection c s 1 "" "" "" "" conf.

(** Three findings whose security contributions 19.2, 3.6 and 7.2 add up
    to 30.0 or to 29.999999999999996 depending on the order. *)
Definition order_sample : list Detection :=
  [ finding ERROR_MASKING CRITICAL (float_lit 64 2);
    finding PERFORMANCE_DEGRADATION CRITICAL (float_lit 36 2);
    finding PERFORMANCE_DEGRADATION CRITICAL (float_lit 72 2) ].

Definition order_sample_rotated : list Detection :=
  [ finding PERFORMANCE_DEGRADATION CRITICAL (float_lit 36 2);
    finding PERFORMANCE_DEGRADATION CRITICAL (float_lit 72 2);
    finding ERROR_MASKING CRITICAL (float_lit 64 2) ].

(** ** Rounding, by value

    A non-negative finite double [m * 2^e] is measured by the integer
    [val] in units of [2^-2148], fine enough for the exact sums, products
    and scaled quotients of doubles.  [rnd b a] is the double nearest to
    the rational [a / b] (in the same units), ties to even: the quotient
    is cut at the exponent of its binade, at least the subnormal one. *)

Module FloatValue.

Definition K : Z := 2148.
Definition Emin : Z := 1074.

Definition val (f : float) : Z :=
  match f with
  | S754_finite false m e => Zpos m * 2 ^ (e + K)
  | _ => 0
  end.

(** A zero, or a positive finite number with at most 53 binary digits
    and an exponent inside the format. *)
Definition nonneg (f : float) : Prop :=
  match f with
  | S754_zero _ => True
  | S754_finite false m e => -1074 <= e <= 971 /\ Zpos m < 2 ^ 53
  | _ => False
  end.

Definition expo (b a : Z) : Z := Z.max (Zdigits2 (a / b) - 53) Emin.

Definition rnd (b a : Z) : Z :=
  div_half_even a (b * 2 ^ expo b a) * 2 ^ expo b a.

(** The position of a remainder [r] inside a step [c], as the rounding
    code records it. *)
Definition loc_of (r c : Z) : location :=
  if r =? 0 then loc_Exact else loc_Inexact (2 * r ?= c).

(** A record at step [c] stands for [a]: its mantissa is the quotient and
    its two bits place the remainder below, at or above the half step. *)
Definition represents (a c : Z) (mrs : shr_record) : Prop :=
  shr_m mrs = a / c /\ loc_of_shr_record mrs = loc_of (a mod c) c.

(** The end of [binary_round_aux]: the rounded mantissa is shifted once
    more when the rounding carried into a new digit. *)
Definition finish (m2 e1 : Z) : float :=
  let '(mrs, e2) := shr_fexp prec emax m2 e1 loc_Exact in
  match shr_m mrs with
  | Z0 => S754_zero false
  | Zpos m => if e2 <=? emax - prec then S754_finite false m e2
              else S754_infinity false
  | Zneg _ => S754_nan
  end.

(** A decidable form of: [f] is non-negative with a value of at most
    [bound]. *)
Definition small_nonnegb (bound : Z) (f : float) : bool :=
  match f with
  | S754_zero _ => 0 <=? bound
  | S754_finite false m e =>
      (-1074 <=? e) && (e <=? 971) && (Zpos m <? 2 ^ 53) && (val f <=? bound)
  | _ => false
  end.

(** [float(w) * multiplier], the factor of the confidence in a term. *)
Definition scaled_weight (w : Z) (s : Severity) : float :=
  fmul (binary_normalize prec emax w 0 false) (ScoringSpec.severity_multiplier s).

Definition weights_of (c : PatternType) : Weights :=
  ScoringSpec.category_weights PATTERN_WEIGHTS c.

(** The three sums that are normalized stay non-negative and below
    [2^61]. *)
Definition good_sums (s : Sums) : Prop :=
  (nonneg (s_performance s) /\ val (s_performance s) <= 2 ^ (K + 61)) /\
  (nonneg (s_security s) /\ val (s_security s) <= 2 ^ (K + 61)) /\
  (nonneg (s_maintainability s) /\ val (s_maintainability s) <= 2 ^ (K + 61)).

Definition good_term (s : Sums) : Prop :=
  (nonneg (s_performance s) /\ val (s_performance s) <= 190 * 2 ^ K) /\
  (nonneg (s_security s) /\ val (s_security s) <= 190 * 2 ^ K) /\
  (nonneg (s_maintainability s) /\ val (s_maintainability s) <= 190 * 2 ^ K).

Definition sums_le (s s' : Sums) : Prop :=
  val (s_performance s) <= val (s_performance s') /\
  val (s_security s) <= val (s_security s') /\
  val (s_maintainability s) <= val (s_maintainability s').

(** Two findings whose terms are well formed, the second at least as
    large as the first. *)
Definition term_le (d d' : Detection) : Prop :=
  good_term (contribution d) /\ good_term (contribution d') /\
  sums_le (contribution d) (contribution d').

(** [min(100, int(total / n))] by value, for the divisor [N = float(n)]. *)
Definition normalized (N total : float) : Z :=
  Z.min 100 (rnd (val N) (val total * 2 ^ K) / 2 ^ K).

(** A confidence as the data model has it: a double between 0.0 and 1.0. *)
Definition valid_confidence (c : float) : Prop :=
  valid_binary prec emax c = true /\
  SFleb (S754_zero false) c = true /\
  SFleb c (float_lit 10 1) = true.

Definition with_severity (s : Severity) (d : Detection) : Detection :=
  mkDetection (pattern_type d) s (line_number d) (code_snippet d)
    (description d) (impact d) (recommendation d) (confidence d).

(** *** The words of the scoring rule, by value *)

(** [h] is the double nearest to the rational [a / b] (in units of
    [2^-2148]): no double is nearer, and of two equally near it is the
    one with the even mantissa, which [rnd] keeps. *)
Definition nearest_double (b a : Z) (h : float) : Prop :=
  nonneg h /\
  (forall g, nonneg g -> Z.abs (b * val h - a) <= Z.abs (b * val g - a)) /\
  val h = rnd b a.

(** [i] is the non-negative double [q] cut to its integer part. *)
Definition truncated (q : float) (i : Z) : Prop :=
  nonneg q /\ i * 2 ^ K <= val q < (i + 1) * 2 ^ K.

(** [k] is the whole number of tenths nearest to the value [v], the even
    one when two are equally near. *)
Definition nearest_tenths (v k : Z) : Prop :=
  2 * Z.abs (10 * v - k * 2 ^ K) <= 2 ^ K /\
  (2 * Z.abs (10 * v - k * 2 ^ K) = 2 ^ K -> Z.even k = true).

(** [h] is [x] rounded to one decimal place: the double nearest to
    [k / 10] for the number of tenths [k] nearest to [x]. *)
Definition rounded_to_tenths (x h : float) : Prop :=
  exists k, nearest_tenths (val x) k /\ nearest_double 10 (k * 2 ^ K) h.





End FloatValue.

(** ** Text and regular expressions

    A Python [str] is modelled as a list of characters with code points
    below 256.  The part of the [re] module the detectors use is a
    backtracking matcher: literals, the classes [\s], [\w], [.], bracket
    classes, greedy and lazy repetition, alternation, [$], and the flags
    IGNORECASE, MULTILINE and DOTALL. *)

Local Close Scope Z_scope.
Local Open Scope nat_scope.

Module Text.

Definition text : Type := list ascii.

Definition newline : ascii := ascii_of_nat 10.
Definition dquote : ascii := ascii_of_nat 34.
Definition squote : ascii := ascii_of_nat 39.
Definition space : ascii := ascii_of_nat 32.

Definition of_string (s : string) : text := list_ascii_of_string s.
Definition to_string (t : text) : string := string_of_list_ascii t.

Definition between (lo hi n : nat) : bool := (lo <=? n) && (n <=? hi).

(** [str.isspace], which is also the class [\s]. *)
Definition is_space (c : ascii) : bool :=
  let n := nat_of_ascii c in
  between 9 13 n || between 28 32 n || (n =? 133) || (n =? 160).

(** The class [\w]: alphanumeric code points and the underscore. *)
Definition is_word (c : ascii) : bool :=
  let n := nat_of_ascii c in
  between 48 57 n || between 65 90 n || (n =? 95) || between 97 122 n
  || (n =? 170) || between 178 179 n || (n =? 181) || between 185 186 n
  || between 188 190 n || between 192 214 n || between 216 246 n
  || between 248 255 n.

(** [str.lower] on one character. *)
Definition lower (c : ascii) : ascii :=
  let n := nat_of_ascii c in
  if between 65 90 n || (between 192 222 n && negb (n =? 215))
  then ascii_of_nat (n + 32) else c.

Definition text_eqb (a b : text) : bool :=
  if list_eq_dec ascii_dec a b then true else false.

(** [s.count('\n')] *)
Definition count_newlines (s : text) : nat :=
  List.length (filter (Ascii.eqb newline) s).

(** [s.split('\n')] *)
Fixpoint split_lines (s : text) : list text :=
  match s with
  | [] => [[]]
  | c :: s' =>
      if Ascii.eqb c newline then [] :: split_lines s'
      else match split_lines s' with
           | [] => [[c]]
           | l :: ls => (c :: l) :: ls
           end
  end.

(** ['\n'.join(ls)] *)
Fixpoint join_lines (ls : list text) : text :=
  match ls with
  | [] => []
  | [l] => l
  | l :: ls' => l ++ newline :: join_lines ls'
  end.

Fixpoint lstrip (s : text) : text :=
  match s with
  | c :: s' => if is_space c then lstrip s' else s
  | [] => []
  end.

(** [s.strip()] *)
Definition strip (s : text) : text := rev (lstrip (rev (lstrip s))).

(** [needle in s] *)
Fixpoint starts_with (needle s : text) : bool :=
  match needle, s with
  | [], _ => true
  | a :: needle', b :: s' => Ascii.eqb a b && starts_with needle' s'
  | _ :: _, [] => false
  end.

Fixpoint contains (needle s : text) : bool :=
  starts_with needle s ||
  match s with
  | [] => false
  | _ :: s' => contains needle s'
  end.

(** [str(n)] for a natural number. *)
Definition decimal (n : nat) : string := NilEmpty.string_of_uint (Nat.to_uint n).

(** [ls[i:j]] *)
Definition slice {A : Type} (ls : list A) (i j : nat) : list A :=
  firstn (j - i) (skipn i ls).

(** [ls[i]] for [0 <= i] *)
Definition index {A : Type} (ls : list A) (i : nat) : result A :=
  match nth_error ls i with
  | Some x => Ok x
  | None => Raise IndexError
  end.

End Text.

Module Re.
Import Text.

Record flags : Type := mkFlags {
  IGNORECASE : bool;
  MULTILINE : bool;
  DOTALL : bool
}.

Definition no_flags : flags := mkFlags false false false.

Inductive regex : Type :=
| Empty
| Chr (c : ascii)
| Dot
| Class (member : ascii -> bool)
| Seq (r1 r2 : regex)
| Alt (r1 r2 : regex)
| Star (greedy : bool) (r : regex)
| Eol.

Definition chr_matches (fl : flags) (p c : ascii) : bool :=
  if IGNORECASE fl then Ascii.eqb (lower p) (lower c) else Ascii.eqb p c.

(** [$]: at the end of the text or just before its final newline; under
    MULTILINE before every newline. *)
Definition at_eol (fl : flags) (s : text) : bool :=
  match s with
  | [] => true
  | c :: s' =>
      Ascii.eqb c newline &&
      (MULTILINE fl || match s' with [] => true | _ => false end)
  end.

(** [rmatch fl r s k]: match [r] at the head of [s], then continue with
    [k] on the rest; alternatives are tried in the order of the
    backtracking matcher and the first success is returned. *)
Fixpoint rmatch (fl : flags) (r : regex) (s : text)
    (k : text -> option text) {struct r} : option text :=
  match r with
  | Empty => k s
  | Chr p =>
      match s with
      | c :: s' => if chr_matches fl p c then k s' else None
      | [] => None
      end
  | Dot =>
      match s with
      | c :: s' => if DOTALL fl || negb (Ascii.eqb c newline) then k s' else None
      | [] => None
      end
  | Class member =>
      match s with
      | c :: s' => if member c then k s' else None
      | [] => None
      end
  | Seq r1 r2 => rmatch fl r1 s (fun s' => rmatch fl r2 s' k)
  | Alt r1 r2 =>
      match rmatch fl r1 s k with
      | Some rest => Some rest
      | None => rmatch fl r2 s k
      end
  | Star greedy r1 =>
      (fix loop (fuel : nat) (s : text) {struct fuel} : option text :=
         match fuel with
         | O => k s
         | S fuel' =>
             if greedy then
               match rmatch fl r1 s
                       (fun s' => if List.length s' <? List.length s
                                  then loop fuel' s' else None) with
               | Some rest => Some rest
               | None => k s
               end
             else
               match k s with
               | Some rest => Some rest
               | None => rmatch fl r1 s
                           (fun s' => if List.length s' <? List.length s
                                      then loop fuel' s' else None)
               end
         end) (List.length s) s
  | Eol => if at_eol fl s then k s else None
  end.

(** A match object: [m.start()] and [m.group()]. *)
Record re_match : Type := mkMatch {
  m_start : nat;
  m_group : text
}.

(** [re.finditer(r, s, flags)]: the non-overlapping matches, scanning from
    left to right.  After an empty match the scan moves on by one
    character. *)
Fixpoint finditer_from (fuel : nat) (fl : flags) (r : regex) (pos : nat)
    (s : text) : list re_match :=
  match fuel with
  | O => []
  | S fuel' =>
      match rmatch fl r s (fun rest => Some rest) with
      | Some rest =>
          let len := List.length s - List.length rest in
          mkMatch pos (firstn len s) ::
          match len, s with
          | O, [] => []
          | O, _ :: s' => finditer_from fuel' fl r (S pos) s'
          | _, _ => finditer_from fuel' fl r (pos + len) rest
          end
      | None =>
          match s with
          | [] => []
          | _ :: s' => finditer_from fuel' fl r (S pos) s'
          end
      end
  end.

Definition finditer (r : regex) (s : text) (fl : flags) : list re_match :=
  finditer_from (S (List.length s)) fl r 0 s.

(** [re.sub(r, repl, s)] *)
Fixpoint sub_from (ms : list re_match) (repl : text) (pos : nat) (s : text) : text :=
  match ms with
  | [] => s
  | m :: ms' =>
      firstn (m_start m - pos) s ++ repl ++
      sub_from ms' repl (m_start m + List.length (m_group m))
        (skipn (m_start m - pos + List.length (m_group m)) s)
  end.

Definition sub (r : regex) (repl : text) (s : text) : text :=
  sub_from (finditer r s no_flags) repl 0 s.

(** Pattern syntax. *)
Fixpoint lit_text (s : text) : regex :=
  match s with
  | [] => Empty
  | [c] => Chr c
  | c :: s' => Seq (Chr c) (lit_text s')
  end.

Definition lit (s : string) : regex := lit_text (of_string s).

Fixpoint seq (rs : list regex) : regex :=
  match rs with
  | [] => Empty
  | [r] => r
  | r :: rs' => Seq r (seq rs')
  end.

Definition star (r : regex) : regex := Star true r.
Definition plus (r : regex) : regex := Seq r (Star true r).
Definition lazy_star (r : regex) : regex := Star false r.
Definition ws : regex := Class is_space.
Definition word : regex := Class is_word.
Definition quote : regex :=
  Class (fun c => Ascii.eqb c dquote || Ascii.eqb c squote).
Definition not_quote : regex :=
  Class (fun c => negb (Ascii.eqb c dquote || Ascii.eqb c squote)).
Definition nl : regex := Chr newline.

End Re.

(** ** Syntax trees

    The part of Python's [ast] module the structural detector reads: the
    kind of a node, the parameters and the line of a function definition,
    and the children of every node.  The parser itself is a parameter of
    the detector. *)

Module Ast.

(** [ast.arguments]: the five kinds of parameters of a definition. *)
Record arguments : Type := mkArguments {
  posonlyargs : list string;
  args : list string;
  vararg : option string;
  kwonlyargs : list string;
  kwarg : option string
}.

Inductive node_kind : Type :=
| FunctionDef (name : string) (a : arguments) (lineno : nat)
| AsyncFunctionDef (name : string) (a : arguments) (lineno : nat)
| Lambda (a : arguments)
| If
| IfExp
| Other.

#[warnings="-register-all"]
Inductive ast : Type :=
| Node (kind : node_kind) (children : list ast).

Definition kind_of (t : ast) : node_kind :=
  match t with Node k _ => k end.

Definition children_of (t : ast) : list ast :=
  match t with Node _ cs => cs end.

Fixpoint size (t : ast) : nat :=
  match t with
  | Node _ cs => S (list_sum (map size cs))
  end.

Definition total_size (ts : list ast) : nat := list_sum (map size ts).

(** [ast.walk]: the nodes in breadth-first order, from a queue. *)
Fixpoint walk_queue (fuel : nat) (todo : list ast) : list ast :=
  match fuel with
  | O => []
  | S fuel' =>
      match todo with
      | [] => []
      | node :: rest => node :: walk_queue fuel' (rest ++ children_of node)
      end
  end.

Definition walk (t : ast) : list ast := walk_queue (size t) [t].

Definition is_FunctionDef (t : ast) : bool :=
  match kind_of t with FunctionDef _ _ _ => true | _ => false end.

Definition is_If (t : ast) : bool :=
  match kind_of t with If => true | _ => false end.

End Ast.

(** ** Pattern detector ([pattern_detector.py]) *)

Module Detector.
Import Text Re Ast.

(** [self.detections] is threaded through the detectors as a state. *)
Definition detections_state : Type := list Detection.

Fixpoint for_each {A S : Type} (xs : list A) (body : A -> S -> result S)
    (st : S) : result S :=
  match xs with
  | [] => Ok st
  | x :: xs' => st' <- body x st ;; for_each xs' body st'
  end.

(** [code[:match.start()].count('\n') + 1] *)
Definition line_num_of (code : text) (m : re_match) : nat :=
  count_newlines (firstn (m_start m) code) + 1.

(** [lines[line_num-1].strip() if line_num <= len(lines) else ''] *)
Definition snippet_at (lines : list text) (line_num : nat) : result string :=
  if line_num <=? List.length lines
  then l <- index lines (line_num - 1) ;; Ok (to_string (strip l))
  else Ok ""%string.

Definition multiline : flags := mkFlags false true false.
Definition dotall : flags := mkFlags false false true.
Definition ignorecase : flags := mkFlags true false false.

(** One rule of a text detector: every match of the pattern appends a
    finding located at the line of the match. *)
Definition scan (pattern : regex) (fl : flags) (code : text) (lines : list text)
    (keep : re_match -> bool)
    (pt : PatternType) (sev : Severity) (desc imp rec : string) (conf : float)
    (detections : detections_state) : result detections_state :=
  for_each (finditer pattern code fl)
    (fun m ds =>
       let line_num := line_num_of code m in
       if keep m then
         snippet <- snippet_at lines line_num ;;
         Ok (ds ++ [mkDetection pt sev (Z.of_nat line_num) snippet desc imp rec conf])
       else Ok ds)
    detections.

Definition always (m : re_match) : bool := true.

(** r'except\s*:\s*pass' *)
Definition pattern1 : regex :=
  seq [lit "except"; star ws; lit ":"; star ws; lit "pass"].

(** r'except\s+Exception\s*:\s*pass' *)
Definition pattern2 : regex :=
  seq [lit "except"; plus ws; lit "Exception"; star ws; lit ":"; star ws; lit "pass"].

(** r'except\s+\w+\s*:\s*\n\s*$' *)
Definition pattern3 : regex :=
  seq [lit "except"; plus ws; plus word; star ws; lit ":"; star ws; nl; star ws; Eol].

(** r'except.*?:\s*return\s+None\s*$' *)
Definition pattern4 : regex :=
  seq [lit "except"; lazy_star Dot; lit ":"; star ws; lit "return"; plus ws;
       lit "None"; star ws; Eol].

Definition _detect_silent_fallback (code : text) (lines : list text)
    (detections : detections_state) : result detections_state :=
  ds <- scan pattern1 multiline code lines always
          SILENT_FALLBACK CRITICAL
          "Bare except: pass silences ALL exceptions including critical ones"
          "⚠️ Crashes and errors will be invisible. Debugging impossible. Production failures go unnoticed."
          "Add logging: logger.exception('Error in X') OR catch specific exceptions"
          (float_lit 10 1) detections ;;
  ds <- scan pattern2 multiline code lines always
          SILENT_FALLBACK WARNING
          "Exception silenced without logging"
          "🔇 Errors hidden. No visibility into failures. Silent degradation."
          "Log the exception: logger.warning(f'Error: {e}', exc_info=True)"
          (float_lit 95 2) ds ;;
  ds <- scan pattern3 multiline code lines always
          SILENT_FALLBACK WARNING
          "Empty except block - error swallowed"
          "🕳️ Error disappears without trace. Impossible to debug."
          "Add at minimum: logger.exception('Context message')"
          (float_lit 9 1) ds ;;
  scan pattern4 multiline code lines
    (fun m => negb (contains (of_string "log") (map lower (m_group m))))
    SILENT_FALLBACK WARNING
    "Silent None return on exception"
    "🎭 Failure masked as 'no result'. Caller can't distinguish error from empty."
    "Log before returning OR raise a custom exception"
    (float_lit 85 2) ds.

(** The four (pattern, description) pairs of [_detect_warning_suppression].
    In the comments that quote a pattern, [q] stands for the bracket class
    of the double and the single quote character. *)
Definition warning_patterns : list (regex * string) :=
  [ (* r'warnings\.filterwarnings\([q]ignore[q]\)' *)
    (seq [lit "warnings.filterwarnings("; quote; lit "ignore"; quote; lit ")"],
     "warnings.filterwarnings('ignore') suppresses ALL warnings"%string);
    (* r'-W\s+ignore' *)
    (seq [lit "-W"; plus ws; lit "ignore"],
     "Command line -W ignore flag suppresses warnings"%string);
    (* r'@pytest\.mark\.filterwarnings\([q]ignore' *)
    (seq [lit "@pytest.mark.filterwarnings("; quote; lit "ignore"],
     "pytest filterwarnings(ignore) hides test warnings"%string);
    (* r'import\s+warnings.*?warnings\.simplefilter\([q]ignore[q]\)' *)
    (seq [lit "import"; plus ws; lit "warnings"; lazy_star Dot;
          lit "warnings.simplefilter("; quote; lit "ignore"; quote; lit ")"],
     "warnings.simplefilter('ignore') globally suppresses warnings"%string) ].

Definition _detect_warning_suppression (code : text) (lines : list text)
    (detections : detections_state) : result detections_state :=
  for_each warning_patterns
    (fun '(pattern, desc) ds =>
       scan pattern no_flags code lines always
         WARNING_SUPPRESSION WARNING desc
         "🙈 Deprecations, resource leaks, and API changes invisible. Technical debt accumulates."
         "Suppress specific warnings only: warnings.filterwarnings('ignore', category=SpecificWarning)"
         (float_lit 95 2) ds)
    detections.

(** The part of [_detect_assumption_bypass] that follows a successful
    parse: one finding for each [FunctionDef] with a non-empty [args.args]
    and no [If] among the nodes walked from it. *)
Definition check_function (node : ast) (detections : detections_state)
    : result detections_state :=
  match kind_of node with
  | FunctionDef name a lineno =>
      let param_names := args a in
      let has_validation := existsb is_If (walk node) in
      if negb (match param_names with [] => true | _ => false end)
         && negb has_validation
         && (0 <? List.length param_names)
      then
        let line_num := lineno in
        first <- index param_names 0 ;;
        Ok (detections ++
            [mkDetection ASSUMPTION_BYPASS WARNING (Z.of_nat line_num)
               ("def " ++ name ++ "(" ++ String.concat ", " param_names ++ ")")
               "Function uses parameters without validation"
               "💥 Will crash on edge cases: None, empty strings, negative numbers, etc."
               ("Add validation: if " ++ first ++ " is None: raise ValueError(...)")
               (float_lit 7 1)])
      else Ok detections
  | _ => Ok detections
  end.

(** The state of [_detect_duplicate_code]: the dictionary [seen_blocks]
    and the detections. *)
Definition seen_blocks_t : Type := list (text * nat).

Definition block_size : nat := 10.

(** [re.sub(r'\s+', ' ', block).strip()] *)
Definition normalize_block (block : text) : text :=
  strip (Re.sub (plus ws) [space] block).

Definition block_at (lines : list text) (i : nat) : text :=
  join_lines (slice lines i (i + block_size)).

Definition duplicate_step (lines : list text) (i : nat)
    (st : seen_blocks_t * detections_state)
    : result (seen_blocks_t * detections_state) :=
  let '(seen_blocks, detections) := st in
  let block := block_at lines i in
  let normalized := normalize_block block in
  if 50 <? List.length normalized then
    match dict_find text_eqb seen_blocks normalized with
    | Some _ =>
        first <- dict_index text_eqb seen_blocks normalized ;;
        Ok (seen_blocks,
            detections ++
            [mkDetection DUPLICATE_CODE WARNING (Z.of_nat (i + 1))
               ("Duplicate block at line " ++ decimal (i + 1) ++
                " (also at " ++ decimal first ++ ")")
               (decimal block_size ++ "-line duplicate code block")
               "📋 Violates DRY. Bug fixes need multiple changes. Maintenance nightmare."
               "Extract to function or refactor common logic"
               (float_lit 9 1)])
    | None => Ok (seen_blocks ++ [(normalized, i + 1)], detections)
    end
  else Ok st.

Definition _detect_duplicate_code (code : text) (lines : list text)
    (detections : detections_state) : result detections_state :=
  st <- for_each (List.seq 0 (List.length lines - block_size))
          (duplicate_step lines) ([], detections) ;;
  Ok (snd st).

(** r'for\s+\w+\s+in.*?:\s*\n.*?for\s+\w+\s+in' *)
Definition nested_loop_pattern : regex :=
  Re.seq [lit "for"; plus ws; plus word; plus ws; lit "in"; lazy_star Dot; lit ":";
          star ws; nl; lazy_star Dot; lit "for"; plus ws; plus word; plus ws; lit "in"].

(** r'for\s+.*?:\s*\n.*?(requests\.|http\.|fetch\(|get\()' *)
Definition api_in_loop : regex :=
  Re.seq [lit "for"; plus ws; lazy_star Dot; lit ":"; star ws; nl; lazy_star Dot;
          Alt (lit "requests.") (Alt (lit "http.") (Alt (lit "fetch(") (lit "get(")))].

Definition _detect_performance_degradation (code : text) (lines : list text)
    (detections : detections_state) : result detections_state :=
  ds <- for_each (finditer nested_loop_pattern code dotall)
          (fun m ds =>
             let line_num := line_num_of code m in
             Ok (ds ++ [mkDetection PERFORMANCE_DEGRADATION INFO (Z.of_nat line_num)
                          "Nested for loops detected"
                          "Potential O(n²) complexity"
                          "🐌 Performance degrades quadratically. 100 items = 10K operations. 1000 items = 1M operations."
                          "Consider using dict lookup (O(1)) or set operations instead"
                          (float_lit 6 1)]))
          detections ;;
  for_each (finditer api_in_loop code dotall)
    (fun m ds =>
       let line_num := line_num_of code m in
       Ok (ds ++ [mkDetection PERFORMANCE_DEGRADATION WARNING (Z.of_nat line_num)
                    "API call inside loop"
                    "Repeated API calls without batching"
                    "⏱️ N+1 query problem. 100 items = 100 API calls. Slow + rate limit issues."
                    "Batch API calls or use bulk endpoints"
                    (float_lit 8 1)]))
    ds.

Definition security_patterns : list (regex * string * string * string) :=
  [ (* r'\.format\(.*SELECT.*FROM' *)
    (Re.seq [lit ".format("; star Dot; lit "SELECT"; star Dot; lit "FROM"],
     "SQL injection via string formatting",
     "🔓 SQL INJECTION! Attacker can execute arbitrary SQL, dump database, delete data.",
     "Use parameterized queries: cursor.execute('SELECT * FROM users WHERE id = %s', (user_id,))")%string;
    (* r'eval\(' *)
    (lit "eval(",
     "eval() allows arbitrary code execution",
     "☠️ REMOTE CODE EXECUTION! Attacker can run ANY Python code on your server.",
     "Never use eval(). Parse JSON with json.loads() or use ast.literal_eval() for literals")%string;
    (* r'exec\(' *)
    (lit "exec(",
     "exec() allows arbitrary code execution",
     "☠️ REMOTE CODE EXECUTION! Attacker can run ANY Python code.",
     "Refactor to avoid exec(). Use functions, classes, or importlib instead")%string;
    (* r'(password|secret|api_key)\s*=\s*[q][^q]+[q]' *)
    (Re.seq [Alt (lit "password") (Alt (lit "secret") (lit "api_key"));
             star ws; lit "="; star ws; quote; plus not_quote; quote],
     "Hardcoded credentials",
     "🔑 CREDENTIAL LEAK! Credentials in code will be in git, logs, error messages.",
     "Use environment variables: os.environ['API_KEY'] or secrets manager")%string ].

Definition _detect_security_shortcuts (code : text) (lines : list text)
    (detections : detections_state) : result detections_state :=
  for_each security_patterns
    (fun '(pattern, desc, imp, rec) ds =>
       scan pattern ignorecase code lines always
         SECURITY_SHORTCUT CRITICAL desc imp rec (float_lit 95 2) ds)
    detections.

Definition generic_errors : list regex :=
  [ (* r'raise\s+Exception\([q]Error[q]' *)
    Re.seq [lit "raise"; plus ws; lit "Exception("; quote; lit "Error"; quote];
    (* r'raise\s+Exception\([q]Something went wrong[q]' *)
    Re.seq [lit "raise"; plus ws; lit "Exception("; quote; lit "Something went wrong"; quote];
    (* r'raise\s+Exception\([q]Failed[q]' *)
    Re.seq [lit "raise"; plus ws; lit "Exception("; quote; lit "Failed"; quote] ].

Definition _detect_error_masking (code : text) (lines : list text)
    (detections : detections_state) : result detections_state :=
  for_each generic_errors
    (fun pattern ds =>
       scan pattern no_flags code lines always
         ERROR_MASKING INFO
         "Generic error message without context"
         "🤷 Users/developers can't understand what failed or why. Support burden increases."
         "Use specific exceptions: raise ValueError(f'Invalid input {x}: must be > 0')"
         (float_lit 8 1) ds)
    detections.

Definition skip_patterns : list regex :=
  [ (* r'@pytest\.mark\.skip' *)
    lit "@pytest.mark.skip";
    (* r'@unittest\.skip' *)
    lit "@unittest.skip";
    (* r'skipTest\(' *)
    lit "skipTest(" ].

Definition _detect_test_avoidance (code : text) (lines : list text)
    (detections : detections_state) : result detections_state :=
  for_each skip_patterns
    (fun pattern ds =>
       scan pattern no_flags code lines always
         TEST_AVOIDANCE WARNING
         "Test marked as skip"
         "🧪 Skipped tests = untested code. Regressions will go unnoticed."
         "Fix the test instead of skipping. If temporary, add issue reference and deadline."
         (float_lit 9 1) ds)
    detections.

Section Parser.

(** [ast.parse]: a tree, or the exception the parser raises. *)
Variable ast_parse : text -> result ast.

(** [try: tree = ast.parse(code); for node in ast.walk(tree): ...
    except SyntaxError: pass].  Only the parser can raise [SyntaxError]
    inside the [try]; every other exception leaves the method. *)
Definition _detect_assumption_bypass (code : text) (lines : list text)
    (detections : detections_state) : result detections_state :=
  match ast_parse code with
  | Ok tree => for_each (walk tree) check_function detections
  | Raise SyntaxError => Ok detections
  | Raise e => Raise e
  end.

Definition analyze_code (code : string) : result (list Detection) :=
  let code := of_string code in
  let detections := [] in
  let lines := split_lines code in
  ds <- _detect_silent_fallback code lines detections ;;
  ds <- _detect_warning_suppression code lines ds ;;
  ds <- _detect_assumption_bypass code lines ds ;;
  ds <- _detect_duplicate_code code lines ds ;;
  ds <- _detect_performance_degradation code lines ds ;;
  ds <- _detect_security_shortcuts code lines ds ;;
  ds <- _detect_error_masking code lines ds ;;
  ds <- _detect_test_avoidance code lines ds ;;
  Ok ds.

End Parser.

End Detector.

(** ** The findings of each detector, in closed form

    Each detector appends to [self.detections]; the lists below are what
    it appends.  They are related to the detectors by the lemmas of the
    second part. *)

Module Findings.
Import Text Re Ast Detector.

(** The snippet of a line that exists. *)
Definition snippet (lines : list text) (line_num : nat) : string :=
  if line_num <=? List.length lines
  then to_string (strip (nth (line_num - 1) lines []))
  else ""%string.

(** One rule of a text detector. *)
Record rule : Type := mkRule {
  r_pattern : regex;
  r_flags : flags;
  r_keep : re_match -> bool;
  r_category : PatternType;
  r_severity : Severity;
  r_snippet : list text -> nat -> string;
  r_description : string;
  r_impact : string;
  r_recommendation : string;
  r_confidence : float
}.

Definition rule_matches (r : rule) (code : text) : list re_match :=
  filter (r_keep r) (finditer (r_pattern r) code (r_flags r)).

Definition rule_finding (r : rule) (code : text) (lines : list text)
    (m : re_match) : Detection :=
  mkDetection (r_category r) (r_severity r) (Z.of_nat (line_num_of code m))
    (r_snippet r lines (line_num_of code m))
    (r_description r) (r_impact r) (r_recommendation r) (r_confidence r).

Definition rule_findings (r : rule) (code : text) (lines : list text)
    : list Detection :=
  map (rule_finding r code lines) (rule_matches r code).

Definition rules_findings (rs : list rule) (code : text) (lines : list text)
    : list Detection :=
  flat_map (fun r => rule_findings r code lines) rs.

Definition silent_fallback_rules : list rule :=
  [ mkRule pattern1 multiline always SILENT_FALLBACK CRITICAL snippet
      "Bare except: pass silences ALL exceptions including critical ones"
      "⚠️ Crashes and errors will be invisible. Debugging impossible. Production failures go unnoticed."
      "Add logging: logger.exception('Error in X') OR catch specific exceptions"
      (float_lit 10 1);
    mkRule pattern2 multiline always SILENT_FALLBACK WARNING snippet
      "Exception silenced without logging"
      "🔇 Errors hidden. No visibility into failures. Silent degradation."
      "Log the exception: logger.warning(f'Error: {e}', exc_info=True)"
      (float_lit 95 2);
    mkRule pattern3 multiline always SILENT_FALLBACK WARNING snippet
      "Empty except block - error swallowed"
      "🕳️ Error disappears without trace. Impossible to debug."
      "Add at minimum: logger.exception('Context message')"
      (float_lit 9 1);
    mkRule pattern4 multiline
      (fun m => negb (contains (of_string "log") (map lower (m_group m))))
      SILENT_FALLBACK WARNING snippet
      "Silent None return on exception"
      "🎭 Failure masked as 'no result'. Caller can't distinguish error from empty."
      "Log before returning OR raise a custom exception"
      (float_lit 85 2) ].

Definition warning_rules : list rule :=
  map (fun '(pattern, desc) =>
         mkRule pattern no_flags always WARNING_SUPPRESSION WARNING snippet desc
           "🙈 Deprecations, resource leaks, and API changes invisible. Technical debt accumulates."
           "Suppress specific warnings only: warnings.filterwarnings('ignore', category=SpecificWarning)"
           (float_lit 95 2))
      warning_patterns.

Definition nested_loop_rule : rule :=
  mkRule nested_loop_pattern dotall always PERFORMANCE_DEGRADATION INFO
    (fun _ _ => "Nested for loops detected"%string)
    "Potential O(n²) complexity"
    "🐌 Performance degrades quadratically. 100 items = 10K operations. 1000 items = 1M operations."
    "Consider using dict lookup (O(1)) or set operations instead"
    (float_lit 6 1).

Definition api_in_loop_rule : rule :=
  mkRule api_in_loop dotall always PERFORMANCE_DEGRADATION WARNING
    (fun _ _ => "API call inside loop"%string)
    "Repeated API calls without batching"
    "⏱️ N+1 query problem. 100 items = 100 API calls. Slow + rate limit issues."
    "Batch API calls or use bulk endpoints"
    (float_lit 8 1).

Definition performance_rules : list rule :=
  [nested_loop_rule; api_in_loop_rule].

Definition security_rules : list rule :=
  map (fun '(pattern, desc, imp, rec) =>
         mkRule pattern ignorecase always SECURITY_SHORTCUT CRITICAL snippet
           desc imp rec (float_lit 95 2))
      security_patterns.

Definition error_masking_rules : list rule :=
  map (fun pattern =>
         mkRule pattern no_flags always ERROR_MASKING INFO snippet
           "Generic error message without context"
           "🤷 Users/developers can't understand what failed or why. Support burden increases."
           "Use specific exceptions: raise ValueError(f'Invalid input {x}: must be > 0')"
           (float_lit 8 1))
      generic_errors.

Definition test_avoidance_rules : list rule :=
  map (fun pattern =>
         mkRule pattern no_flags always TEST_AVOIDANCE WARNING snippet
           "Test marked as skip"
           "🧪 Skipped tests = untested code. Regressions will go unnoticed."
           "Fix the test instead of skipping. If temporary, add issue reference and deadline."
           (float_lit 9 1))
      skip_patterns.

(** *** Structural detector *)

(** The nodes that get a finding: a [FunctionDef] whose [args.args] is not
    empty and from which no [If] node is walked. *)
Definition qualifies (node : ast) : bool :=
  match kind_of node with
  | FunctionDef _ a _ =>
      negb (match args a with [] => true | _ => false end)
      && negb (existsb is_If (walk node))
  | _ => false
  end.

Definition bypass_finding (node : ast) : Detection :=
  match kind_of node with
  | FunctionDef name a lineno =>
      mkDetection ASSUMPTION_BYPASS WARNING (Z.of_nat lineno)
        ("def " ++ name ++ "(" ++ String.concat ", " (args a) ++ ")")
        "Function uses parameters without validation"
        "💥 Will crash on edge cases: None, empty strings, negative numbers, etc."
        ("Add validation: if " ++ hd ""%string (args a) ++ " is None: raise ValueError(...)")
        (float_lit 7 1)
  | _ => mkDetection ASSUMPTION_BYPASS WARNING 0 "" "" "" "" (float_lit 7 1)
  end.

Definition bypass_findings (tree : ast) : list Detection :=
  map bypass_finding (filter qualifies (walk tree)).

(** All the nodes of a tree, parents before children, depth first. *)
Fixpoint nodes (t : ast) : list ast :=
  match t with
  | Node k cs => Node k cs :: flat_map nodes cs
  end.

(** Every parameter a definition declares, of whatever kind. *)
Definition declared_parameters (a : arguments) : list string :=
  posonlyargs a ++ args a ++
  match vararg a with Some v => [v] | None => [] end ++
  kwonlyargs a ++
  match kwarg a with Some v => [v] | None => [] end.

(** *** Duplicate-block detector *)

(** The normalized ten-line window that starts at index [i]. *)
Definition window_key (lines : list text) (i : nat) : text :=
  normalize_block (block_at lines i).

(** The first window before [i] with the same normalized text. *)
Definition first_seen (lines : list text) (i : nat) : option nat :=
  find (fun j => text_eqb (window_key lines j) (window_key lines i)) (List.seq 0 i).

Definition duplicate_finding (line first : nat) : Detection :=
  mkDetection DUPLICATE_CODE WARNING (Z.of_nat line)
    ("Duplicate block at line " ++ decimal line ++
     " (also at " ++ decimal first ++ ")")
    (decimal block_size ++ "-line duplicate code block")
    "📋 Violates DRY. Bug fixes need multiple changes. Maintenance nightmare."
    "Extract to function or refactor common logic"
    (float_lit 9 1).

Definition duplicate_at (lines : list text) (i : nat) : list Detection :=
  if 50 <? List.length (window_key lines i) then
    match first_seen lines i with
    | Some j => [duplicate_finding (i + 1) (j + 1)]
    | None => []
    end
  else [].

Definition duplicate_findings (lines : list text) : list Detection :=
  flat_map (duplicate_at lines) (List.seq 0 (List.length lines - block_size)).

(** [seen_blocks] after the windows before [i] have been processed. *)
Definition seen_entry (lines : list text) (j : nat) : seen_blocks_t :=
  if 50 <? List.length (window_key lines j) then
    match first_seen lines j with
    | Some _ => []
    | None => [(window_key lines j, j + 1)]
    end
  else [].

Definition seen_upto (lines : list text) (i : nat) : seen_blocks_t :=
  flat_map (seen_entry lines) (List.seq 0 i).

(** *** The whole analysis *)

Definition before_parse (code : text) : list Detection :=
  let lines := split_lines code in
  rules_findings silent_fallback_rules code lines ++
  rules_findings warning_rules code lines.

Definition after_parse (code : text) : list Detection :=
  let lines := split_lines code in
  duplicate_findings lines ++
  rules_findings performance_rules code lines ++
  rules_findings security_rules code lines ++
  rules_findings error_masking_rules code lines ++
  rules_findings test_avoidance_rules code lines.

Definition has_category (c : PatternType) (d : Detection) : bool :=
  PatternType_eqb (pattern_type d) c.

(** The place of a category in the order of the detectors. *)
Definition category_rank (c : PatternType) : nat :=
  match c with
  | SILENT_FALLBACK => 0
  | WARNING_SUPPRESSION => 1
  | ASSUMPTION_BYPASS => 2
  | DUPLICATE_CODE => 3
  | PERFORMANCE_DEGRADATION => 4
  | SECURITY_SHORTCUT => 5
  | ERROR_MASKING => 6
  | TEST_AVOIDANCE => 7
  end.

End Findings.

(** ** Sample inputs and the orderings the properties speak about *)

Module Samples.
Import Text Re Ast Detector Findings.

Definition NL : string := String newline EmptyString.

(** A parser for texts that are not valid Python. *)
Definition rejecting_parser (code : text) : result ast := Raise SyntaxError.

(** A parser that has produced the tree [t]. *)
Definition parser_returning (t : ast) (code : text) : result ast := Ok t.

(** CPython up to version 3.11 answers a source text that holds a NUL
    character with [ValueError: source code string cannot contain null
    bytes]; the other texts are not looked at here. *)
Definition nul_checking_parser (code : text) : result ast :=
  if existsb (Ascii.eqb (ascii_of_nat 0)) code
  then Raise ValueError
  else Ok (Node Other []).

Definition nul_text : string := String (ascii_of_nat 0) EmptyString.

(** Two handlers: the second line matches the first rule, the first line
    the second rule. *)
Definition two_handlers : string :=
  ("except Exception: pass" ++ NL ++ "except: pass")%string.

Definition lines_ascending (ds : list Detection) : Prop :=
  forall i j a b,
    i < j -> nth_error ds i = Some a -> nth_error ds j = Some b ->
    (line_number a <= line_number b)%Z.

(** The order the specification words: by detector, and inside a detector
    by position, so that the line numbers of one category never decrease. *)
Definition ordered_by_detector_then_position (ds : list Detection) : Prop :=
  forall i j a b,
    i < j -> nth_error ds i = Some a -> nth_error ds j = Some b ->
    category_rank (pattern_type a) <= category_rank (pattern_type b) /\
    (pattern_type a = pattern_type b -> (line_number a <= line_number b)%Z).

(** The order of the rules: the category of each block of findings, and
    whether the block is produced by a scan from left to right. *)
Definition catalogue : list (PatternType * bool) :=
  map (fun r => (r_category r, true)) silent_fallback_rules ++
  map (fun r => (r_category r, true)) warning_rules ++
  [(ASSUMPTION_BYPASS, false); (DUPLICATE_CODE, true)] ++
  map (fun r => (r_category r, true)) performance_rules ++
  map (fun r => (r_category r, true)) security_rules ++
  map (fun r => (r_category r, true)) error_masking_rules ++
  map (fun r => (r_category r, true)) test_avoidance_rules.

Definition block_ok (entry : PatternType * bool) (block : list Detection) : Prop :=
  Forall (fun d => pattern_type d = fst entry) block /\
  (snd entry = true -> lines_ascending block).

(** The blocks of findings of one run, one for each entry of the catalogue. *)
Definition blocks_of (structural : list Detection) (code : text) : list (list Detection) :=
  let lines := split_lines code in
  map (fun r => rule_findings r code lines) silent_fallback_rules ++
  map (fun r => rule_findings r code lines) warning_rules ++
  [structural; duplicate_findings lines] ++
  map (fun r => rule_findings r code lines) performance_rules ++
  map (fun r => rule_findings r code lines) security_rules ++
  map (fun r => rule_findings r code lines) error_masking_rules ++
  map (fun r => rule_findings r code lines) test_avoidance_rules.

(** A definition [f] whose only parameter is the starred [args], with the
    body [return args]. *)
Definition vararg_function : ast :=
  Node (FunctionDef "f" (mkArguments [] [] (Some "args"%string) [] None) 1)
    [ Node Other [Node Other []];
      Node Other [Node Other []] ].

Definition vararg_text : string :=
  ("def f(*args):" ++ NL ++ "    return args" ++ NL)%string.

(** [async def g(x): return x] *)
Definition async_function : ast :=
  Node (AsyncFunctionDef "g" (mkArguments [] ["x"%string] None [] None) 1)
    [ Node Other [Node Other []];
      Node Other [Node Other []] ].

Definition async_text : string :=
  ("async def g(x):" ++ NL ++ "    return x" ++ NL)%string.

(** [def h(x): return x] *)
Definition plain_function : ast :=
  Node (FunctionDef "h" (mkArguments [] ["x"%string] None [] None) 1)
    [ Node Other [Node Other []];
      Node Other [Node Other []] ].

Definition plain_text : string :=
  ("def h(x):" ++ NL ++ "    return x" ++ NL)%string.

Definition module_of (body : list ast) : ast := Node Other body.

(** What the specification calls a function-like definition that declares
    a parameter and has no conditional anywhere in it. *)
Definition unvalidated_definition (node : ast) : bool :=
  match kind_of node with
  | FunctionDef _ a _ | AsyncFunctionDef _ a _ =>
      negb (match declared_parameters a with [] => true | _ => false end)
      && negb (existsb is_If (nodes node))
  | _ => false
  end.

(** Twelve lines, each longer than five characters. *)
Definition block12 : list string :=
  [ "alpha = load_value(1)"; "bravo = load_value(2)"; "charlie = load_value(3)";
    "delta = load_value(4)"; "echo = load_value(5)"; "foxtrot = load_value(6)";
    "golf = load_value(7)"; "hotel = load_value(8)"; "india = load_value(9)";
    "juliet = load_value(10)"; "kilo = load_value(11)"; "lima = load_value(12)" ]%string.

Definition unrelated2 : list string :=
  [ "unrelated = prepare()"; "different = finish()" ]%string.

(** The block, two unrelated lines, the block again, and a last line. *)
Definition duplicate_sample : string :=
  String.concat NL (block12 ++ unrelated2 ++ block12 ++ ["done = True"%string]).

End Samples.

(** ** The impact report ([impact_assessor.py], [generate_impact_report])

    The report is a text; the literals of the source are kept as they
    are encoded in the file (UTF-8). *)

Module Report.
Import Text.

Local Open Scope string_scope.

Definition LF : string := String (ascii_of_nat 10) EmptyString.

(** [s * n] *)
Fixpoint repeat_string (s : string) (n : nat) : string :=
  match n with
  | O => EmptyString
  | S n' => s ++ repeat_string s n'
  end.

(** [str(z)] for an int. *)
Definition str_int (z : Z) : string := NilZero.string_of_int (Z.to_int z).

(** The format [>w]: the text moved to the right of a field of width [w]. *)
Definition rjust (width : nat) (s : string) : string :=
  repeat_string " " (width - String.length s) ++ s.

(** The format [.1f]: the exact value rounded half-even to tenths. *)
Definition format_1f (x : float) : string :=
  match x with
  | S754_zero s => (if s then "-" else "") ++ "0.0"
  | S754_infinity s => if s then "-inf" else "inf"
  | S754_nan => "nan"
  | S754_finite s m e =>
      let k := match e with
               | Zneg p => div_half_even (Zpos m * 10) (2 ^ Zpos p)
               | _ => Zpos m * 10 * 2 ^ e
               end%Z in
      (if s then "-" else "") ++ str_int (k / 10) ++ "." ++ str_int (k mod 10)
  end.

(** ['█' * (n // 10)] *)
Definition bar (n : Z) : string := repeat_string "█" (Z.to_nat (n / 10)).

(** The opening f-string of the report. *)
Definition header (impact : ImpactScore) (num_detections : nat) : string :=
  LF ++
  "╔════════════════════════════════════════════════════════════════╗" ++ LF ++
  "║                     IMPACT ASSESSMENT                          ║" ++ LF ++
  "╚════════════════════════════════════════════════════════════════╝" ++ LF ++
  LF ++
  "🎯 Risk Level: " ++ risk_level impact ++ LF ++
  "📊 Total Impact Score: " ++ str_int (total_score impact) ++ "/100" ++ LF ++
  LF ++
  "┌─ BREAKDOWN ────────────────────────────────────────────────────┐" ++ LF ++
  "│ 🐌 Performance Cost:      " ++ rjust 3 (str_int (performance_cost impact)) ++ "/100  " ++ bar (performance_cost impact) ++ LF ++
  "│ 🔓 Security Risk:         " ++ rjust 3 (str_int (security_risk impact)) ++ "/100  " ++ bar (security_risk impact) ++ LF ++
  "│ 🔧 Maintainability Debt:  " ++ rjust 3 (str_int (maintainability_debt impact)) ++ "/100  " ++ bar (maintainability_debt impact) ++ LF ++
  "│ ⏱️  Est. Debug Hours:      " ++ rjust 5 (format_1f (estimated_debug_hours impact)) ++ "h (if issues hit production)" ++ LF ++
  "└────────────────────────────────────────────────────────────────┘" ++ LF ++
  LF ++
  "📋 Detected " ++ decimal num_detections ++ " alarm-silencing pattern(s):" ++ LF.

(** [f'  • Line {d.line_number}: {d.description}\n'] *)
Definition finding_line (d : Detection) : string :=
  "  • Line " ++ str_int (line_number d) ++ ": " ++ description d ++ LF.

(** One severity group: nothing when the group is empty, else its title
    with the size of the group and the lines of its first [shown]
    findings. *)
Definition group_lines (title : string) (group : list Detection) (shown : nat)
    : string :=
  match group with
  | [] => EmptyString
  | _ =>
      LF ++ title ++ " (" ++ decimal (List.length group) ++ "):" ++ LF ++
      String.concat EmptyString (map finding_line (firstn shown group))
  end.

Definition has_severity (s : Severity) (d : Detection) : bool :=
  Severity_eqb (severity d) s.

(** [sorted(xs, key=..., reverse=True)] on the list of the keys paired
    with the elements: the stable sort in non-increasing key order.  Each
    element is inserted in front of the sorted rest, after the keys that
    are greater than its own. *)
Section Sorted.
Context {K A : Type} (ltb : K -> K -> bool).

Fixpoint insert_reverse (k : K) (x : A) (l : list (K * A)) : list (K * A) :=
  match l with
  | [] => [(k, x)]
  | (k', y) :: l' =>
      if ltb k k' then (k', y) :: insert_reverse k x l' else (k, x) :: l
  end.

Fixpoint sorted_reverse (l : list (K * A)) : list (K * A) :=
  match l with
  | [] => []
  | (k, x) :: l' => insert_reverse k x (sorted_reverse l')
  end.
End Sorted.

Fixpoint map_result {A B : Type} (f : A -> result B) (l : list A)
    : result (list B) :=
  match l with
  | [] => Ok []
  | x :: l' => y <- f x ;; ys <- map_result f l' ;; Ok (y :: ys)
  end.

(** The values of the weights dict of a category: the default dict of the
    report has no ['debug_hours']. *)
Definition weight_values (c : PatternType) : list Z * option float :=
  match dict_find PatternType_eqb PATTERN_WEIGHTS c with
  | Some w => ([w_performance w; w_security w; w_maintainability w],
               Some (w_debug_hours w))
  | None => ([10; 10; 10]%Z, None)
  end.

(** The sort key [SEVERITY_MULTIPLIERS[d.severity] * sum(weights.values())]:
    [sum] adds the ints to the int 0 and then the float. *)
Definition priority (d : Detection) : result float :=
  multiplier <- dict_index Severity_eqb SEVERITY_MULTIPLIERS (severity d) ;;
  let '(ints, h) := weight_values (pattern_type d) in
  let total := fold_left Z.add ints 0%Z in
  total <- match h with
           | Some h => int_add_float total h
           | None => float_of_int total
           end ;;
  Ok (fmul multiplier total).

(** Twice the sort key, as an integer: the doubled multiplier of the
    severity times the sum of the four weights of the category. *)
Definition rank (d : Detection) : Z :=
  (match severity d with CRITICAL => 4 | WARNING => 2 | INFO => 1 end *
   match pattern_type d with
   | SILENT_FALLBACK => 98
   | WARNING_SUPPRESSION => 69
   | ASSUMPTION_BYPASS => 86
   | DUPLICATE_CODE => 97
   | PERFORMANCE_DEGRADATION => 111
   | SECURITY_SHORTCUT => 154
   | ERROR_MASKING => 80
   | TEST_AVOIDANCE => 85
   end)%Z.

(** A critical security shortcut, the finding of the highest key. *)
Definition critical_shortcut (d : Detection) : bool :=
  PatternType_eqb (pattern_type d) SECURITY_SHORTCUT &&
  Severity_eqb (severity d) CRITICAL.

Definition sorted_detections (detections : list Detection)
    : result (list Detection) :=
  keys <- map_result priority detections ;;
  Ok (map snd (sorted_reverse SFltb (combine keys detections))).

(** [f'{i}. {d.recommendation}\n'] for [enumerate(ds, i)]. *)
Fixpoint numbered (i : nat) (ds : list Detection) : string :=
  match ds with
  | [] => EmptyString
  | d :: ds' =>
      decimal i ++ ". " ++ recommendation d ++ LF ++ numbered (S i) ds'
  end.

Definition recommendations_title : string :=
  "🎯 TOP RECOMMENDATIONS:" ++ LF ++ LF.

Definition generate_impact_report (detections : list Detection) : result string :=
  impact <- assess_impact detections ;;
  let report := header impact (List.length detections) in
  let critical := filter (has_severity CRITICAL) detections in
  let warnings := filter (has_severity WARNING) detections in
  let info := filter (has_severity INFO) detections in
  let report := report ++ group_lines "🚨 CRITICAL" critical 3 in
  let report := report ++ group_lines "⚠️  WARNING" warnings 3 in
  let report := report ++ group_lines "💡 INFO" info 2 in
  let report := report ++ (LF ++ repeat_string "═" 64 ++ LF) in
  let report := report ++ recommendations_title in
  sorted_detections <- sorted_detections detections ;;
  Ok (report ++ numbered 1 (firstn 5 sorted_detections)).

(** Findings in an order that the sort changes. *)
Definition report_sample : list Detection :=
  [ mkDetection ERROR_MASKING INFO 3 "" "" "" "first" (float_lit 8 1);
    mkDetection SECURITY_SHORTCUT CRITICAL 9 "" "" "" "second" (float_lit 95 2);
    mkDetection SILENT_FALLBACK WARNING 5 "" "" "" "third" (float_lit 9 1);
    mkDetection SECURITY_SHORTCUT CRITICAL 2 "" "" "" "fourth" (float_lit 95 2) ].

End Report.

(** ** The pre-tool-use hook ([alarm_silencing_detector.py])

    The hook reads one JSON value from its standard input and ends with
    an exit status: 0 lets the tool call pass, 2 blocks it.  The values
    of the JSON text are the Python values [json.load] builds; an
    operation that Python refuses on a value raises the exception Python
    raises.  The messages written to the standard error stream are not
    part of the model; the findings they list are. *)

Module Hook.
Import Text Ast Detector Report.

Local Open Scope Z_scope.

#[warnings="-register-all"]
Inductive json : Type :=
| JNull
| JBool (b : bool)
| JInt (z : Z)
| JFloat (f : float)
| JStr (s : string)
| JList (l : list json)
| JDict (d : list (string * json)).

Inductive hook_exn : Type :=
| AttributeError
| TypeError
| JSONDecodeError
| OSError
| Analyzer (e : exn).

(** What ends the hook: the exit status and the findings listed on the
    standard error stream before the exit. *)
Record outcome : Type := mkOutcome {
  exit_code : Z;
  listed : list Detection
}.

(** A computation returns, leaves through [sys.exit] (a [SystemExit],
    which [except Exception] lets pass) or raises an [Exception]. *)
Inductive flow (A : Type) : Type :=
| Return (a : A)
| SysExit (o : outcome)
| Throw (e : hook_exn).

Arguments Return {A} a.
Arguments SysExit {A} o.
Arguments Throw {A} e.

Definition flow_bind {A B : Type} (c : flow A) (k : A -> flow B) : flow B :=
  match c with
  | Return a => k a
  | SysExit o => SysExit o
  | Throw e => Throw e
  end.

Notation "x <~ c1 ;; c2" := (flow_bind c1 (fun x => c2))
  (at level 61, c1 at next level, right associativity).

Definition lift {A : Type} (r : result A) : flow A :=
  match r with
  | Ok a => Return a
  | Raise e => Throw (Analyzer e)
  end.

(** [v == s] for a string [s]: only a string equals a string. *)
Definition eq_str (v : json) (s : string) : bool :=
  match v with
  | JStr s' => String.eqb s' s
  | _ => false
  end.

(** [v.get(key, default)]: only a dict has the method. *)
Definition get (v : json) (key : string) (default : json) : flow json :=
  match v with
  | JDict d => Return (dict_get String.eqb d key default)
  | _ => Throw AttributeError
  end.

(** [key in v]: a key of a dict, a substring of a string, an element of
    a list; the other values are not containers. *)
Definition contains_key (key : string) (v : json) : flow bool :=
  match v with
  | JDict d =>
      Return (match dict_find String.eqb d key with Some _ => true | None => false end)
  | JStr s => Return (contains (of_string key) (of_string s))
  | JList l => Return (existsb (fun x => eq_str x key) l)
  | _ => Throw TypeError
  end.

(** [v[key]] for a string [key]. *)
Definition subscript (v : json) (key : string) : flow json :=
  match v with
  | JDict d => lift (dict_index String.eqb d key)
  | _ => Throw TypeError
  end.

(** [not v] is [negb (truthy v)]. *)
Definition truthy (v : json) : bool :=
  match v with
  | JNull => false
  | JBool b => b
  | JInt z => negb (z =? 0)
  | JFloat f => negb (is_zero f)
  | JStr s => negb (String.eqb s "")
  | JList l => match l with [] => false | _ => true end
  | JDict d => match d with [] => false | _ => true end
  end.

(** [len(v)] *)
Definition len (v : json) : flow Z :=
  match v with
  | JStr s => Return (Z.of_nat (String.length s))
  | JList l => Return (Z.of_nat (List.length l))
  | JDict d => Return (Z.of_nat (List.length d))
  | _ => Throw TypeError
  end.

Definition extract_code_from_tool_input (tool_input : json) : flow json :=
  let code_content := JStr "" in
  has_content <~ contains_key "content" tool_input ;;
  if has_content then subscript tool_input "content"
  else
    has_new_string <~ contains_key "new_string" tool_input ;;
    if has_new_string then subscript tool_input "new_string"
    else
      has_command <~ contains_key "command" tool_input ;;
      if has_command then subscript tool_input "command"
      else Return code_content.

Definition code_tools : list string := ["Write"; "Edit"; "Bash"]%string.

Definition keywords : list string := ["python"; "def "; "class "; "import "]%string.

(** [any(keyword in command for keyword in ks)] *)
Fixpoint any_keyword (ks : list string) (command : json) : flow bool :=
  match ks with
  | [] => Return false
  | keyword :: ks' =>
      found <~ contains_key keyword command ;;
      if found then Return true else any_keyword ks' command
  end.

Definition should_analyze (tool_name tool_input : json) : flow bool :=
  if negb (existsb (eq_str tool_name) code_tools) then Return false
  else if eq_str tool_name "Bash" then
    command <~ get tool_input "command" (JStr "") ;;
    found <~ any_keyword keywords command ;;
    if negb found then Return false else Return true
  else Return true.

(** [d.severity.value] *)
Definition Severity_value (s : Severity) : string :=
  match s with
  | CRITICAL => "CRITICAL"
  | WARNING => "WARNING"
  | INFO => "INFO"
  end.

(** A finding under its sort key [d.severity.value]. *)
Definition keyed (d : Detection) : string * Detection :=
  (Severity_value (severity d), d).

(** [sorted(detections, key=lambda d: d.severity.value, reverse=True)] *)
Definition sorted_by_severity (detections : list Detection) : list Detection :=
  map snd (sorted_reverse String.ltb (map keyed detections)).

Definition sys_exit {A : Type} (code : Z) (shown : list Detection) : flow A :=
  SysExit (mkOutcome code shown).

(** The end of [main], once the findings are assessed and logged: block
    on a critical finding or a critical risk level and list the critical
    findings; warn on a high or medium risk level and list the first two
    findings of the sorted list; else let the call pass. *)
Definition decision (detections : list Detection) (impact : ImpactScore)
    : outcome :=
  let critical_count :=
    Z.of_nat (List.length (filter (has_severity CRITICAL) detections)) in
  if (0 <? critical_count) || String.eqb (risk_level impact) "CRITICAL"
  then mkOutcome 2 (filter (has_severity CRITICAL) detections)
  else if existsb (String.eqb (risk_level impact)) ["HIGH"; "MEDIUM"]%string
  then mkOutcome 0 (firstn 2 (sorted_by_severity detections))
  else mkOutcome 0 [].

Section Main.

(** [ast.parse], as in the detector. *)
Variable ast_parse : text -> result ast.

(** [log_detection(detections, {...})] appends one line to the history
    file; [Some e] is the exception the file system answers with.  The
    second argument holds the four values of the dict: total score, risk
    level, performance cost and security risk. *)
Variable log_detection :
  list Detection -> Z * string * Z * Z -> option hook_exn.

(** [detector.analyze_code(code)]: a value that is not a string has no
    [split]. *)
Definition analyze (code : json) : flow (list Detection) :=
  match code with
  | JStr s => lift (analyze_code ast_parse s)
  | _ => Throw AttributeError
  end.

(** The body of the [try] of [main]; [None] stands for a standard input
    that [json.load] rejects. *)
Definition main_try (stdin : option json) : flow unit :=
  hook_input <~ match stdin with
                | Some v => Return v
                | None => Throw JSONDecodeError
                end ;;
  tool_name <~ get hook_input "tool_name" (JStr "") ;;
  tool_input <~ get hook_input "tool_input" (JDict []) ;;
  wanted <~ should_analyze tool_name tool_input ;;
  if negb wanted then sys_exit 0 []
  else
    code <~ extract_code_from_tool_input tool_input ;;
    trivial <~ (if negb (truthy code) then Return true
                else n <~ len code ;; Return (n <? 20)) ;;
    if trivial then sys_exit 0 []
    else
      detections <~ analyze code ;;
      match detections with
      | [] => sys_exit 0 []
      | _ =>
          impact <~ lift (assess_impact detections) ;;
          _ <~ match log_detection detections
                       (total_score impact, risk_level impact,
                        performance_cost impact, security_risk impact) with
               | None => Return tt
               | Some e => Throw e
               end ;;
          SysExit (decision detections impact)
      end.

(** [main]: an [Exception] of the body is reported and the hook exits
    with status 0. *)
Definition main (stdin : option json) : outcome :=
  match main_try stdin with
  | SysExit o => o
  | Throw _ => mkOutcome 0 []
  | Return _ => mkOutcome 0 []
  end.

(** A run that reaches the decision of [main]: the input is a JSON
    object, the tool is one that is analysed, the extracted code is a
    string of at least 20 characters, the analysis finds [detections],
    the assessment gives [impact] and the entry is written to the log. *)
Definition decided (stdin : option json) (detections : list Detection)
    (impact : ImpactScore) : Prop :=
  exists hook_input tool_name tool_input code,
    stdin = Some hook_input /\
    get hook_input "tool_name" (JStr "") = Return tool_name /\
    get hook_input "tool_input" (JDict []) = Return tool_input /\
    should_analyze tool_name tool_input = Return true /\
    extract_code_from_tool_input tool_input = Return (JStr code) /\
    20 <= Z.of_nat (String.length code) /\
    analyze_code ast_parse code = Ok detections /\
    detections <> [] /\
    assess_impact detections = Ok impact /\
    log_detection detections
      (total_score impact, risk_level impact,
       performance_cost impact, security_risk impact) = None.

End Main.

(** The request of a tool [tool] whose input has the one field [field]. *)
Definition tool_call (tool field : string) (code : string) : option json :=
  Some (JDict [("tool_name"%string, JStr tool);
               ("tool_input"%string, JDict [(field, JStr code)])]).

(** A text with a call of [eval] and a NUL character. *)
Definition nul_payload : string :=
  ("result = eval(user_input)" ++ String (ascii_of_nat 0) EmptyString)%string.

(** A log that is always written, and one that never is. *)
Definition log_written (ds : list Detection) (entry : Z * string * Z * Z)
    : option hook_exn := None.

Definition log_refused (ds : list Detection) (entry : Z * string * Z * Z)
    : option hook_exn := Some OSError.

End Hook.

(** ** What the findings of the detectors have in common *)

Module Observed.
Import Text Re Ast Detector Findings.

(** The severities and confidences the detectors give to the findings of
    a category. *)
Definition grades (c : PatternType) : list (Severity * float) :=
  match c with
  | SILENT_FALLBACK =>
      [(CRITICAL, float_lit 10 1); (WARNING, float_lit 95 2);
       (WARNING, float_lit 9 1); (WARNING, float_lit 85 2)]
  | WARNING_SUPPRESSION => [(WARNING, float_lit 95 2)]
  | ASSUMPTION_BYPASS => [(WARNING, float_lit 7 1)]
  | DUPLICATE_CODE => [(WARNING, float_lit 9 1)]
  | PERFORMANCE_DEGRADATION => [(INFO, float_lit 6 1); (WARNING, float_lit 8 1)]
  | SECURITY_SHORTCUT => [(CRITICAL, float_lit 95 2)]
  | ERROR_MASKING => [(INFO, float_lit 8 1)]
  | TEST_AVOIDANCE => [(WARNING, float_lit 9 1)]
  end.

Definition graded (d : Detection) : Prop :=
  In (severity d, confidence d) (grades (pattern_type d)).

(** All the rules of the text detectors. *)
Definition text_rules : list rule :=
  silent_fallback_rules ++ warning_rules ++ performance_rules ++
  security_rules ++ error_masking_rules ++ test_avoidance_rules.

(** The rules whose pattern is a plain text: the text, and the category,
    severity and description of the finding. *)
Definition literal_rules : list (string * (PatternType * Severity * string)) :=
  [ ("eval(", (SECURITY_SHORTCUT, CRITICAL,
              "eval() allows arbitrary code execution"));
    ("exec(", (SECURITY_SHORTCUT, CRITICAL,
              "exec() allows arbitrary code execution"));
    ("@pytest.mark.skip", (TEST_AVOIDANCE, WARNING, "Test marked as skip"));
    ("@unittest.skip", (TEST_AVOIDANCE, WARNING, "Test marked as skip"));
    ("skipTest(", (TEST_AVOIDANCE, WARNING, "Test marked as skip")) ]%string.

(** A parser that returns a tree or reports a syntax error. *)
Definition parses_or_rejects (ast_parse : text -> result ast) (code : string)
    : Prop :=
  forall e, ast_parse (of_string code) = Raise e -> e = SyntaxError.

(** A finding outside the structural detector lies on a line of the
    text. *)
Definition inside_text (code : string) (d : Detection) : Prop :=
  pattern_type d = ASSUMPTION_BYPASS \/
  (1 <= line_number d <= Z.of_nat (List.length (split_lines (of_string code))))%Z.

(** A duplicate is reported from the second line on, and no later than
    ten lines before the end. *)
Definition inside_windows (code : string) (d : Detection) : Prop :=
  pattern_type d = DUPLICATE_CODE ->
  (2 <= line_number d <=
   Z.of_nat (List.length (split_lines (of_string code))) - 10)%Z.

(** The window at index [i] is scanned, is longer than 50 characters once
    normalized, and repeats the window at index [j], the first window
    with its normalized text. *)
Definition repeats (lines : list text) (i j : nat) : Prop :=
  i < List.length lines - block_size /\ j < i /\
  50 < List.length (window_key lines i) /\
  window_key lines j = window_key lines i /\
  forall k, k < j -> window_key lines k <> window_key lines i.

(** The findings of the detectors that do not need the parser. *)
Definition unstructured (d : Detection) : bool :=
  negb (has_category ASSUMPTION_BYPASS d).

(** The three sums that are normalized are non-negative numbers of value
    at most [bound], in the units of [FloatValue.val]. *)
Definition sums_below (bound : Z) (s : Sums) : Prop :=
  (FloatValue.nonneg (s_performance s) /\ FloatValue.val (s_performance s) <= bound)%Z /\
  (FloatValue.nonneg (s_security s) /\ FloatValue.val (s_security s) <= bound)%Z /\
  (FloatValue.nonneg (s_maintainability s) /\
   FloatValue.val (s_maintainability s) <= bound)%Z.

(** The place of a risk level in the order LOW, MEDIUM, HIGH, CRITICAL. *)
Definition risk_rank (level : string) : Z :=
  if String.eqb level "CRITICAL" then 3
  else if String.eqb level "HIGH" then 2
  else if String.eqb level "MEDIUM" then 1
  else 0.

(** A list of findings as [analyze_code] returns them, none of them
    critical. *)
Definition uncritical (ds : list Detection) : Prop :=
  Forall graded ds /\ Forall (fun d => severity d <> CRITICAL) ds.

(** Findings of every grade below critical. *)
Definition uncritical_sample : list Detection :=
  [ finding SILENT_FALLBACK WARNING (float_lit 95 2);
    finding PERFORMANCE_DEGRADATION WARNING (float_lit 8 1);
    finding PERFORMANCE_DEGRADATION INFO (float_lit 6 1);
    finding DUPLICATE_CODE WARNING (float_lit 9 1);
    finding ASSUMPTION_BYPASS WARNING (float_lit 7 1) ].

End Observed.

Local Close Scope nat_scope.
Local Open Scope Z_scope.

(** * Properties of the impact assessor *)

Lemma accumulate_ok (acc : Sums) (d : Detection) :
  accumulate acc d = Ok (add_sums acc (contribution d)).
Proof.
  destruct d as [pt sv ln cs ds im rc cf].
  destruct pt, sv; reflexivity.
Qed.

Lemma for_detections_ok (ds : list Detection) (acc : Sums) :
  for_detections acc ds =
  Ok (fold_left (fun a d => add_sums a (contribution d)) ds acc).
Proof.
  revert acc; induction ds as [|d ds IH]; intros acc; simpl.
  - reflexivity.
  - rewrite accumulate_ok; simpl. apply IH.
Qed.





Lemma float_of_int_0 : float_of_int 0 = Ok fzero.
Proof. reflexivity. Qed.

(** [assess_impact] on a non-empty list, with the loop replaced by its
    closed form. *)
Lemma assess_impact_unfold (d : Detection) (ds : list Detection) :
  assess_impact (d :: ds) =
  (let sums := total_sums (d :: ds) in
   let n := Z.of_nat (List.length (d :: ds)) in
   p <- normalize (s_performance sums) n ;;
   s <- normalize (s_security sums) n ;;
   m <- normalize (s_maintainability sums) n ;;
   a <- int_mul_float p (float_lit 3 1) ;;
   b <- int_mul_float s (float_lit 4 1) ;;
   c <- int_mul_float m (float_lit 3 1) ;;
   t <- int_of_float (fadd (fadd a b) c) ;;
   Ok (mkImpactScore t p s m (round1 (s_debug_hours sums)) (risk_level_of t s))).
Proof.
  unfold assess_impact. rewrite float_of_int_0. cbn [bind].
  rewrite for_detections_ok. reflexivity.
Qed.

Lemma risk_level_of_rule (t s : Z) :
  risk_level_of t s = ScoringSpec.risk_rule t s.
Proof.
  unfold risk_level_of, ScoringSpec.risk_rule.
  repeat match goal with
         | |- context [Z_ge_dec ?a ?b] => destruct (Z_ge_dec a b)
         | |- context [?a <=? ?b] => destruct (Z.leb_spec a b)
         end; simpl; try reflexivity; lia.
Qed.

Ltac peel_bind H :=
  repeat match type of H with
         | bind ?c _ = Ok _ =>
             let E := fresh "E" in
             destruct c eqn:E; cbn [bind] in H; [|discriminate H]
         end.

(** C2: the risk level of a returned score is the first matching rule of
    the table CRITICAL / HIGH / MEDIUM / LOW applied to its [total_score]
    and [security_risk], and to nothing else. *)
Theorem risk_level_first_match (ds : list Detection) (r : ImpactScore) :
  assess_impact ds = Ok r ->
  risk_level r = ScoringSpec.risk_rule (total_score r) (security_risk r).
Proof.
  intros H. destruct ds as [|d ds].
  - inversion H; subst; reflexivity.
  - rewrite assess_impact_unfold in H. cbv zeta in H.
    peel_bind H. inversion H; subst; simpl.
    apply risk_level_of_rule.
Qed.

Lemma risk_level_first_match_witness :
  assess_impact order_sample =
    Ok (mkImpactScore 29 54 9 33 (float_lit 474 1) "LOW") /\
  risk_level (mkImpactScore 29 54 9 33 (float_lit 474 1) "LOW") =
    ScoringSpec.risk_rule 29 9.
Proof.
  split; [vm_compute; reflexivity|].
  apply (risk_level_first_match order_sample). vm_compute; reflexivity.
Defined.


(** C4: the empty list gets the zero score and the level LOW. *)
Theorem assess_impact_empty :
  assess_impact [] = Ok (mkImpactScore 0 0 0 0 (S754_zero false) "LOW").
Proof. reflexivity. Qed.

Lemma contribution_ext (a b : Detection) :
  same_scoring_fields a b -> contribution a = contribution b.
Proof.
  intros (Hp & Hs & Hc). unfold contribution. now rewrite Hp, Hs, Hc.
Qed.

Lemma fold_contribution_ext (ds1 ds2 : list Detection) :
  Forall2 same_scoring_fields ds1 ds2 ->
  forall acc,
    fold_left (fun a d => add_sums a (contribution d)) ds1 acc =
    fold_left (fun a d => add_sums a (contribution d)) ds2 acc.
Proof.
  induction 1 as [|a b l1 l2 Hab _ IH]; intros acc; simpl.
  - reflexivity.
  - rewrite (contribution_ext a b Hab). apply IH.
Qed.

(** C10: the score reads only the category, the severity and the
    confidence of each finding. *)
Theorem assess_impact_reads_three_fields (ds1 ds2 : list Detection) :
  Forall2 same_scoring_fields ds1 ds2 ->
  assess_impact ds1 = assess_impact ds2.
Proof.
  intros H. pose proof (Forall2_length H) as Hlen.
  destruct H as [|a b l1 l2 Hab Hl].
  - reflexivity.
  - rewrite !assess_impact_unfold. unfold total_sums.
    rewrite (fold_contribution_ext (a :: l1) (b :: l2)) by (constructor; assumption).
    rewrite Hlen. reflexivity.
Qed.

Lemma assess_impact_reads_three_fields_witness :
  assess_impact
    [mkDetection SECURITY_SHORTCUT CRITICAL 3 "eval(x)" "d" "i" "r" (float_lit 95 2)] =
  assess_impact
    [mkDetection SECURITY_SHORTCUT CRITICAL 40 "exec(y)" "" "" "" (float_lit 95 2)].
Proof.
  apply assess_impact_reads_three_fields.
  constructor; [|constructor]. repeat split.
Defined.

(** *** Order of the findings

    Float addition is commutative but not associative: exchanging the
    first two findings keeps every sum, a longer permutation need not. *)

Lemma fadd_comm (x y : float) : fadd x y = fadd y x.
Proof.
  unfold fadd.
  destruct x as [sx|sx| |sx mx ex], y as [sy|sy| |sy my ey];
    try reflexivity;
    try (destruct sx, sy; reflexivity).
  unfold SFadd. rewrite (Z.min_comm ey ex). f_equal. apply Z.add_comm.
Qed.

Lemma fadd_from_zero_swap (a b : float) :
  fadd (fadd fzero a) b = fadd (fadd fzero b) a.
Proof.
  destruct a as [sa|sa| |sa ma ea], b as [sb|sb| |sb mb eb];
    try reflexivity;
    try (destruct sa; reflexivity);
    try (destruct sb; reflexivity);
    try (destruct sa, sb; reflexivity).
  change (fadd fzero (S754_finite sa ma ea)) with (S754_finite sa ma ea).
  change (fadd fzero (S754_finite sb mb eb)) with (S754_finite sb mb eb).
  apply fadd_comm.
Qed.

Lemma add_sums_from_zero_swap (a b : Sums) :
  add_sums (add_sums sums0 a) b = add_sums (add_sums sums0 b) a.
Proof.
  unfold add_sums; simpl. f_equal; apply fadd_from_zero_swap.
Qed.

(** C5, as the code has it: exchanging the first two findings of a list
    leaves the whole [ImpactScore] unchanged. *)
Theorem assess_impact_swap_first_two (a b : Detection) (rest : list Detection) :
  assess_impact (a :: b :: rest) = assess_impact (b :: a :: rest).
Proof.
  rewrite !assess_impact_unfold. unfold total_sums. simpl fold_left.
  rewrite (add_sums_from_zero_swap (contribution a) (contribution b)).
  reflexivity.
Qed.

(** C5, as stated, fails: rotating three findings changes [security_risk]
    from 9 to 10 and [total_score] from 29 to 30. *)
Lemma assess_impact_order_counterexample :
  Permutation order_sample order_sample_rotated /\
  assess_impact order_sample =
    Ok (mkImpactScore 29 54 9 33 (float_lit 474 1) "LOW") /\
  assess_impact order_sample_rotated =
    Ok (mkImpactScore 30 54 10 33 (float_lit 474 1) "LOW") /\
  assess_impact order_sample <> assess_impact order_sample_rotated.
Proof.
  split; [|split; [|split]].
  - unfold order_sample, order_sample_rotated.
    apply Permutation_cons_append with (l := [_; _]).
  - vm_compute; reflexivity.
  - vm_compute; reflexivity.
  - vm_compute. discriminate.
Qed.

Local Close Scope nat_scope.
Local Open Scope Z_scope.

(** * Rounding is monotone

    The operations of [spec_float] on non-negative finite numbers are
    related to [rnd], and [rnd] is monotone. *)

Module FloatFacts.
Import FloatValue.

(** *** Binary digits *)

Lemma digits2_pos_size (p : positive) : digits2_pos p = Pos.size p.
Proof. induction p; simpl; congruence. Qed.

Lemma Zdigits2_log2 (z : Z) : 0 < z -> Zdigits2 z = Z.log2 z + 1.
Proof.
  destruct z as [|p|p]; try lia. intros _.
  simpl. rewrite digits2_pos_size.
  destruct p; simpl; lia.
Qed.

Lemma Zdigits2_nonneg (z : Z) : 0 <= Zdigits2 z.
Proof. destruct z; simpl; lia. Qed.

Lemma Zdigits2_bounds (z : Z) :
  0 < z -> 2 ^ (Zdigits2 z - 1) <= z < 2 ^ Zdigits2 z.
Proof.
  intros Hz. rewrite Zdigits2_log2 by assumption.
  replace (Z.log2 z + 1 - 1) with (Z.log2 z) by lia.
  apply Z.log2_spec. assumption.
Qed.

Lemma Zdigits2_unique (z d : Z) :
  2 ^ (d - 1) <= z < 2 ^ d -> 1 <= d -> Zdigits2 z = d.
Proof.
  intros H Hd.
  assert (0 < z) by (pose proof (Z.pow_pos_nonneg 2 (d - 1)); lia).
  rewrite Zdigits2_log2 by assumption.
  rewrite (Z.log2_unique z (d - 1)); try lia.
  replace (Z.succ (d - 1)) with d by lia. assumption.
Qed.

Lemma Zdigits2_mono (a b : Z) : 0 <= a <= b -> Zdigits2 a <= Zdigits2 b.
Proof.
  intros [Ha Hab].
  destruct (Z.eq_dec a 0) as [->|Hne]; [apply Zdigits2_nonneg|].
  rewrite !Zdigits2_log2 by lia.
  pose proof (Z.log2_le_mono a b Hab). lia.
Qed.

Lemma Zdigits2_mul_pow2 (m j : Z) :
  0 < m -> 0 <= j -> Zdigits2 (m * 2 ^ j) = Zdigits2 m + j.
Proof.
  intros Hm Hj.
  assert (0 < 2 ^ j) by (apply Z.pow_pos_nonneg; lia).
  rewrite !Zdigits2_log2 by nia.
  rewrite Z.log2_mul_pow2 by lia. lia.
Qed.

(** The digits of a quotient by a power of two. *)
Lemma Zdigits2_div_pow2 (a j : Z) :
  0 <= j -> 0 < a / 2 ^ j -> Zdigits2 a = Zdigits2 (a / 2 ^ j) + j.
Proof.
  intros Hj Hq.
  assert (Hp : 0 < 2 ^ j) by (apply Z.pow_pos_nonneg; lia).
  pose proof (Zdigits2_bounds _ Hq) as [Hlo Hhi].
  set (d := Zdigits2 (a / 2 ^ j)) in *.
  assert (Hd : 1 <= d).
  { destruct (Z_le_gt_dec 1 d) as [|Hgt]; [assumption|exfalso].
    assert (d <= 0) by lia.
    pose proof (Zdigits2_nonneg (a / 2 ^ j)). fold d in H0.
    replace d with 0 in Hhi by lia. simpl in Hhi. lia. }
  apply Zdigits2_unique; [|lia].
  pose proof (Z.div_mod a (2 ^ j) ltac:(lia)) as Ha.
  pose proof (Z.mod_pos_bound a (2 ^ j) Hp) as Hr.
  replace (d + j - 1) with (d - 1 + j) by lia.
  rewrite !Z.pow_add_r by lia. nia.
Qed.

(** *** Division with ties to even *)

Lemma div_half_even_bounds (a c : Z) :
  a / c <= div_half_even a c <= a / c + 1.
Proof.
  unfold div_half_even.
  destruct (2 * (a mod c) ?= c); [destruct (Z.even (a / c))|..]; lia.
Qed.

Lemma div_half_even_exact (k c : Z) : 0 < c -> div_half_even (k * c) c = k.
Proof.
  intros Hc. unfold div_half_even.
  rewrite Z.mod_mul, Z.div_mul by lia.
  destruct (Z.compare_spec (2 * 0) c); try lia.
Qed.

Lemma div_half_even_mono (a1 a2 c : Z) :
  0 < c -> a1 <= a2 -> div_half_even a1 c <= div_half_even a2 c.
Proof.
  intros Hc Ha.
  pose proof (Z.div_le_mono a1 a2 c Hc Ha) as Hq.
  destruct (Z.eq_dec (a1 / c) (a2 / c)) as [Heq|Hne].
  - pose proof (Z.div_mod a1 c ltac:(lia)) as H1.
    pose proof (Z.div_mod a2 c ltac:(lia)) as H2.
    assert (Hr : a1 mod c <= a2 mod c) by (rewrite Heq in H1; nia).
    unfold div_half_even. rewrite Heq.
    destruct (Z.compare_spec (2 * (a1 mod c)) c);
      destruct (Z.compare_spec (2 * (a2 mod c)) c);
      try lia; destruct (Z.even (a2 / c)); lia.
  - pose proof (div_half_even_bounds a1 c).
    pose proof (div_half_even_bounds a2 c). lia.
Qed.

Lemma div_half_even_nonneg (a c : Z) : 0 < c -> 0 <= a -> 0 <= div_half_even a c.
Proof.
  intros Hc Ha. pose proof (div_half_even_bounds a c).
  pose proof (Z.div_pos a c Ha Hc). lia.
Qed.

(** *** The rounding function *)

Lemma expo_ge_Emin (b a : Z) : Emin <= expo b a.
Proof. unfold expo. lia. Qed.

Lemma expo_mono (b a1 a2 : Z) :
  0 < b -> 0 <= a1 <= a2 -> expo b a1 <= expo b a2.
Proof.
  intros Hb [H1 H2]. unfold expo.
  assert (Zdigits2 (a1 / b) <= Zdigits2 (a2 / b)).
  { apply Zdigits2_mono. split; [apply Z.div_pos; lia|].
    apply Z.div_le_mono; lia. }
  lia.
Qed.

Lemma below_digits (b a : Z) :
  0 < b -> 0 <= a -> a < b * 2 ^ Zdigits2 (a / b).
Proof.
  intros Hb Ha.
  assert (Hq : 0 <= a / b) by (apply Z.div_pos; lia).
  assert (Hlt : a / b < 2 ^ Zdigits2 (a / b)).
  { destruct (Z.eq_dec (a / b) 0) as [->|Hne]; [simpl; lia|].
    apply Zdigits2_bounds. lia. }
  pose proof (Z.div_mod a b ltac:(lia)) as Hdm.
  pose proof (Z.mod_pos_bound a b Hb). nia.
Qed.

Lemma above_digits (b a : Z) :
  0 < b -> 0 < a / b -> b * 2 ^ (Zdigits2 (a / b) - 1) <= a.
Proof.
  intros Hb Hq.
  pose proof (Zdigits2_bounds _ Hq) as [Hlo _].
  pose proof (Z.div_mod a b ltac:(lia)) as Hdm.
  pose proof (Z.mod_pos_bound a b Hb). nia.
Qed.

Lemma rnd_nonneg (b a : Z) : 0 < b -> 0 <= a -> 0 <= rnd b a.
Proof.
  intros Hb Ha. unfold rnd.
  assert (0 < 2 ^ expo b a)
    by (apply Z.pow_pos_nonneg; [lia|pose proof (expo_ge_Emin b a); unfold Emin in *; lia]).
  apply Z.mul_nonneg_nonneg; [|lia].
  apply div_half_even_nonneg; [nia|assumption].
Qed.

(** Rounding at a fixed exponent never passes a multiple of the step. *)
Lemma rnd_le_multiple (b a j : Z) :
  0 < b -> 0 <= a -> expo b a <= j -> a <= b * 2 ^ j -> rnd b a <= 2 ^ j.
Proof.
  intros Hb Ha HE Hle. unfold rnd.
  set (E := expo b a) in *.
  assert (HEmin : 0 <= E) by (pose proof (expo_ge_Emin b a); unfold Emin in *; lia).
  assert (HpE : 0 < 2 ^ E) by (apply Z.pow_pos_nonneg; lia).
  assert (Hsplit : 2 ^ j = 2 ^ (j - E) * 2 ^ E)
    by (rewrite <- Z.pow_add_r by lia; f_equal; lia).
  assert (Hd : div_half_even a (b * 2 ^ E) <= 2 ^ (j - E)).
  { rewrite <- (div_half_even_exact (2 ^ (j - E)) (b * 2 ^ E)) by nia.
    apply div_half_even_mono; [nia|]. rewrite Hsplit in Hle. nia. }
  rewrite Hsplit. nia.
Qed.

Lemma rnd_ge_multiple (b a j : Z) :
  0 < b -> expo b a <= j -> b * 2 ^ j <= a -> 2 ^ j <= rnd b a.
Proof.
  intros Hb HE Hle. unfold rnd.
  set (E := expo b a) in *.
  assert (HEmin : 0 <= E) by (pose proof (expo_ge_Emin b a); unfold Emin in *; lia).
  assert (HpE : 0 < 2 ^ E) by (apply Z.pow_pos_nonneg; lia).
  assert (Hsplit : 2 ^ j = 2 ^ (j - E) * 2 ^ E)
    by (rewrite <- Z.pow_add_r by lia; f_equal; lia).
  assert (Hd : 2 ^ (j - E) <= div_half_even a (b * 2 ^ E)).
  { rewrite <- (div_half_even_exact (2 ^ (j - E)) (b * 2 ^ E)) at 1 by nia.
    apply div_half_even_mono; [nia|]. rewrite Hsplit in Hle. nia. }
  rewrite Hsplit. nia.
Qed.

Theorem rnd_mono (b a1 a2 : Z) :
  0 < b -> 0 <= a1 <= a2 -> rnd b a1 <= rnd b a2.
Proof.
  intros Hb [H1 H2].
  pose proof (expo_mono b a1 a2 Hb (conj H1 H2)) as HE.
  destruct (Z.eq_dec (expo b a1) (expo b a2)) as [Heq|Hne].
  - unfold rnd. rewrite Heq.
    assert (0 < 2 ^ expo b a2)
      by (apply Z.pow_pos_nonneg; [lia|pose proof (expo_ge_Emin b a2); unfold Emin in *; lia]).
    apply Z.mul_le_mono_nonneg_r; [lia|].
    apply div_half_even_mono; [nia|lia].
  - assert (Hlt : expo b a1 < expo b a2) by lia.
    pose proof (expo_ge_Emin b a1) as Hmin1.
    assert (Hd2 : expo b a2 = Zdigits2 (a2 / b) - 53) by (unfold expo in *; lia).
    assert (Hq2 : 0 < a2 / b).
    { assert (0 <= a2 / b) by (apply Z.div_pos; lia).
      destruct (Z.eq_dec (a2 / b) 0) as [Hz|]; [|lia].
      rewrite Hz in Hd2. simpl in Hd2. unfold Emin in *. lia. }
    set (j := expo b a2 + 52).
    apply Z.le_trans with (2 ^ j).
    + apply rnd_le_multiple; try lia.
      pose proof (below_digits b a1 Hb H1) as Hbelow.
      assert (Zdigits2 (a1 / b) <= j) by (unfold expo in Hlt; unfold j; lia).
      assert (2 ^ Zdigits2 (a1 / b) <= 2 ^ j)
        by (apply Z.pow_le_mono_r; [lia|assumption]).
      nia.
    + apply rnd_ge_multiple; try (unfold j; lia).
      pose proof (above_digits b a2 Hb Hq2) as Habove.
      replace j with (Zdigits2 (a2 / b) - 1) by (unfold j; lia).
      exact Habove.
Qed.

(** A number that fits the format is its own rounding. *)
Lemma rnd_representable (b m j : Z) :
  0 < b -> 0 < m -> Zdigits2 m <= 53 -> Emin <= j ->
  rnd b (m * 2 ^ j * b) = m * 2 ^ j.
Proof.
  intros Hb Hm Hd Hj. unfold rnd.
  set (E := expo b (m * 2 ^ j * b)).
  assert (HE : Emin <= E <= j).
  { unfold E, expo. rewrite Z.div_mul, Zdigits2_mul_pow2 by (unfold Emin in *; lia). lia. }
  assert (HpE : 0 < 2 ^ E) by (apply Z.pow_pos_nonneg; unfold Emin in *; lia).
  assert (Hsplit : 2 ^ j = 2 ^ (j - E) * 2 ^ E)
    by (rewrite <- Z.pow_add_r by (unfold Emin in *; lia); f_equal; lia).
  rewrite Hsplit at 1.
  replace (m * (2 ^ (j - E) * 2 ^ E) * b) with (m * 2 ^ (j - E) * (b * 2 ^ E)) by ring.
  rewrite div_half_even_exact by nia.
  rewrite Hsplit. ring.
Qed.

(** *** The shift-right records of the rounding code *)

Lemma loc_round_trip (m : Z) (l : location) :
  loc_of_shr_record (shr_record_of_loc m l) = l.
Proof. destruct l as [|[| |]]; reflexivity. Qed.

Lemma shr_m_of_loc (m : Z) (l : location) : shr_m (shr_record_of_loc m l) = m.
Proof. destruct l as [|[| |]]; reflexivity. Qed.

Lemma shr_1_represents (a c : Z) (mrs : shr_record) :
  0 < c -> 0 <= a -> represents a c mrs -> represents a (2 * c) (shr_1 mrs).
Proof.
  intros Hc Ha [Hm Hl].
  destruct mrs as [m r s]. cbn [shr_m] in Hm.
  pose proof (Z.div_mod a c ltac:(lia)) as Hdm.
  pose proof (Z.mod_pos_bound a c Hc) as Hr.
  pose proof (Z.div_pos a c Ha Hc) as Hq.
  set (q := a / c) in *. set (rho := a mod c) in *.
  assert (Hsplit : forall m' bit, q = 2 * m' + bit -> 0 <= bit <= 1 ->
            a / (2 * c) = m' /\ a mod (2 * c) = bit * c + rho).
  { intros m' bit Hq' Hbit.
    apply Z.div_mod_unique with (2 * c).
    - left. apply Z.mod_pos_bound. lia.
    - left. nia.
    - rewrite <- Z.div_mod by lia. nia. }
  assert (Hloc : (r = false /\ s = false /\ rho = 0) \/
                 (r = false /\ s = true /\ rho <> 0 /\ 2 * rho < c) \/
                 (r = true /\ s = false /\ rho <> 0 /\ 2 * rho = c) \/
                 (r = true /\ s = true /\ rho <> 0 /\ 2 * rho > c)).
  { unfold loc_of in Hl. cbn [loc_of_shr_record] in Hl.
    destruct (Z.eqb_spec rho 0) as [H0|H0];
      destruct (Z.compare_spec (2 * rho) c); destruct r, s;
      try discriminate Hl; lia. }
  unfold represents, loc_of.
  destruct m as [|p|p]; [| |lia].
  - destruct (Hsplit 0 0 ltac:(lia) ltac:(lia)) as [Hd' Hm'].
    cbn [shr_1 shr_m loc_of_shr_record]. rewrite Hd', Hm'.
    split; [reflexivity|].
    destruct Hloc as [(->&->&H0)|[(->&->&H0&H1)|[(->&->&H0&H1)|(->&->&H0&H1)]]];
      cbn [orb];
      destruct (Z.eqb_spec (0 * c + rho) 0); try lia;
      destruct (Z.compare_spec (2 * (0 * c + rho)) (2 * c)); try lia; reflexivity.
  - destruct p as [p|p|].
    + destruct (Hsplit (Zpos p) 1 ltac:(lia) ltac:(lia)) as [Hd' Hm'].
      cbn [shr_1 shr_m loc_of_shr_record]. rewrite Hd', Hm'.
      split; [reflexivity|].
      destruct Hloc as [(->&->&H0)|[(->&->&H0&H1)|[(->&->&H0&H1)|(->&->&H0&H1)]]];
        cbn [orb];
        destruct (Z.eqb_spec (1 * c + rho) 0); try lia;
        destruct (Z.compare_spec (2 * (1 * c + rho)) (2 * c)); try lia; reflexivity.
    + destruct (Hsplit (Zpos p) 0 ltac:(lia) ltac:(lia)) as [Hd' Hm'].
      cbn [shr_1 shr_m loc_of_shr_record]. rewrite Hd', Hm'.
      split; [reflexivity|].
      destruct Hloc as [(->&->&H0)|[(->&->&H0&H1)|[(->&->&H0&H1)|(->&->&H0&H1)]]];
        cbn [orb];
        destruct (Z.eqb_spec (0 * c + rho) 0); try lia;
        destruct (Z.compare_spec (2 * (0 * c + rho)) (2 * c)); try lia; reflexivity.
    + destruct (Hsplit 0 1 ltac:(lia) ltac:(lia)) as [Hd' Hm'].
      cbn [shr_1 shr_m loc_of_shr_record]. rewrite Hd', Hm'.
      split; [reflexivity|].
      destruct Hloc as [(->&->&H0)|[(->&->&H0&H1)|[(->&->&H0&H1)|(->&->&H0&H1)]]];
        cbn [orb];
        destruct (Z.eqb_spec (1 * c + rho) 0); try lia;
        destruct (Z.compare_spec (2 * (1 * c + rho)) (2 * c)); try lia; reflexivity.
Qed.

Lemma iter_pos_represents (p : positive) :
  forall (a c : Z) (mrs : shr_record),
    0 < c -> 0 <= a -> represents a c mrs ->
    represents a (c * 2 ^ Zpos p) (iter_pos shr_1 p mrs).
Proof.
  induction p as [p IH|p IH|]; intros a c mrs Hc Ha H; cbn [iter_pos].
  - assert (Hp : 0 < 2 ^ Zpos p) by (apply Z.pow_pos_nonneg; lia).
    replace (c * 2 ^ Zpos p~1) with (2 * c * 2 ^ Zpos p * 2 ^ Zpos p).
    + apply IH; [nia|lia|]. apply IH; [lia|lia|].
      now apply shr_1_represents.
    + assert (Hx : Z.pos p~1 = 1 + Z.pos p + Z.pos p) by lia.
      rewrite Hx, !Z.pow_add_r by lia. rewrite Z.pow_1_r. ring.
  - assert (Hp : 0 < 2 ^ Zpos p) by (apply Z.pow_pos_nonneg; lia).
    replace (c * 2 ^ Zpos p~0) with (c * 2 ^ Zpos p * 2 ^ Zpos p).
    + apply IH; [nia|lia|]. now apply IH.
    + assert (Hx : Z.pos p~0 = Z.pos p + Z.pos p) by lia.
      rewrite Hx, !Z.pow_add_r by lia. ring.
  - replace (c * 2 ^ 1) with (2 * c) by (rewrite Z.pow_1_r; ring).
    now apply shr_1_represents.
Qed.

Lemma shr_represents (a c e n : Z) (mrs : shr_record) :
  0 < c -> 0 <= a -> represents a c mrs ->
  represents a (c * 2 ^ Z.max n 0) (fst (shr mrs e n)) /\
  snd (shr mrs e n) = e + Z.max n 0.
Proof.
  intros Hc Ha H. unfold shr. destruct n as [|p|p]; cbn [fst snd].
  - rewrite Z.max_id, Z.pow_0_r, Z.mul_1_r, Z.add_0_r. now split.
  - rewrite Z.max_l by lia. split; [|reflexivity].
    now apply iter_pos_represents.
  - rewrite Z.max_r by lia. rewrite Z.pow_0_r, Z.mul_1_r, Z.add_0_r. now split.
Qed.

Lemma round_nearest_even_div (a c : Z) :
  0 < c ->
  round_nearest_even (a / c) (loc_of (a mod c) c) = div_half_even a c.
Proof.
  intros Hc. unfold loc_of, div_half_even.
  destruct (Z.eqb_spec (a mod c) 0) as [H0|H0].
  - rewrite H0. cbn [round_nearest_even].
    destruct (Z.compare_spec (2 * 0) c); try lia; reflexivity.
  - cbn [round_nearest_even].
    destruct (2 * (a mod c) ?= c); reflexivity.
Qed.

(** *** The value of [binary_round_aux] *)

Lemma fexp_scaled (x : Z) : fexp prec emax x + K = Z.max (x + K - 53) Emin.
Proof. unfold fexp, SpecFloat.emin, prec, emax, K, Emin. lia. Qed.

Lemma shr_noop (mrs : shr_record) (e n : Z) : n <= 0 -> shr mrs e n = (mrs, e).
Proof. destruct n; [reflexivity|lia|reflexivity]. Qed.

Lemma binary_round_aux_finish (m e : Z) (l : location) :
  binary_round_aux prec emax false m e l =
  finish (round_nearest_even (shr_m (fst (shr_fexp prec emax m e l)))
            (loc_of_shr_record (fst (shr_fexp prec emax m e l))))
         (snd (shr_fexp prec emax m e l)).
Proof.
  unfold binary_round_aux, finish.
  destruct (shr_fexp prec emax m e l) as [mrs e1]. reflexivity.
Qed.

Lemma digits_below_pow2 (m k : Z) : 0 < m -> m < 2 ^ k -> 0 <= k -> Zdigits2 m <= k.
Proof.
  intros Hm Hlt Hk. pose proof (Zdigits2_bounds m Hm) as [Hlo _].
  destruct (Z_le_gt_dec (Zdigits2 m) k) as [|Hgt]; [assumption|exfalso].
  assert (2 ^ k <= 2 ^ (Zdigits2 m - 1)) by (apply Z.pow_le_mono_r; lia).
  lia.
Qed.

Lemma finish_value (m2 e1 : Z) :
  0 <= m2 <= 2 ^ 53 -> -1074 <= e1 <= 970 ->
  nonneg (finish m2 e1) /\ val (finish m2 e1) = m2 * 2 ^ (e1 + K).
Proof.
  intros [Hm0 Hm1] [He0 He1].
  assert (Hcases : m2 = 0 \/ 0 < m2 < 2 ^ 53 \/ m2 = 2 ^ 53) by lia.
  destruct Hcases as [-> | [[Hlo Hhi] | ->]].
  - unfold finish, shr_fexp. rewrite shr_noop.
    + cbn. split; [exact I|reflexivity].
    + cbn [Zdigits2]. unfold fexp, SpecFloat.emin, prec, emax. lia.
  - pose proof (digits_below_pow2 m2 53 Hlo Hhi ltac:(lia)) as Hd.
    unfold finish, shr_fexp. rewrite shr_noop.
    + cbn [shr_record_of_loc shr_m].
      destruct m2 as [|p|p]; try lia.
      replace (e1 <=? emax - prec) with true
        by (symmetry; apply Z.leb_le; unfold emax, prec; lia).
      split; [cbn; lia|reflexivity].
    + unfold fexp, SpecFloat.emin, prec, emax. lia.
  - unfold finish, shr_fexp.
    replace (fexp prec emax (Zdigits2 (2 ^ 53) + e1) - e1) with 1.
    + cbn [shr shr_record_of_loc]. cbn [iter_pos].
      change (shr_1 {| shr_m := 2 ^ 53; shr_r := false; shr_s := false |})
        with {| shr_m := 2 ^ 52; shr_r := false; shr_s := false |}.
      cbn [shr_m]. change (2 ^ 52) with (Zpos (2 ^ 52)).
      replace (e1 + 1 <=? emax - prec) with true
        by (symmetry; apply Z.leb_le; unfold emax, prec; lia).
      split; [cbn; lia|].
      cbn [val]. change (Zpos (2 ^ 52)) with (2 ^ 52).
      replace (e1 + 1 + K) with (1 + (e1 + K)) by lia.
      rewrite Z.pow_add_r by (unfold K; lia).
      change (2 ^ 53) with (2 ^ 52 * 2 ^ 1). ring.
    + change (Zdigits2 (2 ^ 53)) with 54.
      unfold fexp, SpecFloat.emin, prec, emax. lia.
Qed.

Theorem round_aux_value (b a m e : Z) (l : location) :
  0 < b -> 0 <= a -> 0 < m \/ e <= -1074 -> 0 <= e + K ->
  m = a / (b * 2 ^ (e + K)) ->
  l = loc_of (a mod (b * 2 ^ (e + K))) (b * 2 ^ (e + K)) ->
  e <= fexp prec emax (Zdigits2 m + e) \/ (l = loc_Exact /\ e <= 970) ->
  a < b * 2 ^ (K + 1023) ->
  nonneg (binary_round_aux prec emax false m e l) /\
  val (binary_round_aux prec emax false m e l) = rnd b a.
Proof.
  intros Hb Ha Hm HeK Hmq Hl Hshift Hover.
  set (u := 2 ^ (e + K)) in *.
  assert (Hu : 0 < u) by (apply Z.pow_pos_nonneg; lia).
  set (c0 := b * u) in *.
  assert (Hc0 : 0 < c0) by (unfold c0; nia).
  assert (Hm0 : 0 <= m) by (rewrite Hmq; apply Z.div_pos; lia).
  assert (Hrep0 : represents a c0 (shr_record_of_loc m l)).
  { split; [rewrite shr_m_of_loc; exact Hmq|rewrite loc_round_trip; exact Hl]. }
  assert (Hq : a / b / u = m) by (rewrite Z.div_div by lia; symmetry; exact Hmq).
  assert (Hqb : 0 <= a / b) by (apply Z.div_pos; lia).
  assert (HE : expo b a = fexp prec emax (Zdigits2 m + e) + K).
  { rewrite fexp_scaled. unfold expo.
    destruct (Z.eq_dec m 0) as [Hz|Hnz].
    - (* the quotient is below the last place *)
      assert (Hle : e <= -1074) by lia.
      rewrite Hz. cbn [Zdigits2].
      assert (Hsmall : a / b < u).
      { apply Z.div_lt_upper_bound; [lia|].
        assert (a / c0 = 0) by lia.
        apply Z.div_small_iff in H; [|lia]. unfold c0 in H. lia. }
      assert (Zdigits2 (a / b) <= e + K).
      { destruct (Z.eq_dec (a / b) 0) as [H0|H0]; [rewrite H0; cbn; lia|].
        apply digits_below_pow2; [lia|exact Hsmall|lia]. }
      unfold Emin, K in *. lia.
    - assert (Hdig : Zdigits2 (a / b) = Zdigits2 m + (e + K)).
      { rewrite <- Hq. apply Zdigits2_div_pow2; [lia|]. fold u. rewrite Hq. lia. }
      rewrite Hdig. f_equal. lia. }
  assert (Hdmax : Zdigits2 (a / b) <= K + 1023).
  { destruct (Z.eq_dec (a / b) 0) as [H0|H0]; [rewrite H0; cbn; unfold K; lia|].
    apply digits_below_pow2; [lia| |unfold K; lia].
    apply Z.div_lt_upper_bound; lia. }
  rewrite binary_round_aux_finish.
  destruct (Z_le_gt_dec e (fexp prec emax (Zdigits2 m + e))) as [Hle|Hgt].
  - (* the input is shifted to the exponent of its binade *)
    unfold shr_fexp.
    set (n1 := fexp prec emax (Zdigits2 m + e) - e) in *.
    destruct (shr_represents a c0 e n1 _ Hc0 Ha Hrep0) as [[Hm1 Hl1] He1].
    rewrite Z.max_l in Hm1, Hl1, He1 by (unfold n1; lia).
    assert (Hc1 : c0 * 2 ^ n1 = b * 2 ^ expo b a).
    { unfold c0, u. rewrite <- Z.mul_assoc, <- Z.pow_add_r by (unfold n1; lia).
      do 2 f_equal. rewrite HE. unfold n1. lia. }
    rewrite Hc1 in Hm1, Hl1. rewrite Hm1, Hl1, He1.
    assert (HpE : 0 < 2 ^ expo b a)
      by (apply Z.pow_pos_nonneg; [lia|pose proof (expo_ge_Emin b a); unfold Emin in *; lia]).
    rewrite round_nearest_even_div by nia.
    assert (He1r : e + n1 = expo b a - K) by (rewrite HE; unfold n1; lia).
    rewrite He1r.
    assert (Hm2 : 0 <= div_half_even a (b * 2 ^ expo b a) <= 2 ^ 53).
    { split; [apply div_half_even_nonneg; nia|].
      pose proof (div_half_even_bounds a (b * 2 ^ expo b a)) as [_ Hup].
      assert (a / (b * 2 ^ expo b a) < 2 ^ 53); [|lia].
      apply Z.div_lt_upper_bound; [nia|].
      pose proof (below_digits b a Hb Ha) as Hbelow.
      assert (Hdle : Zdigits2 (a / b) <= expo b a + 53) by (unfold expo; lia).
      assert (2 ^ Zdigits2 (a / b) <= 2 ^ (expo b a + 53))
        by (apply Z.pow_le_mono_r; [lia|exact Hdle]).
      rewrite Z.pow_add_r in H by (pose proof (expo_ge_Emin b a); unfold Emin in *; lia).
      nia. }
    assert (He1b : -1074 <= expo b a - K <= 970).
    { pose proof (expo_ge_Emin b a). unfold expo, Emin, K in *. lia. }
    destruct (finish_value _ _ Hm2 He1b) as [Hn Hv].
    split; [exact Hn|]. rewrite Hv. unfold rnd.
    replace (expo b a - K + K) with (expo b a) by lia. reflexivity.
  - (* an exact input with few digits is kept as it is *)
    destruct Hshift as [Hs|[Hex He970]]; [lia|].
    unfold shr_fexp. rewrite shr_noop by lia.
    cbn [fst snd]. rewrite shr_m_of_loc, loc_round_trip, Hex.
    cbn [round_nearest_even].
    assert (Hdm : Zdigits2 m < 53)
      by (unfold fexp, SpecFloat.emin, prec, emax in Hgt; lia).
    assert (Hem : -1074 < e) by (unfold fexp, SpecFloat.emin, prec, emax in Hgt; lia).
    assert (Hmpos : 0 < m) by lia.
    assert (Hmb : 0 <= m <= 2 ^ 53).
    { pose proof (Zdigits2_bounds m Hmpos) as [_ Hhi].
      assert (2 ^ Zdigits2 m <= 2 ^ 53) by (apply Z.pow_le_mono_r; lia). lia. }
    destruct (finish_value m e Hmb ltac:(lia)) as [Hn Hv].
    split; [exact Hn|]. rewrite Hv.
    assert (Hr0 : a mod c0 = 0).
    { rewrite Hex in Hl. unfold loc_of in Hl.
      destruct (Z.eqb_spec (a mod c0) 0); [assumption|discriminate Hl]. }
    assert (Haeq : a = m * u * b).
    { pose proof (Z.div_mod a c0 ltac:(lia)) as Hdm'.
      rewrite Hr0, <- Hmq in Hdm'. unfold c0 in Hdm'. lia. }
    rewrite Haeq. unfold u. symmetry.
    apply rnd_representable; unfold Emin, K in *; lia.
Qed.

(** *** Scaling *)

Lemma rnd_0 (b : Z) : 0 < b -> rnd b 0 = 0.
Proof.
  intros Hb. unfold rnd, div_half_even.
  assert (0 < 2 ^ expo b 0)
    by (apply Z.pow_pos_nonneg; [lia|pose proof (expo_ge_Emin b 0); unfold Emin in *; lia]).
  assert (Hp : 0 < b * 2 ^ expo b 0) by nia.
  rewrite Z.div_0_l, Z.mod_0_l by lia.
  destruct (Z.compare_spec (2 * 0) (b * 2 ^ expo b 0)); lia.
Qed.

Lemma compare_scale (x y k : Z) : 0 < k -> (x * k ?= y * k) = (x ?= y).
Proof.
  intros Hk. destruct (Z.compare_spec x y) as [->|Hlt|Hgt].
  - apply Z.compare_refl.
  - apply Z.compare_lt_iff. nia.
  - apply Z.compare_gt_iff. nia.
Qed.

Lemma div_half_even_scale (a c k : Z) :
  0 < c -> 0 < k -> div_half_even (a * k) (c * k) = div_half_even a c.
Proof.
  intros Hc Hk. unfold div_half_even.
  rewrite Z.div_mul_cancel_r, Z.mul_mod_distr_r by lia.
  replace (2 * (a mod c * k)) with (2 * (a mod c) * k) by ring.
  rewrite compare_scale by lia. reflexivity.
Qed.

Lemma rnd_scale (b a k : Z) :
  0 < b -> 0 < k -> rnd (b * k) (a * k) = rnd b a.
Proof.
  intros Hb Hk. unfold rnd, expo.
  rewrite Z.div_mul_cancel_r by lia.
  set (E := Z.max (Zdigits2 (a / b) - 53) Emin).
  replace (b * k * 2 ^ E) with (b * 2 ^ E * k) by ring.
  assert (0 < 2 ^ E) by (apply Z.pow_pos_nonneg; unfold E, Emin; lia).
  rewrite div_half_even_scale by nia. reflexivity.
Qed.

Lemma loc_of_scale (r c k : Z) : 0 < k -> loc_of (r * k) (c * k) = loc_of r c.
Proof.
  intros Hk. unfold loc_of.
  replace (2 * (r * k)) with (2 * r * k) by ring.
  rewrite compare_scale by lia.
  destruct (Z.eqb_spec r 0) as [->|Hr].
  - reflexivity.
  - destruct (Z.eqb_spec (r * k) 0); [nia|reflexivity].
Qed.

(** *** Alignment *)

Lemma iter_xO_value (m d : positive) :
  Zpos (Pos.iter xO m d) = Zpos m * 2 ^ Zpos d.
Proof.
  induction d as [|d IH] using Pos.peano_ind.
  - cbn [Pos.iter]. rewrite Z.pow_1_r. lia.
  - rewrite Pos.iter_succ.
    change (Zpos (Pos.iter xO m d)~0) with (2 * Zpos (Pos.iter xO m d)).
    rewrite IH, Pos2Z.inj_succ, Z.pow_succ_r by lia.
    ring.
Qed.

Lemma shl_align_value (mx : positive) (ex ex' : Z) :
  snd (shl_align mx ex ex') = Z.min ex ex' /\
  Zpos (fst (shl_align mx ex ex')) = Zpos mx * 2 ^ (ex - Z.min ex ex').
Proof.
  unfold shl_align. destruct (ex' - ex) as [|d|d] eqn:Ed; cbn [fst snd].
  - rewrite Z.min_l by lia. rewrite Z.sub_diag, Z.pow_0_r. lia.
  - rewrite Z.min_l by lia. rewrite Z.sub_diag, Z.pow_0_r. lia.
  - rewrite Z.min_r by lia. split; [reflexivity|].
    rewrite iter_xO_value. f_equal. f_equal. lia.
Qed.

(** The value of a rounded exact number, as [binary_round] computes it. *)
Lemma binary_round_value (m : positive) (e : Z) :
  -1074 <= e ->
  Zpos m * 2 ^ (e + K) < 2 ^ (K + 1023) ->
  nonneg (binary_round prec emax false m e) /\
  val (binary_round prec emax false m e) = rnd 1 (Zpos m * 2 ^ (e + K)).
Proof.
  intros He Hover. unfold binary_round.
  set (fe := fexp prec emax (Zpos (digits2_pos m) + e)).
  destruct (shl_align_value m e fe) as [Hsnd Hfst].
  destruct (shl_align m e fe) as [mz ez]. cbn [fst snd] in Hsnd, Hfst.
  assert (Hfe : -1074 <= fe) by (unfold fe, fexp, SpecFloat.emin, prec, emax; lia).
  assert (Hez : -1074 <= ez <= e) by lia.
  assert (Heq : Zpos m * 2 ^ (e + K) = Zpos mz * 2 ^ (ez + K)).
  { rewrite Hfst, <- Hsnd, <- Z.mul_assoc, <- Z.pow_add_r by (unfold K; lia).
    do 2 f_equal. lia. }
  assert (Hu : 0 < 2 ^ (ez + K)) by (apply Z.pow_pos_nonneg; unfold K; lia).
  apply round_aux_value.
  - lia.
  - lia.
  - left; lia.
  - unfold K; lia.
  - rewrite Heq, Z.mul_1_l, Z.div_mul by lia. reflexivity.
  - rewrite Heq, Z.mul_1_l, Z.mod_mul by lia. reflexivity.
  - left.
    assert (Hd : Zdigits2 (Zpos mz) + ez = Zpos (digits2_pos m) + e).
    { rewrite Hfst, Zdigits2_mul_pow2 by lia. cbn [Zdigits2]. lia. }
    rewrite Hd. fold fe. lia.
  - lia.
Qed.

(** *** The operations on non-negative numbers *)

Lemma val_nonneg (f : float) : 0 <= val f.
Proof.
  destruct f as [s|s| |s m e]; cbn [val]; try lia.
  destruct s; [lia|]. pose proof (Z.pow_nonneg 2 (e + K) ltac:(lia)). nia.
Qed.

Lemma val_representable (f : float) : nonneg f -> rnd 1 (val f) = val f.
Proof.
  destruct f as [s|s| |s m e]; cbn [nonneg val]; try contradiction.
  - intros _. apply rnd_0. lia.
  - destruct s; [contradiction|]. intros [He Hm].
    rewrite <- (Z.mul_1_r (Zpos m * 2 ^ (e + K))) at 1.
    apply rnd_representable; try lia.
    + apply digits_below_pow2; lia.
    + unfold Emin, K. lia.
Qed.

Lemma fadd_value (x y : float) :
  nonneg x -> nonneg y -> val x + val y < 2 ^ (K + 1023) ->
  nonneg (fadd x y) /\ val (fadd x y) = rnd 1 (val x + val y).
Proof.
  intros Hx Hy Hover.
  destruct x as [sx|sx| |sx mx ex]; try contradiction;
    destruct y as [sy|sy| |sy my ey]; try contradiction.
  - split; [destruct sx, sy; exact I|].
    rewrite rnd_0 by lia. destruct sx, sy; reflexivity.
  - change (val (S754_zero sx)) with 0.
    rewrite Z.add_0_l, val_representable by exact Hy.
    split; [exact Hy|reflexivity].
  - change (val (S754_zero sy)) with 0.
    rewrite Z.add_0_r, val_representable by exact Hx.
    split; [exact Hx|reflexivity].
  - destruct sx; [contradiction|]. destruct sy; [contradiction|].
    destruct Hx as [Hex Hmx], Hy as [Hey Hmy].
    unfold fadd, SFadd. cbn [cond_Zopp].
    destruct (shl_align_value mx ex (Z.min ex ey)) as [_ Hax].
    destruct (shl_align_value my ey (Z.min ex ey)) as [_ Hay].
    replace (Z.min ex (Z.min ex ey)) with (Z.min ex ey) in Hax by lia.
    replace (Z.min ey (Z.min ex ey)) with (Z.min ex ey) in Hay by lia.
    set (ax := fst (shl_align mx ex (Z.min ex ey))) in *.
    set (ay := fst (shl_align my ey (Z.min ex ey))) in *.
    change (Zpos ax + Zpos ay) with (Zpos (ax + ay)).
    cbn [binary_normalize].
    assert (Hsum : Zpos (ax + ay) * 2 ^ (Z.min ex ey + K) =
                   val (S754_finite false mx ex) + val (S754_finite false my ey)).
    { cbn [val]. rewrite Pos2Z.inj_add, Hax, Hay.
      rewrite Z.mul_add_distr_r, <- !Z.mul_assoc, <- !Z.pow_add_r by (unfold K; lia).
      do 2 f_equal; f_equal; lia. }
    rewrite <- Hsum in *.
    apply binary_round_value; [lia|exact Hover].
Qed.

Lemma exponent_below (m : positive) (e k : Z) :
  Zpos m * 2 ^ (e + K) < 2 ^ (K + k) -> 0 <= e + K -> e < k.
Proof.
  intros H He.
  destruct (Z_lt_le_dec e k) as [|Hle]; [assumption|exfalso].
  assert (2 ^ (K + k) <= 2 ^ (e + K)) by (apply Z.pow_le_mono_r; lia).
  assert (0 < 2 ^ (e + K)) by (apply Z.pow_pos_nonneg; lia).
  nia.
Qed.

Lemma fmul_value (x y : float) :
  nonneg x -> nonneg y ->
  val x < 2 ^ (K + 400) -> val y < 2 ^ (K + 400) ->
  nonneg (fmul x y) /\ val (fmul x y) = rnd 1 (val x * val y / 2 ^ K).
Proof.
  intros Hx Hy Hbx Hby.
  destruct x as [sx|sx| |sx mx ex]; try contradiction;
    destruct y as [sy|sy| |sy my ey]; try contradiction;
    try (cbn [val]; rewrite ?Z.mul_0_l, ?Z.mul_0_r, Z.div_0_l, rnd_0
           by (try lia; unfold K; lia);
         split; [exact I|reflexivity]).
  destruct sx; [contradiction|]. destruct sy; [contradiction|].
  destruct Hx as [Hex Hmx], Hy as [Hey Hmy].
  cbn [val] in *.
  pose proof (exponent_below mx ex 400 Hbx ltac:(unfold K; lia)) as Hex4.
  pose proof (exponent_below my ey 400 Hby ltac:(unfold K; lia)) as Hey4.
  assert (HpK : 0 < 2 ^ K) by (apply Z.pow_pos_nonneg; unfold K; lia).
  assert (Hpow : 2 ^ (ex + K) * 2 ^ (ey + K) = 2 ^ (ex + ey + K) * 2 ^ K).
  { rewrite <- !Z.pow_add_r by (unfold K; lia). f_equal. lia. }
  assert (Hprod : Zpos mx * 2 ^ (ex + K) * (Zpos my * 2 ^ (ey + K)) =
                  Zpos (mx * my) * 2 ^ (ex + ey + K) * 2 ^ K).
  { rewrite Pos2Z.inj_mul.
    transitivity (Zpos mx * Zpos my * (2 ^ (ex + K) * 2 ^ (ey + K))); [ring|].
    rewrite Hpow. ring. }
  assert (Hpe : 0 < 2 ^ (ex + ey + K)) by (apply Z.pow_pos_nonneg; unfold K; lia).
  assert (Hsmall : Zpos (mx * my) * 2 ^ (ex + ey + K) < 2 ^ (K + 1023)).
  { assert (H1 : Zpos mx * 2 ^ (ex + K) * (Zpos my * 2 ^ (ey + K)) <
                 2 ^ (K + 400) * 2 ^ (K + 400)).
    { assert (0 < 2 ^ (ex + K)) by (apply Z.pow_pos_nonneg; unfold K; lia).
      assert (0 < 2 ^ (ey + K)) by (apply Z.pow_pos_nonneg; unfold K; lia).
      apply Z.mul_lt_mono_nonneg; nia. }
    rewrite Hprod in H1.
    replace (2 ^ (K + 400) * 2 ^ (K + 400)) with (2 ^ (K + 800) * 2 ^ K) in H1
      by (rewrite <- !Z.pow_add_r by (unfold K; lia); f_equal; lia).
    apply Z.mul_lt_mono_pos_r in H1; [|exact HpK].
    assert (2 ^ (K + 800) <= 2 ^ (K + 1023)) by (apply Z.pow_le_mono_r; unfold K; lia).
    lia. }
  rewrite Hprod, Z.div_mul by lia.
  unfold fmul, SFmul. cbn [xorb].
  apply round_aux_value.
  - lia.
  - nia.
  - left; lia.
  - unfold K; lia.
  - rewrite Z.mul_1_l, Z.div_mul by lia. reflexivity.
  - rewrite Z.mul_1_l, Z.mod_mul by lia. reflexivity.
  - right. split; [reflexivity|lia].
  - lia.
Qed.

Lemma new_location_loc (nb r : Z) :
  0 < nb -> 0 <= r < nb -> new_location nb r = loc_of r nb.
Proof.
  intros Hnb Hr. unfold new_location, new_location_even, new_location_odd, loc_of.
  destruct (Z.even nb) eqn:Ev; destruct (Z.eqb_spec r 0); try reflexivity.
  f_equal.
  assert (Hodd : Z.odd nb = true) by (rewrite <- Z.negb_even, Ev; reflexivity).
  apply Z.odd_spec in Hodd as [k Hk].
  destruct (Z.compare_spec (2 * r + 1) nb); destruct (Z.compare_spec (2 * r) nb);
    try reflexivity; lia.
Qed.

Lemma div_core_spec (mx my : positive) (ex ey : Z) :
  let e' := Z.min (fexp prec emax (Zdigits2 (Zpos mx) + ex - (Zdigits2 (Zpos my) + ey)))
                  (ex - ey) in
  let s := ex - ey - e' in
  SFdiv_core_binary prec emax (Zpos mx) ex (Zpos my) ey =
  (Zpos mx * 2 ^ s / Zpos my, e',
   new_location (Zpos my) ((Zpos mx * 2 ^ s) mod Zpos my)).
Proof.
  intros e' s. unfold SFdiv_core_binary. fold e'. fold s.
  assert (Hs : 0 <= s) by (unfold s, e'; lia).
  assert (Hm : match s with
               | Z0 => Zpos mx
               | Zpos _ => Z.shiftl (Zpos mx) s
               | Zneg _ => 0
               end = Zpos mx * 2 ^ s).
  { destruct s as [|p|p] eqn:Es.
    - rewrite Z.pow_0_r. lia.
    - apply Z.shiftl_mul_pow2. lia.
    - lia. }
  rewrite Hm. unfold Z.div, Z.modulo.
  destruct (Z.div_eucl (Zpos mx * 2 ^ s) (Zpos my)) as [q r]. reflexivity.
Qed.

Lemma div_digits (mx my s : Z) :
  0 < mx -> 0 < my -> 0 <= s ->
  1 <= Zdigits2 mx + s - Zdigits2 my ->
  Zdigits2 mx + s - Zdigits2 my <= Zdigits2 (mx * 2 ^ s / my).
Proof.
  intros Hx Hy Hs Hd.
  pose proof (Zdigits2_bounds mx Hx) as [Hxlo _].
  pose proof (Zdigits2_bounds my Hy) as [_ Hyhi].
  set (d1 := Zdigits2 mx) in *. set (d2 := Zdigits2 my) in *.
  assert (Hd1 : 1 <= d1).
  { pose proof (Zdigits2_nonneg mx). fold d1 in H.
    destruct (Z.eq_dec d1 0) as [H0|]; [|lia].
    pose proof (Zdigits2_bounds mx Hx) as [_ Hhi]. fold d1 in Hhi.
    rewrite H0 in Hhi. cbn in Hhi. lia. }
  assert (Hd2 : 0 <= d2) by apply Zdigits2_nonneg.
  set (D := d1 + s - d2) in *.
  assert (Hq : 2 ^ (D - 1) <= mx * 2 ^ s / my).
  { apply Z.div_le_lower_bound; [lia|].
    assert (Hps : 0 < 2 ^ s) by (apply Z.pow_pos_nonneg; lia).
    assert (HpD : 0 < 2 ^ (D - 1)) by (apply Z.pow_pos_nonneg; lia).
    assert (Heq : 2 ^ d2 * 2 ^ (D - 1) = 2 ^ (d1 - 1) * 2 ^ s).
    { rewrite <- !Z.pow_add_r by lia. f_equal. unfold D. lia. }
    nia. }
  assert (Hmono : Zdigits2 (2 ^ (D - 1)) <= Zdigits2 (mx * 2 ^ s / my)).
  { apply Zdigits2_mono. split; [apply Z.pow_nonneg; lia|exact Hq]. }
  replace (Zdigits2 (2 ^ (D - 1))) with D in Hmono; [exact Hmono|].
  symmetry. apply Zdigits2_unique; [|lia]. split; [lia|].
  apply Z.pow_lt_mono_r; lia.
Qed.

Lemma fdiv_value (x y : float) :
  nonneg x -> nonneg y -> 2 ^ K <= val y -> val x < 2 ^ (K + 1023) ->
  nonneg (fdiv x y) /\ val (fdiv x y) = rnd (val y) (val x * 2 ^ K).
Proof.
  intros Hx Hy Hone Hover.
  assert (HpK : 0 < 2 ^ K) by (apply Z.pow_pos_nonneg; unfold K; lia).
  destruct y as [sy|sy| |sy my ey];
    try (exfalso; exact Hy);
    try (exfalso; change (val (S754_zero sy)) with 0 in Hone; lia).
  destruct sy; [contradiction|]. destruct Hy as [Hey Hmy].
  destruct x as [sx|sx| |sx mx ex]; try contradiction.
  - change (val (S754_zero sx)) with 0.
    rewrite Z.mul_0_l, rnd_0 by lia. split; [exact I|reflexivity].
  - destruct sx; [contradiction|]. destruct Hx as [Hex Hmx].
    unfold fdiv, SFdiv. rewrite div_core_spec. cbn [xorb].
    set (e' := Z.min (fexp prec emax (Zdigits2 (Zpos mx) + ex - (Zdigits2 (Zpos my) + ey)))
                     (ex - ey)).
    set (s := ex - ey - e').
    assert (Hs : 0 <= s) by (unfold s, e'; lia).
    assert (He'lo : -K <= e').
    { unfold e', fexp, SpecFloat.emin, prec, emax, K. lia. }
    assert (Hps : 0 < 2 ^ s) by (apply Z.pow_pos_nonneg; lia).
    assert (Hpe : 0 < 2 ^ (e' + K)) by (apply Z.pow_pos_nonneg; lia).
    assert (Hpy : 0 < 2 ^ (ey + K)) by (apply Z.pow_pos_nonneg; unfold K; lia).
    set (a := Zpos mx * 2 ^ (ex - ey + K)).
    assert (Ha : a = Zpos mx * 2 ^ s * 2 ^ (e' + K)).
    { unfold a. rewrite <- Z.mul_assoc, <- Z.pow_add_r by lia.
      do 2 f_equal. unfold s. lia. }
    rewrite new_location_loc by (try lia; apply Z.mod_pos_bound; lia).
    assert (Hscaled : rnd (val (S754_finite false my ey))
                        (val (S754_finite false mx ex) * 2 ^ K) =
                      rnd (Zpos my) a).
    { cbn [val]. rewrite <- (rnd_scale (Zpos my) a (2 ^ (ey + K))) by lia.
      f_equal. unfold a.
      rewrite <- !Z.mul_assoc, <- !Z.pow_add_r by (unfold K; lia).
      do 2 f_equal. lia. }
    rewrite Hscaled.
    apply round_aux_value.
    + lia.
    + unfold a. assert (0 < 2 ^ (ex - ey + K)) by (apply Z.pow_pos_nonneg; unfold K; lia).
      nia.
    + (* either the quotient has digits, or the exponent is the last one *)
      destruct (Z_le_gt_dec e' (-1074)) as [Hl|Hg]; [right; exact Hl|left].
      assert (Hd : 1 <= Zdigits2 (Zpos mx) + s - Zdigits2 (Zpos my)).
      { unfold s, e', fexp, SpecFloat.emin, prec, emax in *. lia. }
      pose proof (div_digits (Zpos mx) (Zpos my) s ltac:(lia) ltac:(lia) Hs Hd) as Hq.
      assert (Hnz : Zpos mx * 2 ^ s / Zpos my <> 0).
      { intros H0. rewrite H0 in Hq. change (Zdigits2 0) with 0 in Hq. lia. }
      pose proof (Z.div_pos (Zpos mx * 2 ^ s) (Zpos my) ltac:(nia) ltac:(lia)). lia.
    + lia.
    + rewrite Ha, Z.div_mul_cancel_r by lia. reflexivity.
    + rewrite Ha, Z.mul_mod_distr_r, loc_of_scale by lia. reflexivity.
    + left.
      destruct (Z_le_gt_dec e' (-1074)) as [Hl|Hg].
      * unfold fexp, SpecFloat.emin, prec, emax. lia.
      * assert (Hd : 53 <= Zdigits2 (Zpos mx) + s - Zdigits2 (Zpos my)).
        { unfold s, e', fexp, SpecFloat.emin, prec, emax in *. lia. }
        pose proof (div_digits (Zpos mx) (Zpos my) s ltac:(lia) ltac:(lia) Hs ltac:(lia))
          as Hq.
        unfold fexp, SpecFloat.emin, prec, emax. lia.
    + (* the quotient is below the overflow threshold *)
      cbn [val] in Hone, Hover.
      assert (H1 : a * 2 ^ (ey + K) = Zpos mx * 2 ^ (ex + K) * 2 ^ K).
      { unfold a. rewrite <- !Z.mul_assoc, <- !Z.pow_add_r by (unfold K; lia).
        do 2 f_equal. lia. }
      assert (H2 : a * 2 ^ (ey + K) < Zpos my * 2 ^ (K + 1023) * 2 ^ (ey + K)).
      { rewrite H1.
        assert (0 < 2 ^ (K + 1023)) by (apply Z.pow_pos_nonneg; unfold K; lia).
        nia. }
      apply Z.mul_lt_mono_pos_r in H2; [exact H2|exact Hpy].
Qed.

Lemma int_of_float_value (f : float) :
  nonneg f -> int_of_float f = Ok (val f / 2 ^ K).
Proof.
  destruct f as [s|s| |s m e]; cbn [nonneg]; try contradiction.
  - intros _. reflexivity.
  - destruct s; [contradiction|]. intros [He Hm].
    cbn [int_of_float cond_Zopp val]. f_equal.
    destruct e as [|p|p].
    + assert (2 ^ K <> 0) by (apply Z.pow_nonzero; unfold K; lia).
      rewrite Z.add_0_l, Z.div_mul by assumption. reflexivity.
    + assert (2 ^ K <> 0) by (apply Z.pow_nonzero; unfold K; lia).
      rewrite Z.pow_add_r by (unfold K; lia).
      rewrite Z.mul_assoc, Z.div_mul by assumption. reflexivity.
    + assert (Hsplit : 2 ^ K = 2 ^ (Zneg p + K) * 2 ^ Zpos p).
      { rewrite <- Z.pow_add_r by (unfold K in *; lia). f_equal. lia. }
      rewrite Hsplit.
      assert (0 < 2 ^ (Zneg p + K)) by (apply Z.pow_pos_nonneg; unfold K in *; lia).
      assert (0 < 2 ^ Zpos p) by (apply Z.pow_pos_nonneg; lia).
      rewrite (Z.mul_comm (2 ^ (Zneg p + K))), Z.div_mul_cancel_r by lia.
      reflexivity.
Qed.

(** *** Confidences and weights *)

Lemma small_nonnegb_spec (bound : Z) (f : float) :
  small_nonnegb bound f = true -> nonneg f /\ val f <= bound.
Proof.
  destruct f as [s|s| |s m e]; cbn [small_nonnegb]; try discriminate.
  - intros H. apply Z.leb_le in H. split; [exact I|exact H].
  - destruct s; [discriminate|]. intros H.
    apply andb_prop in H as [H H4]. apply andb_prop in H as [H H3].
    apply andb_prop in H as [H1 H2].
    apply Z.leb_le in H1, H2, H4. apply Z.ltb_lt in H3.
    split; [cbn [nonneg]; lia|exact H4].
Qed.

Lemma float_lit_one : float_lit 10 1 = S754_finite false 4503599627370496 (-52).
Proof. vm_compute. reflexivity. Qed.

Lemma SFleb_one_cases (m : positive) (e : Z) :
  SFleb (S754_finite false m e) (S754_finite false 4503599627370496 (-52)) = true ->
  e < -52 \/ (e = -52 /\ (m <= 4503599627370496)%positive).
Proof.
  unfold SFleb, SFcompare. rewrite Pos.compare_cont_spec.
  destruct (Z.compare_spec e (-52)) as [He|He|He].
  - generalize (Pos.compare_spec m 4503599627370496).
    generalize (Pos.compare m 4503599627370496).
    intros c Hc. destruct Hc as [Hc|Hc|Hc]; cbn [Pos.switch_Eq]; intros H.
    + right. split; [assumption|]. rewrite Hc. apply Pos.le_refl.
    + right. split; [assumption|]. apply Pos.lt_le_incl. exact Hc.
    + discriminate H.
  - intros _. left. exact He.
  - discriminate.
Qed.

(** A confidence between 0.0 and 1.0 is a non-negative number of value
    at most one. *)
Lemma valid_confidence_value (c : float) :
  valid_confidence c -> nonneg c /\ val c <= 2 ^ K.
Proof.
  intros (Hvalid & Hlo & Hhi). rewrite float_lit_one in Hhi.
  assert (HpK : 0 < 2 ^ K) by (apply Z.pow_pos_nonneg; unfold K; lia).
  destruct c as [s|s| |s m e].
  - split; [exact I|cbn [val]; lia].
  - destruct s; discriminate.
  - discriminate.
  - destruct s; [discriminate|].
    cbn [valid_binary] in Hvalid. unfold bounded, canonical_mantissa in Hvalid.
    apply andb_prop in Hvalid as [Hcan Hle].
    apply Z.eqb_eq in Hcan. apply Z.leb_le in Hle.
    assert (Hd : Zdigits2 (Zpos m) <= 53 /\ -1074 <= e <= 971).
    { cbn [Zdigits2]. unfold fexp, SpecFloat.emin, prec, emax in *. lia. }
    destruct Hd as [Hd He].
    assert (Hm : Zpos m < 2 ^ 53).
    { pose proof (Zdigits2_bounds (Zpos m) ltac:(lia)) as [_ Hup].
      assert (2 ^ Zdigits2 (Zpos m) <= 2 ^ 53) by (apply Z.pow_le_mono_r; lia).
      lia. }
    split; [cbn [nonneg]; lia|].
    apply SFleb_one_cases in Hhi.
    cbn [val].
    destruct Hhi as [He52|[He52 Hc]].
    + assert (Hsplit : 2 ^ K = 2 ^ (-e - 53) * (2 ^ 53 * 2 ^ (e + K))).
      { rewrite <- !Z.pow_add_r by (unfold K; lia). f_equal. lia. }
      assert (0 < 2 ^ (e + K)) by (apply Z.pow_pos_nonneg; unfold K; lia).
      assert (0 < 2 ^ (-e - 53)) by (apply Z.pow_pos_nonneg; lia).
      rewrite Hsplit. nia.
    + assert (Hm52 : Zpos m <= 4503599627370496) by (apply Pos2Z.pos_le_pos; exact Hc).
      assert (H52 : 2 ^ 52 = 4503599627370496) by reflexivity.
      clear Hc.
      assert (Hsplit : 2 ^ K = 2 ^ 52 * 2 ^ (e + K))
        by (rewrite <- Z.pow_add_r by (unfold K; lia); f_equal; lia).
      assert (0 < 2 ^ (e + K)) by (apply Z.pow_pos_nonneg; unfold K; lia).
      rewrite Hsplit. nia.
Qed.

Lemma scaled_weight_small (c : PatternType) (s : Severity) :
  small_nonnegb (190 * 2 ^ K) (scaled_weight (w_performance (weights_of c)) s) = true /\
  small_nonnegb (190 * 2 ^ K) (scaled_weight (w_security (weights_of c)) s) = true /\
  small_nonnegb (190 * 2 ^ K) (scaled_weight (w_maintainability (weights_of c)) s) = true.
Proof. destruct c, s; vm_compute; repeat split. Qed.

Lemma scaled_weight_severity (c : PatternType) :
  (val (scaled_weight (w_performance (weights_of c)) WARNING) <=?
   val (scaled_weight (w_performance (weights_of c)) CRITICAL)) = true /\
  (val (scaled_weight (w_security (weights_of c)) WARNING) <=?
   val (scaled_weight (w_security (weights_of c)) CRITICAL)) = true /\
  (val (scaled_weight (w_maintainability (weights_of c)) WARNING) <=?
   val (scaled_weight (w_maintainability (weights_of c)) CRITICAL)) = true.
Proof. destruct c; vm_compute; repeat split. Qed.

(** *** Terms and sums *)

Lemma pow2_K_pos : 0 < 2 ^ K.
Proof. apply Z.pow_pos_nonneg; unfold K; lia. Qed.

Lemma pow2_le (a b : Z) : 0 <= a <= b -> 2 ^ a <= 2 ^ b.
Proof. intros. apply Z.pow_le_mono_r; lia. Qed.

Lemma small_below_400 (v : Z) : v <= 190 * 2 ^ K -> v < 2 ^ (K + 400).
Proof.
  intros H. pose proof pow2_K_pos.
  assert (2 ^ (K + 8) <= 2 ^ (K + 400)) by (apply pow2_le; unfold K; lia).
  rewrite Z.pow_add_r in H1 by (unfold K; lia). change (2 ^ 8) with 256 in H1. lia.
Qed.

(** A product by a confidence: at most the other factor, and monotone in
    the other factor. *)
Lemma fmul_confidence (x c : float) :
  nonneg x -> val x <= 190 * 2 ^ K -> valid_confidence c ->
  nonneg (fmul x c) /\ val (fmul x c) <= 190 * 2 ^ K /\
  val (fmul x c) = rnd 1 (val x * val c / 2 ^ K).
Proof.
  intros Hx Hbx Hc. destruct (valid_confidence_value c Hc) as [Hnc Hvc].
  pose proof pow2_K_pos as HpK. pose proof (val_nonneg x). pose proof (val_nonneg c).
  destruct (fmul_value x c Hx Hnc) as [Hn Hv].
  - now apply small_below_400.
  - apply small_below_400. lia.
  - split; [exact Hn|]. split; [|exact Hv].
    rewrite Hv.
    apply Z.le_trans with (rnd 1 (val x)).
    + apply rnd_mono; [lia|]. split.
      * apply Z.div_pos; nia.
      * apply Z.div_le_upper_bound; nia.
    + rewrite val_representable by exact Hx. exact Hbx.
Qed.

Lemma fmul_confidence_mono (x x' c : float) :
  nonneg x -> nonneg x' -> val x <= val x' -> val x' <= 190 * 2 ^ K ->
  valid_confidence c ->
  val (fmul x c) <= val (fmul x' c).
Proof.
  intros Hx Hx' Hle Hb Hc.
  destruct (fmul_confidence x c Hx ltac:(lia) Hc) as (_ & _ & ->).
  destruct (fmul_confidence x' c Hx' Hb Hc) as (_ & _ & ->).
  pose proof pow2_K_pos. pose proof (val_nonneg x). pose proof (val_nonneg c).
  apply rnd_mono; [lia|]. split.
  - apply Z.div_pos; nia.
  - apply Z.div_le_mono; nia.
Qed.

Lemma contribution_fields (d : Detection) :
  contribution d =
  mkSums (fmul (scaled_weight (w_performance (weights_of (pattern_type d))) (severity d))
               (confidence d))
         (fmul (scaled_weight (w_security (weights_of (pattern_type d))) (severity d))
               (confidence d))
         (fmul (scaled_weight (w_maintainability (weights_of (pattern_type d))) (severity d))
               (confidence d))
         (s_debug_hours (contribution d)).
Proof. reflexivity. Qed.

Lemma contribution_good (d : Detection) :
  valid_confidence (confidence d) -> good_term (contribution d).
Proof.
  intros Hc. rewrite contribution_fields. unfold good_term. cbn [s_performance s_security s_maintainability].
  destruct (scaled_weight_small (pattern_type d) (severity d)) as (H1 & H2 & H3).
  apply small_nonnegb_spec in H1 as [H1n H1b], H2 as [H2n H2b], H3 as [H3n H3b].
  destruct (fmul_confidence _ _ H1n H1b Hc) as (? & ? & _).
  destruct (fmul_confidence _ _ H2n H2b Hc) as (? & ? & _).
  destruct (fmul_confidence _ _ H3n H3b Hc) as (? & ? & _).
  repeat split; assumption.
Qed.

Lemma contribution_severity (d : Detection) :
  severity d = WARNING -> valid_confidence (confidence d) ->
  sums_le (contribution d) (contribution (with_severity CRITICAL d)).
Proof.
  intros Hs Hc.
  rewrite (contribution_fields d), (contribution_fields (with_severity CRITICAL d)).
  unfold sums_le, with_severity.
  cbn [s_performance s_security s_maintainability pattern_type severity confidence].
  rewrite Hs.
  destruct (scaled_weight_severity (pattern_type d)) as (H1 & H2 & H3).
  apply Z.leb_le in H1, H2, H3.
  destruct (scaled_weight_small (pattern_type d) WARNING) as (W1 & W2 & W3).
  destruct (scaled_weight_small (pattern_type d) CRITICAL) as (C1 & C2 & C3).
  apply small_nonnegb_spec in W1 as [? ?], W2 as [? ?], W3 as [? ?].
  apply small_nonnegb_spec in C1 as [? ?], C2 as [? ?], C3 as [? ?].
  repeat split; apply fmul_confidence_mono; assumption.
Qed.

(** Adding a term below 190 to a sum below [2^61] stays below [2^61]. *)
Lemma rnd_saturates : rnd 1 (2 ^ (K + 61) + 190 * 2 ^ K) = 2 ^ (K + 61).
Proof. vm_compute. reflexivity. Qed.

Lemma fadd_bounded (s t : float) :
  nonneg s -> val s <= 2 ^ (K + 61) -> nonneg t -> val t <= 190 * 2 ^ K ->
  nonneg (fadd s t) /\ val (fadd s t) <= 2 ^ (K + 61) /\
  val (fadd s t) = rnd 1 (val s + val t).
Proof.
  intros Hs Hbs Ht Hbt.
  pose proof (val_nonneg s). pose proof (val_nonneg t). pose proof pow2_K_pos.
  assert (Hbig : 2 ^ (K + 61) + 190 * 2 ^ K < 2 ^ (K + 1023)).
  { vm_compute. reflexivity. }
  destruct (fadd_value s t Hs Ht ltac:(lia)) as [Hn Hv].
  split; [exact Hn|]. split; [|exact Hv].
  rewrite Hv, <- rnd_saturates. apply rnd_mono; lia.
Qed.

Lemma add_sums_good (acc t : Sums) :
  good_sums acc -> good_term t -> good_sums (add_sums acc t).
Proof.
  intros ((A1 & A2) & (A3 & A4) & (A5 & A6)) ((T1 & T2) & (T3 & T4) & (T5 & T6)).
  unfold good_sums, add_sums. cbn [s_performance s_security s_maintainability].
  destruct (fadd_bounded _ _ A1 A2 T1 T2) as (? & ? & _).
  destruct (fadd_bounded _ _ A3 A4 T3 T4) as (? & ? & _).
  destruct (fadd_bounded _ _ A5 A6 T5 T6) as (? & ? & _).
  repeat split; assumption.
Qed.

Lemma fadd_mono (s s' t t' : float) :
  nonneg s -> val s <= 2 ^ (K + 61) -> nonneg t -> val t <= 190 * 2 ^ K ->
  nonneg s' -> val s' <= 2 ^ (K + 61) -> nonneg t' -> val t' <= 190 * 2 ^ K ->
  val s <= val s' -> val t <= val t' ->
  val (fadd s t) <= val (fadd s' t').
Proof.
  intros Hs Hbs Ht Hbt Hs' Hbs' Ht' Hbt' Hle1 Hle2.
  destruct (fadd_bounded s t Hs Hbs Ht Hbt) as (_ & _ & ->).
  destruct (fadd_bounded s' t' Hs' Hbs' Ht' Hbt') as (_ & _ & ->).
  pose proof (val_nonneg s). pose proof (val_nonneg t).
  apply rnd_mono; lia.
Qed.

Lemma add_sums_mono (acc acc' t t' : Sums) :
  good_sums acc -> good_sums acc' -> good_term t -> good_term t' ->
  sums_le acc acc' -> sums_le t t' ->
  sums_le (add_sums acc t) (add_sums acc' t').
Proof.
  intros ((A1 & A2) & (A3 & A4) & (A5 & A6)) ((B1 & B2) & (B3 & B4) & (B5 & B6))
         ((T1 & T2) & (T3 & T4) & (T5 & T6)) ((U1 & U2) & (U3 & U4) & (U5 & U6))
         (L1 & L2 & L3) (M1 & M2 & M3).
  unfold sums_le, add_sums. cbn [s_performance s_security s_maintainability].
  repeat split; apply fadd_mono; assumption.
Qed.

Lemma fold_good (ds : list Detection) (acc : Sums) :
  Forall (fun d => good_term (contribution d)) ds ->
  good_sums acc ->
  good_sums (fold_left (fun a d => add_sums a (contribution d)) ds acc).
Proof.
  intros H; revert acc; induction H as [|d ds Hd _ IH]; intros acc Hacc; cbn [fold_left].
  - exact Hacc.
  - apply IH. now apply add_sums_good.
Qed.

Lemma fold_mono (ds ds' : list Detection) :
  Forall2 term_le ds ds' ->
  forall acc acc',
    good_sums acc -> good_sums acc' -> sums_le acc acc' ->
    sums_le (fold_left (fun a d => add_sums a (contribution d)) ds acc)
            (fold_left (fun a d => add_sums a (contribution d)) ds' acc') /\
    good_sums (fold_left (fun a d => add_sums a (contribution d)) ds acc) /\
    good_sums (fold_left (fun a d => add_sums a (contribution d)) ds' acc').
Proof.
  induction 1 as [|d d' ds ds' (Hd & Hd' & Hle) _ IH]; intros acc acc' Ha Ha' Hacc;
    cbn [fold_left].
  - split; [exact Hacc|split; assumption].
  - apply IH.
    + now apply add_sums_good.
    + now apply add_sums_good.
    + now apply add_sums_mono.
Qed.

Lemma sums0_good : good_sums sums0.
Proof.
  pose proof pow2_K_pos.
  assert (0 < 2 ^ (K + 61)) by (apply Z.pow_pos_nonneg; unfold K; lia).
  unfold good_sums, sums0. cbn [s_performance s_security s_maintainability fzero nonneg val].
  repeat split; lia.
Qed.

Lemma sums_le_refl (s : Sums) : sums_le s s.
Proof. unfold sums_le. lia. Qed.

(** *** Normalization and the total *)

Lemma float_of_int_pos (n : Z) :
  1 <= n < 2 ^ 1023 ->
  exists N, float_of_int n = Ok N /\ nonneg N /\ val N = rnd 1 (n * 2 ^ K).
Proof.
  intros [Hlo Hhi]. destruct n as [|p|p]; try lia.
  unfold float_of_int. cbn [binary_normalize].
  destruct (binary_round_value p 0) as [Hn Hv].
  - lia.
  - pose proof pow2_K_pos. rewrite Z.add_0_l.
    replace (2 ^ (K + 1023)) with (2 ^ 1023 * 2 ^ K)
      by (rewrite <- Z.pow_add_r by (unfold K; lia); f_equal; lia).
    nia.
  - exists (binary_round prec emax false p 0). rewrite Z.add_0_l in Hv.
    split; [|split; assumption].
    destruct (binary_round prec emax false p 0) as [s|s| |s m e];
      try contradiction; reflexivity.
Qed.

Lemma rnd_pow2 (j : Z) : Emin <= j -> rnd 1 (2 ^ j) = 2 ^ j.
Proof.
  intros Hj. pose proof (rnd_representable 1 1 j ltac:(lia) ltac:(lia)) as H.
  rewrite !Z.mul_1_l, Z.mul_1_r in H. apply H; [cbn; lia|exact Hj].
Qed.

Lemma float_of_int_at_least_one (n : Z) (N : float) :
  1 <= n -> val N = rnd 1 (n * 2 ^ K) -> 2 ^ K <= val N.
Proof.
  intros Hn Hv. pose proof pow2_K_pos. rewrite Hv.
  rewrite <- (rnd_pow2 K) at 1 by (unfold Emin, K; lia).
  apply rnd_mono; [lia|]. nia.
Qed.

Lemma normalize_value (n : Z) (N total : float) :
  1 <= n -> float_of_int n = Ok N -> nonneg N -> 2 ^ K <= val N ->
  nonneg total -> val total <= 2 ^ (K + 61) ->
  normalize total n = Ok (normalized N total) /\ 0 <= normalized N total <= 100.
Proof.
  intros Hn HN HnN HvN Ht Hbt. pose proof pow2_K_pos as HpK.
  unfold normalize, float_div_int. rewrite Z.max_l by lia. rewrite HN. cbn [bind].
  assert (Hz : is_zero N = false).
  { destruct N as [s|s| |s m e]; try reflexivity. cbn [val] in HvN. lia. }
  rewrite Hz. cbn [bind].
  assert (Hover : val total < 2 ^ (K + 1023)).
  { assert (2 ^ (K + 61) < 2 ^ (K + 1023)) by (apply Z.pow_lt_mono_r; unfold K; lia).
    lia. }
  destruct (fdiv_value total N Ht HnN HvN Hover) as [Hq Hv].
  rewrite (int_of_float_value _ Hq), Hv. cbn [bind].
  split; [reflexivity|]. unfold normalized.
  assert (0 <= rnd (val N) (val total * 2 ^ K)).
  { apply rnd_nonneg; [lia|]. pose proof (val_nonneg total). nia. }
  assert (0 <= rnd (val N) (val total * 2 ^ K) / 2 ^ K) by (apply Z.div_pos; lia).
  lia.
Qed.

Lemma normalized_mono (N s s' : float) :
  2 ^ K <= val N -> val s <= val s' -> normalized N s <= normalized N s'.
Proof.
  intros HN Hle. pose proof pow2_K_pos. pose proof (val_nonneg s).
  unfold normalized. apply Z.min_le_compat_l.
  apply Z.div_le_mono; [lia|].
  apply rnd_mono; [lia|]. nia.
Qed.

Lemma valid_confidence_03 : valid_confidence (float_lit 3 1).
Proof. vm_compute. repeat split. Qed.

Lemma valid_confidence_04 : valid_confidence (float_lit 4 1).
Proof. vm_compute. repeat split. Qed.

(** [float(p) * c] for a metric [p] between 0 and 100. *)
Lemma int_mul_confidence (p : Z) (c : float) :
  0 <= p <= 100 -> valid_confidence c ->
  exists f, int_mul_float p c = Ok f /\ nonneg f /\ val f <= 190 * 2 ^ K.
Proof.
  intros Hp Hc. pose proof pow2_K_pos as HpK. unfold int_mul_float.
  destruct (Z.eq_dec p 0) as [->|Hnz].
  - exists (fmul fzero c). split; [reflexivity|].
    destruct (fmul_confidence fzero c) as (Hn & Hb & _);
      [exact I|cbn [fzero val]; lia|exact Hc|]. now split.
  - destruct (float_of_int_pos p) as (F & HF & HnF & HvF).
    + split; [lia|]. assert (2 ^ 7 <= 2 ^ 1023) by (apply pow2_le; lia).
      change (2 ^ 7) with 128 in H. lia.
    + rewrite HF. cbn [bind]. exists (fmul F c). split; [reflexivity|].
      assert (HbF : val F <= 190 * 2 ^ K).
      { rewrite HvF.
        apply Z.le_trans with (rnd 1 (2 ^ (K + 7))).
        - apply rnd_mono; [lia|]. rewrite Z.pow_add_r by (unfold K; lia).
          change (2 ^ 7) with 128. nia.
        - rewrite rnd_pow2 by (unfold Emin, K; lia).
          rewrite Z.pow_add_r by (unfold K; lia). change (2 ^ 7) with 128. lia. }
      destruct (fmul_confidence F c HnF HbF Hc) as (Hn & Hb & _). now split.
Qed.

Lemma weighted_total_returns (p s m : Z) :
  0 <= p <= 100 -> 0 <= s <= 100 -> 0 <= m <= 100 ->
  exists t,
    (a <- int_mul_float p (float_lit 3 1) ;;
     b <- int_mul_float s (float_lit 4 1) ;;
     c <- int_mul_float m (float_lit 3 1) ;;
     int_of_float (fadd (fadd a b) c)) = Ok t.
Proof.
  intros Hp Hs Hm. pose proof pow2_K_pos as HpK.
  destruct (int_mul_confidence p _ Hp valid_confidence_03) as (a & -> & Ha & Hba).
  destruct (int_mul_confidence s _ Hs valid_confidence_04) as (b & -> & Hb & Hbb).
  destruct (int_mul_confidence m _ Hm valid_confidence_03) as (c & -> & Hc & Hbc).
  cbn [bind].
  assert (Hsmall : 190 * 2 ^ K <= 2 ^ (K + 61)).
  { assert (2 ^ (K + 8) <= 2 ^ (K + 61)) by (apply pow2_le; unfold K; lia).
    rewrite Z.pow_add_r in H by (unfold K; lia). change (2 ^ 8) with 256 in H. lia. }
  destruct (fadd_bounded a b Ha ltac:(lia) Hb Hbb) as (Hab & Hbab & _).
  destruct (fadd_bounded _ c Hab Hbab Hc Hbc) as (Habc & _ & _).
  rewrite (int_of_float_value _ Habc). eexists; reflexivity.
Qed.

(** The score of a list whose sums are well formed. *)
Lemma assess_impact_value (ds : list Detection) (N : float) :
  ds <> [] ->
  float_of_int (Z.of_nat (List.length ds)) = Ok N -> nonneg N -> 2 ^ K <= val N ->
  good_sums (total_sums ds) ->
  exists t,
    assess_impact ds =
    Ok (mkImpactScore t
          (normalized N (s_performance (total_sums ds)))
          (normalized N (s_security (total_sums ds)))
          (normalized N (s_maintainability (total_sums ds)))
          (round1 (s_debug_hours (total_sums ds)))
          (risk_level_of t (normalized N (s_security (total_sums ds))))).
Proof.
  intros Hne HN HnN HvN ((P1 & P2) & (S1 & S2) & (M1 & M2)).
  destruct ds as [|d ds]; [contradiction|].
  rewrite assess_impact_unfold. cbv zeta.
  assert (Hlen : 1 <= Z.of_nat (List.length (d :: ds))) by (cbn [List.length]; lia).
  destruct (normalize_value _ N _ Hlen HN HnN HvN P1 P2) as [-> Hp].
  destruct (normalize_value _ N _ Hlen HN HnN HvN S1 S2) as [-> Hs].
  destruct (normalize_value _ N _ Hlen HN HnN HvN M1 M2) as [-> Hm].
  cbn [bind].
  destruct (weighted_total_returns _ _ _ Hp Hs Hm) as [t Ht].
  exists t.
  destruct (int_mul_float (normalized N (s_performance (total_sums (d :: ds))))
              (float_lit 3 1)) as [a|e]; [cbn [bind] in *|discriminate Ht].
  destruct (int_mul_float (normalized N (s_security (total_sums (d :: ds))))
              (float_lit 4 1)) as [b|e]; [cbn [bind] in *|discriminate Ht].
  destruct (int_mul_float (normalized N (s_maintainability (total_sums (d :: ds))))
              (float_lit 3 1)) as [c|e]; [cbn [bind] in *|discriminate Ht].
  rewrite Ht. reflexivity.
Qed.

Lemma term_le_refl (d : Detection) :
  valid_confidence (confidence d) -> term_le d d.
Proof.
  intros Hc. pose proof (contribution_good d Hc).
  split; [exact H|split; [exact H|apply sums_le_refl]].
Qed.

(** Findings with termwise larger contributions get metrics at least as
    large. *)
Lemma scores_mono (ds ds' : list Detection) :
  Forall2 term_le ds ds' ->
  ds <> [] ->
  Z.of_nat (List.length ds) < 2 ^ 63 ->
  exists r r',
    assess_impact ds = Ok r /\
    assess_impact ds' = Ok r' /\
    security_risk r <= security_risk r' /\
    performance_cost r <= performance_cost r' /\
    maintainability_debt r <= maintainability_debt r'.
Proof.
  intros Hrel Hne Hlen.
  destruct (fold_mono _ _ Hrel sums0 sums0 sums0_good sums0_good (sums_le_refl _))
    as ((Lp & Ls & Lm) & Hgood & Hgood').
  fold (total_sums ds) in *. fold (total_sums ds') in *.
  pose proof (Forall2_length Hrel) as Hlen'.
  assert (Hne' : ds' <> []).
  { intros ->. destruct ds; [contradiction|discriminate Hlen']. }
  assert (Hpos : 1 <= Z.of_nat (List.length ds)).
  { destruct ds; [contradiction|cbn [List.length]; lia]. }
  destruct (float_of_int_pos (Z.of_nat (List.length ds))) as (N & HN & HnN & HvN).
  { split; [exact Hpos|].
    assert (2 ^ 63 <= 2 ^ 1023) by (apply pow2_le; lia). lia. }
  assert (HN1 : 2 ^ K <= val N)
    by (apply (float_of_int_at_least_one (Z.of_nat (List.length ds)) N Hpos HvN)).
  destruct (assess_impact_value ds N Hne HN HnN HN1 Hgood) as [t Ht].
  destruct (assess_impact_value ds' N Hne') as [t' Ht'];
    [rewrite <- Hlen'; exact HN|exact HnN|exact HN1|exact Hgood'|].
  eexists; eexists. split; [exact Ht|]. split; [exact Ht'|].
  cbn [security_risk performance_cost maintainability_debt].
  repeat split; apply normalized_mono; assumption.
Qed.

(** One finding of a valid list replaced by a finding with a larger
    contribution. *)
Lemma replaced_terms (l1 l2 : list Detection) (d d' : Detection) :
  Forall (fun x => valid_confidence (confidence x)) (l1 ++ d :: l2) ->
  good_term (contribution d') ->
  sums_le (contribution d) (contribution d') ->
  Forall2 term_le (l1 ++ d :: l2) (l1 ++ d' :: l2).
Proof.
  intros Hvalid Hgood Hle.
  apply Forall_app in Hvalid as [Hv1 Hv2].
  inversion Hv2 as [|? ? Hvd Hv2' ]; subst.
  apply Forall2_app.
  - clear - Hv1. induction Hv1; constructor; [now apply term_le_refl|assumption].
  - constructor.
    + split; [now apply contribution_good|]. split; assumption.
    + clear - Hv2'. induction Hv2'; constructor; [now apply term_le_refl|assumption].
Qed.

(** C6: in a list of findings as the data model has them (confidences
    between 0.0 and 1.0, fewer than 2^63 findings, the most a Python list
    holds), replacing a Warning finding by a finding of severity Critical
    with the same category and confidence, whatever its other fields,
    gives a score whose [security_risk], [performance_cost] and
    [maintainability_debt] are each at least the original ones; both
    calls return. *)
Theorem severity_replacement_monotone (l1 l2 : list Detection) (d d' : Detection) :
  severity d = WARNING ->
  severity d' = CRITICAL ->
  pattern_type d' = pattern_type d ->
  confidence d' = confidence d ->
  Forall (fun x => valid_confidence (confidence x)) (l1 ++ d :: l2) ->
  Z.of_nat (List.length (l1 ++ d :: l2)) < 2 ^ 63 ->
  exists r r',
    assess_impact (l1 ++ d :: l2) = Ok r /\
    assess_impact (l1 ++ d' :: l2) = Ok r' /\
    security_risk r <= security_risk r' /\
    performance_cost r <= performance_cost r' /\
    maintainability_debt r <= maintainability_debt r'.
Proof.
  intros Hsev Hsev' Hpt Hcf Hvalid Hlen.
  assert (Hd' : contribution d' = contribution (with_severity CRITICAL d)).
  { apply contribution_ext. unfold same_scoring_fields, with_severity.
    cbn [pattern_type severity confidence]. repeat split; assumption. }
  assert (Hvd : valid_confidence (confidence d)).
  { apply Forall_app in Hvalid as [_ Hv2]. now inversion Hv2. }
  apply scores_mono; [|destruct l1; discriminate|exact Hlen].
  apply replaced_terms; [exact Hvalid| |]; rewrite Hd'.
  - apply contribution_good. exact Hvd.
  - now apply contribution_severity.
Qed.

Lemma severity_replacement_monotone_witness :
  assess_impact
    ([finding SILENT_FALLBACK CRITICAL (float_lit 10 1)] ++
     mkDetection WARNING_SUPPRESSION WARNING 7 "w" "d" "i" "r" (float_lit 95 2)
     :: [finding DUPLICATE_CODE WARNING (float_lit 9 1)]) =
    Ok (mkImpactScore 34 12 29 64 (float_lit 306 1) "LOW") /\
  assess_impact
    ([finding SILENT_FALLBACK CRITICAL (float_lit 10 1)] ++
     mkDetection WARNING_SUPPRESSION CRITICAL 7 "w" "d" "i" "r" (float_lit 95 2)
     :: [finding DUPLICATE_CODE WARNING (float_lit 9 1)]) =
    Ok (mkImpactScore 41 14 35 76 (float_lit 344 1) "MEDIUM") /\
  exists r r',
    assess_impact
      ([finding SILENT_FALLBACK CRITICAL (float_lit 10 1)] ++
       mkDetection WARNING_SUPPRESSION WARNING 7 "w" "d" "i" "r" (float_lit 95 2)
       :: [finding DUPLICATE_CODE WARNING (float_lit 9 1)]) = Ok r /\
    assess_impact
      ([finding SILENT_FALLBACK CRITICAL (float_lit 10 1)] ++
       mkDetection WARNING_SUPPRESSION CRITICAL 7 "w" "d" "i" "r" (float_lit 95 2)
       :: [finding DUPLICATE_CODE WARNING (float_lit 9 1)]) = Ok r' /\
    security_risk r <= security_risk r' /\
    performance_cost r <= performance_cost r' /\
    maintainability_debt r <= maintainability_debt r'.
Proof.
  split; [vm_compute; reflexivity|]. split; [vm_compute; reflexivity|].
  apply (severity_replacement_monotone
           [finding SILENT_FALLBACK CRITICAL (float_lit 10 1)]
           [finding DUPLICATE_CODE WARNING (float_lit 9 1)]
           (mkDetection WARNING_SUPPRESSION WARNING 7 "w" "d" "i" "r" (float_lit 95 2))
           (mkDetection WARNING_SUPPRESSION CRITICAL 7 "w" "d" "i" "r" (float_lit 95 2))).
  - reflexivity.
  - reflexivity.
  - reflexivity.
  - reflexivity.
  - repeat constructor; vm_compute; repeat split.
  - vm_compute. reflexivity.
Defined.

(** X6: with confidences in the range of the data model, raising the
    severity of one Warning finding to Critical lowers none of
    [security_risk], [performance_cost] and [maintainability_debt]; both
    calls return. *)
Theorem severity_monotone (l1 l2 : list Detection) (d : Detection) :
  severity d = WARNING ->
  Forall (fun x => valid_confidence (confidence x)) (l1 ++ d :: l2) ->
  Z.of_nat (List.length (l1 ++ d :: l2)) < 2 ^ 63 ->
  exists r r',
    assess_impact (l1 ++ d :: l2) = Ok r /\
    assess_impact (l1 ++ with_severity CRITICAL d :: l2) = Ok r' /\
    security_risk r <= security_risk r' /\
    performance_cost r <= performance_cost r' /\
    maintainability_debt r <= maintainability_debt r'.
Proof.
  intros Hsev Hvalid Hlen.
  assert (Hvd : valid_confidence (confidence d)).
  { apply Forall_app in Hvalid as [_ Hv2]. now inversion Hv2. }
  apply scores_mono; [|destruct l1; discriminate|exact Hlen].
  apply replaced_terms; [exact Hvalid| |].
  - apply (contribution_good (with_severity CRITICAL d)). exact Hvd.
  - now apply contribution_severity.
Qed.

Lemma severity_monotone_witness :
  exists r r',
    assess_impact ([] ++ finding SECURITY_SHORTCUT WARNING (float_lit 95 2)
                      :: [finding SILENT_FALLBACK CRITICAL (float_lit 10 1)]) = Ok r /\
    assess_impact ([] ++ with_severity CRITICAL
                           (finding SECURITY_SHORTCUT WARNING (float_lit 95 2))
                      :: [finding SILENT_FALLBACK CRITICAL (float_lit 10 1)]) = Ok r' /\
    security_risk r <= security_risk r' /\
    performance_cost r <= performance_cost r' /\
    maintainability_debt r <= maintainability_debt r'.
Proof.
  apply (severity_monotone []
           [finding SILENT_FALLBACK CRITICAL (float_lit 10 1)]
           (finding SECURITY_SHORTCUT WARNING (float_lit 95 2))).
  - reflexivity.
  - repeat constructor; vm_compute; repeat split.
  - vm_compute. reflexivity.
Defined.

End FloatFacts.

(** * The scoring rule, by value

    The truncations, the quotients and the rounding to one decimal of
    [assess_impact], stated on the values of the doubles. *)

Module FormulaFacts.
Import FloatValue FloatFacts.

(** *** Nearest integers and nearest doubles *)






(** *** Rounding to one decimal *)





(** The rounding to one decimal leaves no choice: the number of tenths
    is unique, and so is the value of the rounded double. *)
Lemma nearest_tenths_unique (v k1 k2 : Z) :
  nearest_tenths v k1 -> nearest_tenths v k2 -> k1 = k2.
Proof.
  intros [H1 E1] [H2 E2]. pose proof pow2_K_pos as HpK.
  set (u := 2 ^ K) in *.
  assert (Hd : k1 = k2 \/ k1 = k2 + 1 \/ k2 = k1 + 1) by nia.
  destruct Hd as [Hd|[Hd|Hd]]; [exact Hd| |]; exfalso; subst.
  - assert (T1 : 2 * Z.abs (10 * v - (k2 + 1) * u) = u) by nia.
    assert (T2 : 2 * Z.abs (10 * v - k2 * u) = u) by nia.
    specialize (E1 T1). specialize (E2 T2).
    rewrite Z.even_add, E2 in E1. discriminate E1.
  - assert (T1 : 2 * Z.abs (10 * v - k1 * u) = u) by nia.
    assert (T2 : 2 * Z.abs (10 * v - (k1 + 1) * u) = u) by nia.
    specialize (E1 T1). specialize (E2 T2).
    rewrite Z.even_add, E1 in E2. discriminate E2.
Qed.

Lemma rounded_to_tenths_unique (x h h' : float) :
  rounded_to_tenths x h -> rounded_to_tenths x h' -> val h = val h'.
Proof.
  intros (k & Hk & _ & _ & Hv) (k' & Hk' & _ & _ & Hv').
  rewrite Hv, Hv', (nearest_tenths_unique _ _ _ Hk Hk'). reflexivity.
Qed.

Lemma truncated_unique (q : float) (i j : Z) :
  truncated q i -> truncated q j -> i = j.
Proof.
  intros [_ Hi] [_ Hj]. pose proof pow2_K_pos. nia.
Qed.

(** *** The debug hours stay in range *)






(** *** Normalization and the total, by value *)








End FormulaFacts.

(** * Properties of the pattern detector *)

Local Close Scope Z_scope.
Local Open Scope nat_scope.

Module DetectorFacts.
Import Text Re Ast Detector Findings.

(** *** Loops that only append *)

Lemma for_each_append {A : Type} (g : A -> list Detection)
    (body : A -> detections_state -> result detections_state) :
  (forall x ds, body x ds = Ok (ds ++ g x)) ->
  forall xs ds, for_each xs body ds = Ok (ds ++ flat_map g xs).
Proof.
  intros Hbody xs; induction xs as [|x xs IH]; intros ds; simpl.
  - now rewrite app_nil_r.
  - rewrite Hbody; simpl. rewrite IH. now rewrite app_assoc.
Qed.

Lemma flat_map_filter {A B : Type} (keep : A -> bool) (f : A -> B) (xs : list A) :
  flat_map (fun x => if keep x then [f x] else []) xs = map f (filter keep xs).
Proof.
  induction xs as [|x xs IH]; simpl; [reflexivity|].
  destruct (keep x); simpl; now rewrite IH.
Qed.

Lemma flat_map_map {A B C : Type} (f : A -> B) (g : B -> list C) (xs : list A) :
  flat_map g (map f xs) = flat_map (fun x => g (f x)) xs.
Proof.
  induction xs as [|x xs IH]; simpl; [reflexivity|]. now rewrite IH.
Qed.

(** The guard [line_num <= len(lines)] keeps the index inside the list. *)
Lemma snippet_at_ok (lines : list text) (k : nat) :
  snippet_at lines (k + 1) = Ok (snippet lines (k + 1)).
Proof.
  unfold snippet_at, snippet.
  destruct (k + 1 <=? List.length lines) eqn:E; [|reflexivity].
  apply Nat.leb_le in E. unfold index.
  rewrite (nth_error_nth' lines []) by lia. reflexivity.
Qed.

Lemma scan_ok (pattern : regex) (fl : flags) (code : text) (lines : list text)
    (keep : re_match -> bool) (pt : PatternType) (sev : Severity)
    (desc imp rec : string) (conf : float) (ds : detections_state) :
  scan pattern fl code lines keep pt sev desc imp rec conf ds =
  Ok (ds ++ rule_findings
              (mkRule pattern fl keep pt sev snippet desc imp rec conf) code lines).
Proof.
  unfold scan, rule_findings, rule_matches; cbn [r_keep r_pattern r_flags].
  rewrite <- flat_map_filter.
  apply for_each_append. intros m ds'.
  destruct (keep m); [|now rewrite app_nil_r].
  unfold line_num_of. rewrite snippet_at_ok. reflexivity.
Qed.

Lemma silent_fallback_ok (code : text) (lines : list text) (ds : detections_state) :
  _detect_silent_fallback code lines ds =
  Ok (ds ++ rules_findings silent_fallback_rules code lines).
Proof.
  unfold _detect_silent_fallback.
  rewrite scan_ok; cbn [bind]. rewrite scan_ok; cbn [bind].
  rewrite scan_ok; cbn [bind]. rewrite scan_ok.
  unfold rules_findings, silent_fallback_rules; cbn [flat_map].
  rewrite app_nil_r, <- !app_assoc. reflexivity.
Qed.

Lemma warning_suppression_ok (code : text) (lines : list text) (ds : detections_state) :
  _detect_warning_suppression code lines ds =
  Ok (ds ++ rules_findings warning_rules code lines).
Proof.
  unfold _detect_warning_suppression, rules_findings, warning_rules.
  rewrite flat_map_map. apply for_each_append.
  intros [pattern desc] ds'. apply scan_ok.
Qed.

Lemma map_as_flat_map {A B : Type} (f : A -> B) (xs : list A) :
  flat_map (fun x => [f x]) xs = map f xs.
Proof.
  induction xs as [|x xs IH]; simpl; [reflexivity|]. now rewrite IH.
Qed.

Lemma filter_always {A : Type} (xs : list A) :
  filter (fun _ => true) xs = xs.
Proof.
  induction xs as [|x xs IH]; simpl; [reflexivity|]. now rewrite IH.
Qed.

Lemma performance_degradation_ok (code : text) (lines : list text)
    (ds : detections_state) :
  _detect_performance_degradation code lines ds =
  Ok (ds ++ rules_findings performance_rules code lines).
Proof.
  unfold _detect_performance_degradation.
  rewrite (for_each_append (fun m => [rule_finding nested_loop_rule code lines m]))
    by reflexivity.
  cbn [bind].
  rewrite (for_each_append (fun m => [rule_finding api_in_loop_rule code lines m]))
    by reflexivity.
  rewrite !map_as_flat_map.
  unfold rules_findings, performance_rules, rule_findings, rule_matches;
    cbn [flat_map].
  unfold nested_loop_rule at 2, api_in_loop_rule at 2;
    cbn [r_keep r_pattern r_flags]. unfold always.
  rewrite !filter_always, app_nil_r, <- app_assoc. reflexivity.
Qed.

Lemma security_shortcuts_ok (code : text) (lines : list text) (ds : detections_state) :
  _detect_security_shortcuts code lines ds =
  Ok (ds ++ rules_findings security_rules code lines).
Proof.
  unfold _detect_security_shortcuts, rules_findings, security_rules.
  rewrite flat_map_map. apply for_each_append.
  intros [[[pattern desc] imp] rec] ds'. apply scan_ok.
Qed.

Lemma error_masking_ok (code : text) (lines : list text) (ds : detections_state) :
  _detect_error_masking code lines ds =
  Ok (ds ++ rules_findings error_masking_rules code lines).
Proof.
  unfold _detect_error_masking, rules_findings, error_masking_rules.
  rewrite flat_map_map. apply for_each_append.
  intros pattern ds'. apply scan_ok.
Qed.

Lemma test_avoidance_ok (code : text) (lines : list text) (ds : detections_state) :
  _detect_test_avoidance code lines ds =
  Ok (ds ++ rules_findings test_avoidance_rules code lines).
Proof.
  unfold _detect_test_avoidance, rules_findings, test_avoidance_rules.
  rewrite flat_map_map. apply for_each_append.
  intros pattern ds'. apply scan_ok.
Qed.

(** *** Structural detector *)

(** [param_names[0]] is only read when [param_names] is not empty. *)
Lemma check_function_ok (node : ast) (ds : detections_state) :
  check_function node ds =
  Ok (ds ++ if qualifies node then [bypass_finding node] else []).
Proof.
  unfold check_function, qualifies, bypass_finding.
  destruct (kind_of node) as [name a lineno| | | | |];
    try (now rewrite app_nil_r).
  destruct (args a) as [|p ps] eqn:Ea; cbn [negb andb].
  - now rewrite app_nil_r.
  - destruct (existsb is_If (walk node)); cbn [negb andb].
    + now rewrite app_nil_r.
    + reflexivity.
Qed.

Lemma walk_loop_ok (tree : ast) (ds : detections_state) :
  for_each (walk tree) check_function ds = Ok (ds ++ bypass_findings tree).
Proof.
  unfold bypass_findings. rewrite <- flat_map_filter.
  apply for_each_append. apply check_function_ok.
Qed.

(** *** Duplicate-block detector *)

Lemma text_eqb_eq (a b : text) : text_eqb a b = true <-> a = b.
Proof.
  unfold text_eqb. destruct (list_eq_dec ascii_dec a b); split; congruence.
Qed.

Lemma text_eqb_refl (a : text) : text_eqb a a = true.
Proof. now apply text_eqb_eq. Qed.

Lemma dict_find_app {V : Type} (d1 d2 : list (text * V)) (k : text) :
  dict_find text_eqb (d1 ++ d2) k =
  match dict_find text_eqb d1 k with
  | Some v => Some v
  | None => dict_find text_eqb d2 k
  end.
Proof.
  induction d1 as [|[k' v] d1 IH]; simpl; [reflexivity|].
  destruct (text_eqb k' k); [reflexivity|apply IH].
Qed.

Lemma find_app {A : Type} (p : A -> bool) (l1 l2 : list A) :
  find p (l1 ++ l2) =
  match find p l1 with
  | Some x => Some x
  | None => find p l2
  end.
Proof.
  induction l1 as [|x l1 IH]; simpl; [reflexivity|].
  destruct (p x); [reflexivity|apply IH].
Qed.

Lemma find_ext {A : Type} (p q : A -> bool) (l : list A) :
  (forall x, p x = q x) -> find p l = find q l.
Proof.
  intros H; induction l as [|x l IH]; simpl; [reflexivity|].
  rewrite H, IH. reflexivity.
Qed.

(** The dictionary maps a long normalized text to the line of the first
    window that has it. *)
Lemma seen_upto_find (lines : list text) (i : nat) (k : text) :
  50 < List.length k ->
  dict_find text_eqb (seen_upto lines i) k =
  option_map (fun j => j + 1)
    (find (fun j => text_eqb (window_key lines j) k) (List.seq 0 i)).
Proof.
  intros Hk. induction i as [|i IH]; [reflexivity|].
  unfold seen_upto in *. rewrite seq_S, flat_map_app, dict_find_app, find_app.
  rewrite IH. cbn [flat_map find]. rewrite app_nil_r, !Nat.add_0_l.
  destruct (find (fun j => text_eqb (window_key lines j) k) (List.seq 0 i))
    as [j|] eqn:Ef; [reflexivity|]. cbn [option_map].
  unfold seen_entry.
  destruct (text_eqb (window_key lines i) k) eqn:Eik.
  - apply text_eqb_eq in Eik.
    assert (Hlong : (50 <? List.length (window_key lines i)) = true)
      by (apply Nat.ltb_lt; now rewrite Eik).
    rewrite Hlong. unfold first_seen.
    rewrite (find_ext _ (fun j => text_eqb (window_key lines j) k))
      by (intros; now rewrite Eik).
    rewrite Ef. simpl. rewrite Eik, text_eqb_refl. reflexivity.
  - destruct (50 <? List.length (window_key lines i)); [|reflexivity].
    destruct (first_seen lines i); [reflexivity|].
    simpl. rewrite Eik. reflexivity.
Qed.

Lemma duplicate_step_ok (lines : list text) (i : nat) (ds : detections_state) :
  duplicate_step lines i (seen_upto lines i, ds) =
  Ok (seen_upto lines (S i), ds ++ duplicate_at lines i).
Proof.
  unfold duplicate_step, duplicate_at.
  fold (window_key lines i).
  assert (Hs : seen_upto lines (S i) = seen_upto lines i ++ seen_entry lines i).
  { unfold seen_upto. rewrite seq_S, flat_map_app. cbn [flat_map].
    now rewrite app_nil_r, Nat.add_0_l. }
  rewrite Hs. unfold seen_entry, dict_index.
  destruct (50 <? List.length (window_key lines i)) eqn:Hlong.
  - apply Nat.ltb_lt in Hlong.
    rewrite (seen_upto_find lines i _ Hlong). fold (first_seen lines i).
    destruct (first_seen lines i) as [j|]; cbn [option_map bind].
    + rewrite app_nil_r. reflexivity.
    + rewrite app_nil_r. reflexivity.
  - rewrite !app_nil_r. reflexivity.
Qed.

Lemma duplicate_loop_ok (lines : list text) (n i : nat) (ds : detections_state) :
  for_each (List.seq i n) (duplicate_step lines) (seen_upto lines i, ds) =
  Ok (seen_upto lines (i + n), ds ++ flat_map (duplicate_at lines) (List.seq i n)).
Proof.
  revert i ds; induction n as [|n IH]; intros i ds;
    cbn [for_each List.seq flat_map].
  - now rewrite Nat.add_0_r, app_nil_r.
  - rewrite duplicate_step_ok; cbn [bind]. rewrite IH.
    rewrite <- app_assoc, Nat.add_succ_r. reflexivity.
Qed.

Lemma duplicate_code_ok (code : text) (lines : list text) (ds : detections_state) :
  _detect_duplicate_code code lines ds = Ok (ds ++ duplicate_findings lines).
Proof.
  unfold _detect_duplicate_code.
  change (@nil (text * nat)) with (seen_upto lines 0).
  rewrite duplicate_loop_ok. reflexivity.
Qed.

(** *** The whole analysis *)

Section Analysis.
Variable ast_parse : text -> result ast.

Lemma analyze_code_eq (code : string) :
  analyze_code ast_parse code =
  match ast_parse (of_string code) with
  | Ok tree =>
      Ok (before_parse (of_string code) ++ bypass_findings tree ++
          after_parse (of_string code))
  | Raise SyntaxError =>
      Ok (before_parse (of_string code) ++ after_parse (of_string code))
  | Raise e => Raise e
  end.
Proof.
  unfold analyze_code, before_parse, after_parse.
  rewrite silent_fallback_ok; cbn [bind app].
  rewrite warning_suppression_ok; cbn [bind].
  unfold _detect_assumption_bypass.
  destruct (ast_parse (of_string code)) as [tree|e].
  - rewrite walk_loop_ok; cbn [bind].
    rewrite duplicate_code_ok; cbn [bind].
    rewrite performance_degradation_ok; cbn [bind].
    rewrite security_shortcuts_ok; cbn [bind].
    rewrite error_masking_ok; cbn [bind].
    rewrite test_avoidance_ok; cbn [bind].
    rewrite <- !app_assoc. reflexivity.
  - destruct e; try reflexivity. cbn [bind].
    rewrite duplicate_code_ok; cbn [bind].
    rewrite performance_degradation_ok; cbn [bind].
    rewrite security_shortcuts_ok; cbn [bind].
    rewrite error_masking_ok; cbn [bind].
    rewrite test_avoidance_ok; cbn [bind].
    rewrite <- !app_assoc. reflexivity.
Qed.

End Analysis.

(** *** Parser failures *)

Import Samples.

(** The analysis returns whenever the parser returns a tree or reports a
    syntax error; a syntax error removes the structural findings only. *)
Lemma analyze_code_returns (ast_parse : text -> result ast) (code : string) :
  (forall e, ast_parse (of_string code) = Raise e -> e = SyntaxError) ->
  returns (analyze_code ast_parse code).
Proof.
  intros H. rewrite analyze_code_eq.
  destruct (ast_parse (of_string code)) as [tree|e] eqn:E.
  - eexists; reflexivity.
  - rewrite (H e eq_refl). eexists; reflexivity.
Qed.

(** C1: an exception of the parser other than [SyntaxError] is not caught
    by [_detect_assumption_bypass] and leaves [analyze_code]. *)
Theorem analyze_code_propagates_parser_error
    (ast_parse : text -> result ast) (code : string) (e : exn) :
  ast_parse (of_string code) = Raise e ->
  e <> SyntaxError ->
  analyze_code ast_parse code = Raise e.
Proof.
  intros Hparse Hne. rewrite analyze_code_eq, Hparse.
  destruct e; try reflexivity. contradiction.
Qed.

Lemma analyze_code_propagates_parser_error_witness :
  analyze_code nul_checking_parser nul_text = Raise ValueError.
Proof.
  apply analyze_code_propagates_parser_error.
  - reflexivity.
  - discriminate.
Defined.

(** *** The walk visits every node once *)

Lemma total_size_app (a b : list ast) :
  total_size (a ++ b) = total_size a + total_size b.
Proof. unfold total_size. now rewrite map_app, list_sum_app. Qed.

Lemma size_children (t : ast) : size t = S (total_size (children_of t)).
Proof. destruct t; reflexivity. Qed.

Lemma nodes_children (t : ast) : nodes t = t :: flat_map nodes (children_of t).
Proof. destruct t; reflexivity. Qed.

Lemma walk_queue_nodes (fuel : nat) (todo : list ast) :
  total_size todo <= fuel ->
  Permutation (walk_queue fuel todo) (flat_map nodes todo).
Proof.
  revert todo; induction fuel as [|fuel IH]; intros todo Hfuel.
  - destruct todo as [|t todo]; [constructor|].
    unfold total_size in Hfuel; simpl in Hfuel. rewrite size_children in Hfuel. lia.
  - destruct todo as [|t todo]; [constructor|].
    cbn [walk_queue flat_map]. rewrite nodes_children. cbn [app].
    constructor.
    rewrite IH.
    + rewrite flat_map_app. apply Permutation_app_comm.
    + rewrite total_size_app.
      unfold total_size in Hfuel |- *; simpl in Hfuel.
      rewrite size_children in Hfuel. unfold total_size in Hfuel. lia.
Qed.

Lemma walk_nodes (t : ast) : Permutation (walk t) (nodes t).
Proof.
  unfold walk. rewrite walk_queue_nodes.
  - simpl. now rewrite app_nil_r.
  - unfold total_size; simpl. lia.
Qed.

Lemma existsb_perm {A : Type} (p : A -> bool) (l1 l2 : list A) :
  Permutation l1 l2 -> existsb p l1 = existsb p l2.
Proof.
  induction 1; simpl.
  - reflexivity.
  - now rewrite IHPermutation.
  - destruct (p x), (p y); reflexivity.
  - congruence.
Qed.

(** *** Categories of the findings *)

Lemma rule_findings_category (r : rule) (code : text) (lines : list text) :
  Forall (fun d => pattern_type d = r_category r) (rule_findings r code lines).
Proof.
  unfold rule_findings. apply Forall_forall. intros d Hd.
  apply in_map_iff in Hd as (m & <- & _). reflexivity.
Qed.

Lemma filter_none {A : Type} (p : A -> bool) (l : list A) :
  Forall (fun x => p x = false) l -> filter p l = [].
Proof.
  induction 1 as [|x l Hx _ IH]; simpl; [reflexivity|]. now rewrite Hx.
Qed.

Lemma filter_all {A : Type} (p : A -> bool) (l : list A) :
  Forall (fun x => p x = true) l -> filter p l = l.
Proof.
  induction 1 as [|x l Hx _ IH]; simpl; [reflexivity|]. now rewrite Hx, IH.
Qed.

Lemma rules_findings_category (c : PatternType) (rs : list rule)
    (code : text) (lines : list text) :
  Forall (fun r => r_category r = c) rs ->
  Forall (fun d => pattern_type d = c) (rules_findings rs code lines).
Proof.
  intros H. unfold rules_findings. apply Forall_flat_map.
  eapply Forall_impl; [|exact H]. intros r Hr; cbn beta. rewrite <- Hr.
  apply rule_findings_category.
Qed.

Lemma duplicate_findings_category (lines : list text) :
  Forall (fun d => pattern_type d = DUPLICATE_CODE) (duplicate_findings lines).
Proof.
  unfold duplicate_findings. apply Forall_flat_map, Forall_forall. intros i _.
  unfold duplicate_at.
  destruct (50 <? List.length (window_key lines i)); [|constructor].
  destruct (first_seen lines i); repeat constructor.
Qed.

Lemma bypass_findings_category (tree : ast) :
  Forall (fun d => pattern_type d = ASSUMPTION_BYPASS) (bypass_findings tree).
Proof.
  unfold bypass_findings. apply Forall_forall. intros d Hd.
  apply in_map_iff in Hd as (n & <- & _).
  unfold bypass_finding. destruct (kind_of n); reflexivity.
Qed.

Ltac rule_categories := repeat constructor.

Lemma silent_fallback_rules_category :
  Forall (fun r => r_category r = SILENT_FALLBACK) silent_fallback_rules.
Proof. rule_categories. Qed.

Lemma warning_rules_category :
  Forall (fun r => r_category r = WARNING_SUPPRESSION) warning_rules.
Proof. rule_categories. Qed.

Lemma performance_rules_category :
  Forall (fun r => r_category r = PERFORMANCE_DEGRADATION) performance_rules.
Proof. rule_categories. Qed.

Lemma security_rules_category :
  Forall (fun r => r_category r = SECURITY_SHORTCUT) security_rules.
Proof. rule_categories. Qed.

Lemma error_masking_rules_category :
  Forall (fun r => r_category r = ERROR_MASKING) error_masking_rules.
Proof. rule_categories. Qed.

Lemma test_avoidance_rules_category :
  Forall (fun r => r_category r = TEST_AVOIDANCE) test_avoidance_rules.
Proof. rule_categories. Qed.

Lemma filter_other_category (c c' : PatternType) (ds : list Detection) :
  c <> c' ->
  Forall (fun d => pattern_type d = c') ds ->
  filter (has_category c) ds = [].
Proof.
  intros Hne H. apply filter_none. eapply Forall_impl; [|exact H].
  intros d Hd; cbn beta. unfold has_category. rewrite Hd.
  destruct c, c'; try reflexivity; contradiction.
Qed.

Lemma filter_same_category (c : PatternType) (ds : list Detection) :
  Forall (fun d => pattern_type d = c) ds ->
  filter (has_category c) ds = ds.
Proof.
  intros H. apply filter_all. eapply Forall_impl; [|exact H].
  intros d Hd; cbn beta. unfold has_category. rewrite Hd.
  destruct c; reflexivity.
Qed.

Lemma before_parse_filter (c : PatternType) (code : text) :
  c <> SILENT_FALLBACK -> c <> WARNING_SUPPRESSION ->
  filter (has_category c) (before_parse code) = [].
Proof.
  intros H1 H2. unfold before_parse. cbv zeta. rewrite filter_app.
  rewrite (filter_other_category c SILENT_FALLBACK)
    by (try assumption; apply rules_findings_category, silent_fallback_rules_category).
  rewrite (filter_other_category c WARNING_SUPPRESSION)
    by (try assumption; apply rules_findings_category, warning_rules_category).
  reflexivity.
Qed.

Lemma after_parse_filter_bypass (code : text) :
  filter (has_category ASSUMPTION_BYPASS) (after_parse code) = [].
Proof.
  unfold after_parse. cbv zeta. rewrite !filter_app.
  rewrite (filter_other_category _ DUPLICATE_CODE)
    by (try discriminate; apply duplicate_findings_category).
  rewrite (filter_other_category _ PERFORMANCE_DEGRADATION)
    by (try discriminate; apply rules_findings_category, performance_rules_category).
  rewrite (filter_other_category _ SECURITY_SHORTCUT)
    by (try discriminate; apply rules_findings_category, security_rules_category).
  rewrite (filter_other_category _ ERROR_MASKING)
    by (try discriminate; apply rules_findings_category, error_masking_rules_category).
  rewrite (filter_other_category _ TEST_AVOIDANCE)
    by (try discriminate; apply rules_findings_category, test_avoidance_rules_category).
  reflexivity.
Qed.

(** C9, as the code has it: after a successful parse the AssumptionBypass
    findings are, in the order of the walk, one finding for each
    [FunctionDef] node whose [args.args] is not empty and under which
    there is no [If] node; the finding is a Warning of confidence 0.7 at
    the line of the definition and names the first of [args.args]; the
    walk visits every node of the tree once. *)
Theorem assumption_bypass_findings
    (ast_parse : text -> result ast) (code : string) (tree : ast)
    (ds : list Detection) :
  ast_parse (of_string code) = Ok tree ->
  analyze_code ast_parse code = Ok ds ->
  filter (has_category ASSUMPTION_BYPASS) ds =
    map bypass_finding (filter qualifies (walk tree)) /\
  Permutation (walk tree) (nodes tree) /\
  forall node,
    (qualifies node = true <->
     exists name a lineno p ps,
       kind_of node = FunctionDef name a lineno /\
       args a = p :: ps /\
       existsb is_If (nodes node) = false /\
       bypass_finding node =
         mkDetection ASSUMPTION_BYPASS WARNING (Z.of_nat lineno)
           ("def " ++ name ++ "(" ++ String.concat ", " (args a) ++ ")")
           "Function uses parameters without validation"
           "💥 Will crash on edge cases: None, empty strings, negative numbers, etc."
           ("Add validation: if " ++ p ++ " is None: raise ValueError(...)")
           (float_lit 7 1)).
Proof.
  intros Hparse Hrun. rewrite analyze_code_eq, Hparse in Hrun.
  inversion Hrun; subst ds; clear Hrun.
  split; [|split].
  - rewrite !filter_app.
    rewrite before_parse_filter by discriminate.
    rewrite after_parse_filter_bypass, app_nil_r. cbn [app].
    apply filter_same_category, bypass_findings_category.
  - apply walk_nodes.
  - intros node. unfold qualifies, bypass_finding.
    rewrite (existsb_perm is_If _ _ (walk_nodes node)).
    destruct (kind_of node) as [name a lineno| | | | |];
      try (split; [discriminate|intros (?&?&?&?&?&?&_); discriminate]).
    destruct (args a) as [|p ps] eqn:Ea; cbn [negb andb].
    + split; [discriminate|intros (?&?&?&?&?&Hk&Ha&_)].
      inversion Hk; subst. congruence.
    + destruct (existsb is_If (nodes node)) eqn:Eif; cbn [negb].
      * split; [discriminate|intros (?&?&?&?&?&_&_&Hf&_); discriminate].
      * split; [intros _|reflexivity].
        exists name, a, lineno, p, ps. rewrite Ea. repeat split.
Qed.

Lemma assumption_bypass_findings_witness :
  filter (has_category ASSUMPTION_BYPASS)
    [bypass_finding plain_function] =
  map bypass_finding (filter qualifies (walk (module_of [plain_function]))) /\
  analyze_code (parser_returning (module_of [plain_function])) plain_text =
    Ok [bypass_finding plain_function].
Proof.
  assert (Hrun : analyze_code (parser_returning (module_of [plain_function]))
                   plain_text = Ok [bypass_finding plain_function])
    by (vm_compute; reflexivity).
  split; [|exact Hrun].
  apply (assumption_bypass_findings
           (parser_returning (module_of [plain_function])) plain_text
           (module_of [plain_function]) _ eq_refl Hrun).
Defined.

(** C9, as stated, fails: a definition whose only parameter is starred,
    and an [async] definition, declare a parameter and hold no
    conditional, yet get no finding. *)
Lemma assumption_bypass_counterexample :
  unvalidated_definition vararg_function = true /\
  analyze_code (parser_returning (module_of [vararg_function])) vararg_text = Ok [] /\
  unvalidated_definition async_function = true /\
  analyze_code (parser_returning (module_of [async_function])) async_text = Ok [].
Proof.
  repeat split; vm_compute; reflexivity.
Qed.

(** *** Order of the findings *)

Lemma sorted_nth {A : Type} (R : A -> A -> Prop) (l : list A) :
  StronglySorted R l ->
  forall i j a b,
    i < j -> nth_error l i = Some a -> nth_error l j = Some b -> R a b.
Proof.
  induction 1 as [|x l Hl IH Hx]; intros i j a b Hij Hi Hj.
  - destruct i; discriminate.
  - destruct j as [|j]; [lia|]. destruct i as [|i]; simpl in Hi, Hj.
    + inversion Hi; subst. apply nth_error_In in Hj.
      rewrite Forall_forall in Hx. now apply Hx.
    + apply (IH i j); [lia|assumption..].
Qed.

(** The matches of [finditer] start at ascending positions. *)
Lemma finditer_from_sorted (fuel : nat) (fl : flags) (r : regex) (pos : nat)
    (s : text) :
  Forall (fun m => pos <= m_start m) (finditer_from fuel fl r pos s) /\
  StronglySorted (fun a b => m_start a < m_start b) (finditer_from fuel fl r pos s).
Proof.
  revert pos s; induction fuel as [|fuel IH]; intros pos s; cbn [finditer_from].
  - split; constructor.
  - assert (Hweak : forall p q l,
              p <= q -> Forall (fun m => q <= m_start m) l ->
              Forall (fun m => p <= m_start m) l).
    { intros p q l Hpq Hl. eapply Forall_impl; [|exact Hl].
      cbn beta; intros; lia. }
    destruct (rmatch fl r s (fun rest => Some rest)) as [rest|].
    + destruct (List.length s - List.length rest) as [|len] eqn:El.
      * destruct s as [|c s'].
        -- split; repeat constructor.
        -- destruct (IH (S pos) s') as [Hge Hs]. split.
           ++ constructor; [simpl; lia|]. apply (Hweak pos (S pos)); [lia|exact Hge].
           ++ constructor; [exact Hs|].
              eapply Forall_impl; [|exact Hge]. cbn; intros; lia.
      * destruct (IH (pos + S len) rest) as [Hge Hs]. split.
        -- constructor; [simpl; lia|].
           apply (Hweak pos (pos + S len)); [lia|exact Hge].
        -- constructor; [exact Hs|].
           eapply Forall_impl; [|exact Hge]. cbn; intros; lia.
    + destruct s as [|c s']; [split; constructor|].
      destruct (IH (S pos) s') as [Hge Hs]. split; [|exact Hs].
      apply (Hweak pos (S pos)); [lia|exact Hge].
Qed.

Lemma finditer_sorted (r : regex) (s : text) (fl : flags) :
  StronglySorted (fun a b => m_start a < m_start b) (finditer r s fl).
Proof. apply finditer_from_sorted. Qed.

Lemma filter_sorted {A : Type} (R : A -> A -> Prop) (p : A -> bool) (l : list A) :
  StronglySorted R l -> StronglySorted R (filter p l).
Proof.
  induction 1 as [|x l Hl IH Hx]; simpl; [constructor|].
  destruct (p x); [|exact IH]. constructor; [exact IH|].
  rewrite Forall_forall in *. intros y Hy. apply filter_In in Hy. now apply Hx.
Qed.

Lemma map_sorted {A B : Type} (R : A -> A -> Prop) (Q : B -> B -> Prop)
    (f : A -> B) (l : list A) :
  (forall a b, R a b -> Q (f a) (f b)) ->
  StronglySorted R l -> StronglySorted Q (map f l).
Proof.
  intros HRQ; induction 1 as [|x l Hl IH Hx]; simpl; constructor.
  - exact IH.
  - apply Forall_map. eapply Forall_impl; [|exact Hx]. intros; now apply HRQ.
Qed.

(** A later position is on a later or on the same line. *)
Lemma count_newlines_firstn (code : text) (a b : nat) :
  a <= b ->
  count_newlines (firstn a code) <= count_newlines (firstn b code).
Proof.
  unfold count_newlines. revert a b; induction code as [|c code IH]; intros a b Hab.
  - now rewrite !firstn_nil.
  - destruct a as [|a]; [simpl; lia|]. destruct b as [|b]; [lia|].
    cbn [firstn filter]. specialize (IH a b ltac:(lia)).
    destruct (Ascii.eqb newline c); simpl; lia.
Qed.

Lemma rule_findings_ascending (r : rule) (code : text) (lines : list text) :
  lines_ascending (rule_findings r code lines).
Proof.
  unfold lines_ascending, rule_findings, rule_matches.
  apply sorted_nth.
  apply (map_sorted (fun a b => m_start a < m_start b)).
  - intros a b Hab. cbn [rule_finding line_number]. unfold line_num_of.
    apply inj_le. apply Nat.add_le_mono_r, count_newlines_firstn. lia.
  - apply filter_sorted, finditer_sorted.
Qed.

Lemma duplicate_range_sorted (lines : list text) (n i : nat) :
  Forall (fun d => (Z.of_nat (i + 1) <= line_number d)%Z)
    (flat_map (duplicate_at lines) (List.seq i n)) /\
  StronglySorted (fun a b => (line_number a <= line_number b)%Z)
    (flat_map (duplicate_at lines) (List.seq i n)).
Proof.
  revert i; induction n as [|n IH]; intros i; cbn [List.seq flat_map].
  - split; constructor.
  - destruct (IH (S i)) as [Hge Hs].
    assert (Hge' : Forall (fun d => (Z.of_nat (i + 1) <= line_number d)%Z)
                     (flat_map (duplicate_at lines) (List.seq (S i) n))).
    { eapply Forall_impl; [|exact Hge]. cbn beta; intros; lia. }
    unfold duplicate_at at 1 3.
    destruct (50 <? List.length (window_key lines i)); [|now split].
    destruct (first_seen lines i) as [j|]; [|now split].
    cbn [app]. split.
    + constructor; [simpl; lia|exact Hge'].
    + constructor; [exact Hs|]. exact Hge'.
Qed.

Lemma duplicate_findings_ascending (lines : list text) :
  lines_ascending (duplicate_findings lines).
Proof.
  unfold lines_ascending, duplicate_findings. apply sorted_nth.
  apply duplicate_range_sorted.
Qed.

Lemma rules_blocks_ok (rs : list rule) (code : text) (lines : list text) :
  Forall2 block_ok (map (fun r => (r_category r, true)) rs)
    (map (fun r => rule_findings r code lines) rs).
Proof.
  induction rs as [|r rs IH]; simpl; constructor; [|exact IH].
  split; cbn [fst snd].
  - apply rule_findings_category.
  - intros _. apply rule_findings_ascending.
Qed.

Lemma rules_findings_concat (rs : list rule) (code : text) (lines : list text) :
  rules_findings rs code lines =
  List.concat (map (fun r => rule_findings r code lines) rs).
Proof. unfold rules_findings. apply flat_map_concat_map. Qed.

Lemma blocks_of_concat (structural : list Detection) (code : text) :
  List.concat (blocks_of structural code) =
  before_parse code ++ structural ++ after_parse code.
Proof.
  unfold blocks_of, before_parse, after_parse. cbv zeta.
  rewrite !concat_app, !rules_findings_concat. cbn [List.concat].
  rewrite app_nil_r, <- !app_assoc. reflexivity.
Qed.

Lemma blocks_of_ok (structural : list Detection) (code : text) :
  Forall (fun d => pattern_type d = ASSUMPTION_BYPASS) structural ->
  Forall2 block_ok catalogue (blocks_of structural code).
Proof.
  intros Hs. unfold catalogue, blocks_of. cbv zeta.
  repeat apply Forall2_app; try apply rules_blocks_ok.
  constructor; [|constructor; [|constructor]].
  - split; [exact Hs|discriminate].
  - split; [apply duplicate_findings_category|].
    intros _. apply duplicate_findings_ascending.
Qed.

Lemma concat_ranks_sorted (entries : list (PatternType * bool))
    (blocks : list (list Detection)) :
  Forall2 block_ok entries blocks ->
  StronglySorted (fun a b => category_rank (fst a) <= category_rank (fst b)) entries ->
  StronglySorted
    (fun a b => category_rank (pattern_type a) <= category_rank (pattern_type b))
    (List.concat blocks) /\
  Forall (fun d => exists e, In e entries /\ pattern_type d = fst e) (List.concat blocks).
Proof.
  induction 1 as [|e b es bs [Hcat _] _ IH]; intros Hsorted; cbn [List.concat].
  - split; constructor.
  - inversion Hsorted as [|? ? Hes He]; subst.
    destruct (IH Hes) as [IHs IHin]. split.
    + clear IH. induction Hcat as [|d b Hd Hb IHb]; cbn [app]; [exact IHs|].
      constructor; [exact IHb|]. apply Forall_app. split.
      * eapply Forall_impl; [|exact Hb]. cbn beta. intros d' Hd'. rewrite Hd, Hd'. lia.
      * eapply Forall_impl; [|exact IHin]. cbn beta. intros d' (e' & Hin & Hd').
        rewrite Hd, Hd'. rewrite Forall_forall in He. now apply He.
    + apply Forall_app. split.
      * eapply Forall_impl; [|exact Hcat]. cbn beta. intros d Hd.
        exists e. split; [now left|exact Hd].
      * eapply Forall_impl; [|exact IHin]. cbn beta. intros d (e' & Hin & Hd).
        exists e'. split; [now right|exact Hd].
Qed.

Lemma catalogue_sorted :
  StronglySorted (fun a b => category_rank (fst a) <= category_rank (fst b)) catalogue.
Proof.
  repeat (constructor; [|repeat (constructor; [cbn; lia|]); constructor]).
  constructor.
Qed.

(** C7, as the code has it: the list is the concatenation of 22 blocks,
    one for each rule in the order of the catalogue, so the categories
    follow the order of the detectors; inside the block of one text rule
    and of the duplicate-block detector the matches are in ascending
    position, so the line numbers never decrease. *)
Theorem analyze_code_order
    (ast_parse : text -> result ast) (code : string) (ds : list Detection) :
  analyze_code ast_parse code = Ok ds ->
  (forall i j a b,
     i < j -> nth_error ds i = Some a -> nth_error ds j = Some b ->
     category_rank (pattern_type a) <= category_rank (pattern_type b)) /\
  exists blocks,
    ds = List.concat blocks /\ Forall2 block_ok catalogue blocks.
Proof.
  intros Hrun. rewrite analyze_code_eq in Hrun.
  assert (H : exists structural,
             Forall (fun d => pattern_type d = ASSUMPTION_BYPASS) structural /\
             ds = List.concat (blocks_of structural (of_string code))).
  { destruct (ast_parse (of_string code)) as [tree|e].
    - exists (bypass_findings tree). split; [apply bypass_findings_category|].
      rewrite blocks_of_concat. now inversion Hrun.
    - exists []. split; [constructor|].
      rewrite blocks_of_concat. destruct e; now inversion Hrun. }
  destruct H as (structural & Hs & ->).
  pose proof (blocks_of_ok structural (of_string code) Hs) as Hblocks.
  split.
  - apply sorted_nth.
    apply (concat_ranks_sorted catalogue _ Hblocks catalogue_sorted).
  - exists (blocks_of structural (of_string code)). split; [reflexivity|exact Hblocks].
Qed.

Lemma analyze_code_order_witness :
  exists ds, analyze_code rejecting_parser two_handlers = Ok ds /\
    exists blocks, ds = List.concat blocks /\ Forall2 block_ok catalogue blocks.
Proof.
  destruct (analyze_code rejecting_parser two_handlers) as [ds|e] eqn:E.
  - exists ds. split; [reflexivity|].
    apply (analyze_code_order rejecting_parser two_handlers ds E).
  - exfalso. vm_compute in E. discriminate E.
Defined.

(** C7, as stated, fails: both findings are SilentFallback, and the one of
    line 2 comes before the one of line 1. *)
Lemma analyze_code_order_counterexample :
  exists a b,
    analyze_code rejecting_parser two_handlers = Ok [a; b] /\
    pattern_type a = SILENT_FALLBACK /\ pattern_type b = SILENT_FALLBACK /\
    line_number a = 2%Z /\ line_number b = 1%Z /\
    ~ ordered_by_detector_then_position [a; b].
Proof.
  eexists; eexists. split; [vm_compute; reflexivity|].
  repeat split. intros H.
  specialize (H 0 1 _ _ ltac:(lia) eq_refl eq_refl) as [_ H].
  specialize (H eq_refl). cbn in H. lia.
Qed.

(** *** Repeated blocks *)

Lemma slice_inside {A : Type} (pre block rest : list A) (k w : nat) :
  k + w <= List.length block ->
  slice (pre ++ block ++ rest) (List.length pre + k) (List.length pre + k + w) =
  slice block k (k + w).
Proof.
  intros Hk. unfold slice.
  replace (List.length pre + k + w - (List.length pre + k)) with w by lia.
  replace (k + w - k) with w by lia.
  rewrite skipn_app, skipn_all2 by lia.
  replace (List.length pre + k - List.length pre) with k by lia.
  cbn [app]. rewrite skipn_app, firstn_app.
  rewrite length_skipn.
  replace (w - (List.length block - k)) with 0 by lia.
  rewrite firstn_O, app_nil_r. reflexivity.
Qed.

Lemma window_key_inside (pre block rest : list text) (k : nat) :
  k + block_size <= List.length block ->
  window_key (pre ++ block ++ rest) (List.length pre + k) =
  normalize_block (join_lines (slice block k (k + block_size))).
Proof.
  intros Hk. unfold window_key, block_at. now rewrite slice_inside.
Qed.

Lemma find_first_before (p : nat -> bool) (n i : nat) :
  i < n -> p i = true ->
  exists j, find p (List.seq 0 n) = Some j /\ j <= i.
Proof.
  intros Hin Hp.
  destruct (find p (List.seq 0 n)) as [j|] eqn:Ef.
  - exists j. split; [reflexivity|].
    destruct (Nat.le_gt_cases j i) as [Hle|Hgt]; [exact Hle|exfalso].
    replace n with (i + (n - i)) in Ef by lia.
    rewrite seq_app, find_app in Ef.
    destruct (find p (List.seq 0 i)) as [j'|] eqn:Ef'.
    + inversion Ef; subst j'. apply find_some in Ef' as [Hj _].
      apply in_seq in Hj. lia.
    + destruct (n - i) as [|m] eqn:Em; [lia|].
      cbn [List.seq find] in Ef. rewrite Nat.add_0_l, Hp in Ef.
      inversion Ef. lia.
  - exfalso. pose proof (find_none _ _ Ef i) as Hn.
    rewrite Hn in Hp; [discriminate|apply in_seq; lia].
Qed.

Lemma after_parse_filter_duplicate (code : text) :
  filter (has_category DUPLICATE_CODE) (after_parse code) =
  duplicate_findings (split_lines code).
Proof.
  unfold after_parse. cbv zeta. rewrite !filter_app.
  rewrite (filter_same_category DUPLICATE_CODE)
    by apply duplicate_findings_category.
  rewrite (filter_other_category _ PERFORMANCE_DEGRADATION)
    by (try discriminate; apply rules_findings_category, performance_rules_category).
  rewrite (filter_other_category _ SECURITY_SHORTCUT)
    by (try discriminate; apply rules_findings_category, security_rules_category).
  rewrite (filter_other_category _ ERROR_MASKING)
    by (try discriminate; apply rules_findings_category, error_masking_rules_category).
  rewrite (filter_other_category _ TEST_AVOIDANCE)
    by (try discriminate; apply rules_findings_category, test_avoidance_rules_category).
  now rewrite !app_nil_r.
Qed.

Lemma analyze_code_duplicates
    (ast_parse : text -> result ast) (code : string) (ds : list Detection) :
  analyze_code ast_parse code = Ok ds ->
  filter (has_category DUPLICATE_CODE) ds =
  duplicate_findings (split_lines (of_string code)).
Proof.
  intros Hrun. rewrite analyze_code_eq in Hrun.
  assert (H : exists structural,
             Forall (fun d => pattern_type d = ASSUMPTION_BYPASS) structural /\
             ds = before_parse (of_string code) ++ structural ++
                  after_parse (of_string code)).
  { destruct (ast_parse (of_string code)) as [tree|e].
    - exists (bypass_findings tree). split; [apply bypass_findings_category|].
      now inversion Hrun.
    - exists []. split; [constructor|]. destruct e; now inversion Hrun. }
  destruct H as (structural & Hs & ->).
  rewrite !filter_app, before_parse_filter by discriminate.
  rewrite (filter_other_category _ ASSUMPTION_BYPASS) by (try discriminate; exact Hs).
  apply after_parse_filter_duplicate.
Qed.

(** C8, as the code has it: every ten-line window of the second block that
    the scan reaches repeats a window of the first block; with a line
    after the second block these are three windows, so there are at least
    three DuplicateCode findings, at the start line of the second block
    and at the two lines below it, each naming the line of the first
    window with the same normalized text. *)
Theorem duplicate_blocks_three_findings
    (ast_parse : text -> result ast) (code : string)
    (pre block mid post : list text) (ds : list Detection) :
  split_lines (of_string code) = pre ++ block ++ mid ++ block ++ post ->
  List.length block = 12 ->
  1 <= List.length post ->
  (forall k, k < 3 ->
     50 < List.length (normalize_block (join_lines (slice block k (k + 10))))) ->
  analyze_code ast_parse code = Ok ds ->
  3 <= List.length (filter (has_category DUPLICATE_CODE) ds) /\
  forall k, k < 3 ->
    exists first,
      first <= List.length pre + k + 1 /\
      In (duplicate_finding (List.length pre + 12 + List.length mid + k + 1) first) ds /\
      severity (duplicate_finding (List.length pre + 12 + List.length mid + k + 1) first)
        = WARNING /\
      confidence (duplicate_finding (List.length pre + 12 + List.length mid + k + 1) first)
        = float_lit 9 1.
Proof.
  intros Hlines Hblock Hpost Hlong Hrun.
  pose proof (analyze_code_duplicates ast_parse code ds Hrun) as Hdup.
  set (lines := split_lines (of_string code)) in *.
  set (p := List.length pre).
  set (q := List.length pre + 12 + List.length mid).
  assert (Hlen : List.length lines = q + 12 + List.length post).
  { rewrite Hlines, !length_app. unfold q. lia. }
  assert (Hkey1 : forall k, k < 3 ->
            window_key lines (p + k) =
            normalize_block (join_lines (slice block k (k + 10)))).
  { intros k Hk. rewrite Hlines. unfold p.
    apply window_key_inside. unfold block_size. lia. }
  assert (Hkey2 : forall k, k < 3 ->
            window_key lines (q + k) =
            normalize_block (join_lines (slice block k (k + 10)))).
  { intros k Hk. rewrite Hlines.
    replace (pre ++ block ++ mid ++ block ++ post)
      with ((pre ++ block ++ mid) ++ block ++ post)
      by (now rewrite <- !app_assoc).
    replace q with (List.length (pre ++ block ++ mid))
      by (rewrite !length_app; unfold q; lia).
    apply window_key_inside. unfold block_size. lia. }
  assert (Hat : forall k, k < 3 ->
            exists j, j <= p + k /\
              duplicate_at lines (q + k) = [duplicate_finding (q + k + 1) (j + 1)]).
  { intros k Hk. unfold duplicate_at.
    rewrite (Hkey2 k Hk).
    pose proof (Hlong k Hk) as Hl. apply Nat.ltb_lt in Hl. rewrite Hl.
    destruct (find_first_before
                (fun j => text_eqb (window_key lines j) (window_key lines (q + k)))
                (q + k) (p + k)) as (j & Hj & Hle).
    - unfold p, q. lia.
    - apply text_eqb_eq. now rewrite Hkey1, Hkey2.
    - exists j. split; [exact Hle|]. unfold first_seen. now rewrite Hj. }
  assert (Hseq : List.seq 0 (List.length lines - block_size) =
                 List.seq 0 q ++ [q + 0; q + 1; q + 2] ++
                 List.seq (q + 3) (List.length post - 1)).
  { rewrite Hlen. unfold block_size.
    replace (q + 12 + List.length post - 10)
      with (q + (3 + (List.length post - 1))) by lia.
    rewrite seq_app, (seq_app 3). cbn [List.seq app].
    rewrite !Nat.add_0_l. repeat f_equal; lia. }
  destruct (Hat 0 ltac:(lia)) as (j0 & Hj0 & Hat0).
  destruct (Hat 1 ltac:(lia)) as (j1 & Hj1 & Hat1).
  destruct (Hat 2 ltac:(lia)) as (j2 & Hj2 & Hat2).
  assert (Hall : duplicate_findings lines =
                 flat_map (duplicate_at lines) (List.seq 0 q) ++
                 [duplicate_finding (q + 0 + 1) (j0 + 1);
                  duplicate_finding (q + 1 + 1) (j1 + 1);
                  duplicate_finding (q + 2 + 1) (j2 + 1)] ++
                 flat_map (duplicate_at lines)
                   (List.seq (q + 3) (List.length post - 1))).
  { unfold duplicate_findings. rewrite Hseq, !flat_map_app.
    cbn [flat_map]. rewrite Hat0, Hat1, Hat2. reflexivity. }
  split.
  - rewrite Hdup, Hall, !length_app. simpl List.length. lia.
  - intros k Hk.
    assert (Hin : forall d, In d (duplicate_findings lines) -> In d ds).
    { intros d Hd. rewrite <- Hdup in Hd. now apply filter_In in Hd. }
    assert (Hk3 : k = 0 \/ k = 1 \/ k = 2) by lia.
    destruct Hk3 as [-> | [-> | ->]].
    + exists (j0 + 1). split; [unfold p in Hj0; lia|].
      split; [|split; reflexivity].
      apply Hin. rewrite Hall. apply in_or_app; right. now left.
    + exists (j1 + 1). split; [unfold p in Hj1; lia|].
      split; [|split; reflexivity].
      apply Hin. rewrite Hall. apply in_or_app; right. right. now left.
    + exists (j2 + 1). split; [unfold p in Hj2; lia|].
      split; [|split; reflexivity].
      apply Hin. rewrite Hall. apply in_or_app; right. right. right. now left.
Qed.

Lemma duplicate_blocks_three_findings_witness :
  exists ds,
    analyze_code (parser_returning (module_of [])) duplicate_sample = Ok ds /\
    3 <= List.length (filter (has_category DUPLICATE_CODE) ds).
Proof.
  destruct (analyze_code (parser_returning (module_of [])) duplicate_sample)
    as [ds|e] eqn:E.
  - exists ds. split; [reflexivity|].
    refine (proj1 (duplicate_blocks_three_findings
                     (parser_returning (module_of [])) duplicate_sample
                     [] (map of_string block12) (map of_string unrelated2)
                     [of_string "done = True"] ds _ _ _ _ E)).
    + vm_compute; reflexivity.
    + reflexivity.
    + simpl; lia.
    + intros k Hk.
      assert (Hk3 : k = 0 \/ k = 1 \/ k = 2) by lia.
      destruct Hk3 as [-> | [-> | ->]]; apply Nat.ltb_lt; vm_compute; reflexivity.
  - exfalso. vm_compute in E. discriminate E.
Defined.

(** C8, as stated, fails: the sample holds the same twelve lines twice,
    each line longer than five characters, with two other lines between
    them, and gets three DuplicateCode findings, at lines 15, 16 and 17. *)
Lemma duplicate_blocks_counterexample :
  split_lines (of_string duplicate_sample) =
    map of_string (block12 ++ unrelated2 ++ block12 ++ ["done = True"%string]) /\
  Forall (fun l => 5 < String.length l) block12 /\
  exists d1 d2 d3,
    analyze_code (parser_returning (module_of [])) duplicate_sample =
      Ok [d1; d2; d3] /\
    map pattern_type [d1; d2; d3] =
      [DUPLICATE_CODE; DUPLICATE_CODE; DUPLICATE_CODE] /\
    map line_number [d1; d2; d3] = [15; 16; 17]%Z /\
    map code_snippet [d1; d2; d3] =
      [ "Duplicate block at line 15 (also at 1)";
        "Duplicate block at line 16 (also at 2)";
        "Duplicate block at line 17 (also at 3)" ]%string.
Proof.
  split; [vm_compute; reflexivity|].
  split; [repeat constructor|].
  do 3 eexists. split; [vm_compute; reflexivity|].
  repeat split.
Qed.

End DetectorFacts.

(** * More properties of the detector *)

Local Close Scope Z_scope.
Local Open Scope nat_scope.

Module AnalysisFacts.
Import Text Re Ast Detector Findings Observed DetectorFacts.

(** *** The shape of the result *)

Lemma analyze_code_parts (ast_parse : text -> result ast) (code : string)
    (ds : list Detection) :
  analyze_code ast_parse code = Ok ds ->
  exists tree_nodes,
    ds = before_parse (of_string code) ++ map bypass_finding tree_nodes ++
         after_parse (of_string code).
Proof.
  intros Hrun. rewrite analyze_code_eq in Hrun.
  destruct (ast_parse (of_string code)) as [tree|e].
  - exists (filter qualifies (walk tree)). now inversion Hrun.
  - exists []. destruct e; now inversion Hrun.
Qed.

Lemma rules_findings_forall (P : Detection -> Prop) (rs : list rule)
    (code : text) (lines : list text) :
  (forall r m, In r rs -> In m (rule_matches r code) ->
               P (rule_finding r code lines m)) ->
  Forall P (rules_findings rs code lines).
Proof.
  intros H. unfold rules_findings. apply Forall_flat_map, Forall_forall.
  intros r Hr. unfold rule_findings. apply Forall_forall. intros d Hd.
  apply in_map_iff in Hd as (m & <- & Hm). now apply H.
Qed.

Lemma text_findings_forall (P : Detection -> Prop) (code : text) :
  (forall r m, In r text_rules -> In m (rule_matches r code) ->
               P (rule_finding r code (split_lines code) m)) ->
  Forall P (duplicate_findings (split_lines code)) ->
  Forall P (before_parse code) /\ Forall P (after_parse code).
Proof.
  intros Hr Hd. unfold before_parse, after_parse. cbv zeta.
  rewrite !Forall_app.
  repeat split; try exact Hd; apply rules_findings_forall;
    intros r m Hin Hm; apply Hr; try exact Hm;
    unfold text_rules; rewrite !in_app_iff; tauto.
Qed.

(** X1: no step of a detector raises: the indexings [lines[line_num-1]],
    [seen_blocks[normalized]] and [param_names[0]] are guarded, and the
    only exceptions that leave [analyze_code] are those of the parser
    other than [SyntaxError]. *)
Theorem analyze_code_returns_iff (ast_parse : text -> result ast) (code : string) :
  returns (analyze_code ast_parse code) <-> parses_or_rejects ast_parse code.
Proof.
  unfold parses_or_rejects. rewrite analyze_code_eq. split.
  - intros [ds Hds] e He. rewrite He in Hds. destruct e; try discriminate Hds.
    reflexivity.
  - intros H. destruct (ast_parse (of_string code)) as [tree|e].
    + eexists; reflexivity.
    + rewrite (H e eq_refl). eexists; reflexivity.
Qed.

(** *** Severities and confidences *)

Lemma text_rules_graded :
  Forall (fun r => In (r_severity r, r_confidence r) (grades (r_category r)))
    text_rules.
Proof.
  unfold text_rules, silent_fallback_rules, warning_rules, warning_patterns,
    performance_rules, nested_loop_rule, api_in_loop_rule, security_rules,
    security_patterns, error_masking_rules, generic_errors,
    test_avoidance_rules, skip_patterns.
  cbn [map app].
  repeat (constructor;
          [cbn [r_severity r_confidence r_category grades In]; auto 6|]).
  constructor.
Qed.

(** X2: every finding has a severity and a confidence from the short
    table of its category: a security shortcut is always critical with
    confidence 0.95, a structural or duplicate finding always a warning,
    an error-masking finding always an info. *)
Theorem analyze_code_grades (ast_parse : text -> result ast) (code : string)
    (ds : list Detection) :
  analyze_code ast_parse code = Ok ds -> Forall graded ds.
Proof.
  intros Hrun. apply analyze_code_parts in Hrun as (ns & ->).
  destruct (text_findings_forall graded (of_string code)) as [Hb Ha].
  - intros r m Hr _. unfold graded, rule_finding.
    cbn [severity confidence pattern_type].
    pose proof text_rules_graded as H. rewrite Forall_forall in H. now apply H.
  - unfold duplicate_findings. apply Forall_flat_map, Forall_forall. intros i _.
    unfold duplicate_at.
    destruct (50 <? List.length (window_key (split_lines (of_string code)) i));
      [|constructor].
    destruct (first_seen (split_lines (of_string code)) i); [|constructor].
    constructor; [|constructor]. left. reflexivity.
  - rewrite !Forall_app. repeat split; try assumption.
    apply Forall_forall. intros d Hd. apply in_map_iff in Hd as (n & <- & _).
    unfold graded, bypass_finding. destruct (kind_of n); left; reflexivity.
Qed.

Lemma analyze_code_grades_witness :
  exists ds, analyze_code Samples.rejecting_parser Samples.two_handlers = Ok ds /\
             Forall graded ds.
Proof.
  eexists. split; [vm_compute; reflexivity|].
  eapply (analyze_code_grades Samples.rejecting_parser Samples.two_handlers).
  vm_compute. reflexivity.
Defined.

(** *** Line numbers *)

Lemma split_lines_length (s : text) :
  List.length (split_lines s) = count_newlines s + 1.
Proof.
  unfold count_newlines. induction s as [|c s IH]; [reflexivity|].
  cbn [split_lines filter].
  replace (Ascii.eqb newline c) with (Ascii.eqb c newline) by apply Ascii.eqb_sym.
  destruct (Ascii.eqb c newline).
  - cbn [List.length]. lia.
  - destruct (split_lines s) as [|l ls]; cbn [List.length] in *; lia.
Qed.

Lemma count_newlines_prefix (code : text) (k : nat) :
  count_newlines (firstn k code) <= count_newlines code.
Proof.
  destruct (Nat.le_gt_cases k (List.length code)) as [H|H].
  - rewrite <- (firstn_all code) at 2. now apply count_newlines_firstn.
  - rewrite firstn_all2 by lia. lia.
Qed.

Lemma first_seen_positive (lines : list text) (i j : nat) :
  first_seen lines i = Some j -> 1 <= i.
Proof.
  unfold first_seen. destruct i; [discriminate|lia].
Qed.

(** X3: a finding of a text rule or of the duplicate detector lies on a
    line of the text, so the guard [line_num <= len(lines)] of the
    snippet never takes its other branch. *)
Theorem analyze_code_lines (ast_parse : text -> result ast) (code : string)
    (ds : list Detection) :
  analyze_code ast_parse code = Ok ds -> Forall (inside_text code) ds.
Proof.
  intros Hrun. apply analyze_code_parts in Hrun as (ns & ->).
  destruct (text_findings_forall (inside_text code) (of_string code)) as [Hb Ha].
  - intros r m _ _. right. unfold rule_finding, line_num_of. cbn [line_number].
    rewrite split_lines_length.
    pose proof (count_newlines_prefix (of_string code) (m_start m)). lia.
  - unfold duplicate_findings. apply Forall_flat_map, Forall_forall. intros i Hi.
    apply in_seq in Hi. unfold duplicate_at.
    destruct (50 <? List.length (window_key (split_lines (of_string code)) i));
      [|constructor].
    destruct (first_seen (split_lines (of_string code)) i); [|constructor].
    constructor; [|constructor]. right. cbn [duplicate_finding line_number].
    unfold block_size in Hi. lia.
  - rewrite !Forall_app. repeat split; try assumption.
    apply Forall_forall. intros d Hd. apply in_map_iff in Hd as (n & <- & _).
    left. unfold bypass_finding. destruct (kind_of n); reflexivity.
Qed.

Lemma analyze_code_lines_witness :
  exists ds, analyze_code Samples.rejecting_parser Samples.two_handlers = Ok ds /\
             Forall (inside_text Samples.two_handlers) ds.
Proof.
  eexists. split; [vm_compute; reflexivity|].
  eapply (analyze_code_lines Samples.rejecting_parser Samples.two_handlers).
  vm_compute. reflexivity.
Defined.

(** X4: a duplicate is never reported on the first line, and never for a
    window that starts in the last ten lines: the loop stops one window
    short, so a copy that ends with the text goes unreported, and a text
    of at most eleven lines has no duplicate finding. *)
Theorem analyze_code_duplicate_lines (ast_parse : text -> result ast)
    (code : string) (ds : list Detection) :
  analyze_code ast_parse code = Ok ds -> Forall (inside_windows code) ds.
Proof.
  intros Hrun. pose proof (analyze_code_duplicates _ _ _ Hrun) as Hdup.
  apply Forall_forall. intros d Hd Hcat.
  assert (Hin : In d (duplicate_findings (split_lines (of_string code)))).
  { rewrite <- Hdup. apply filter_In. split; [exact Hd|].
    unfold has_category. now rewrite Hcat. }
  unfold duplicate_findings in Hin. apply in_flat_map in Hin as (i & Hi & Hin).
  apply in_seq in Hi. unfold duplicate_at in Hin.
  destruct (50 <? List.length (window_key (split_lines (of_string code)) i));
    [|contradiction].
  destruct (first_seen (split_lines (of_string code)) i) as [j|] eqn:Ej;
    [|contradiction].
  apply first_seen_positive in Ej.
  destruct Hin as [<-|[]]. cbn [duplicate_finding line_number].
  unfold block_size in Hi. lia.
Qed.

Lemma analyze_code_duplicate_lines_witness :
  exists ds,
    analyze_code Samples.rejecting_parser Samples.duplicate_sample = Ok ds /\
    Forall (inside_windows Samples.duplicate_sample) ds.
Proof.
  eexists. split; [vm_compute; reflexivity|].
  eapply (analyze_code_duplicate_lines Samples.rejecting_parser
            Samples.duplicate_sample).
  vm_compute. reflexivity.
Defined.

(** *** Plain-text rules *)

Lemma chr_matches_refl (fl : flags) (c : ascii) : chr_matches fl c c = true.
Proof. unfold chr_matches. destruct (IGNORECASE fl); apply Ascii.eqb_refl. Qed.

Lemma rmatch_lit_text (fl : flags) (needle s : text) (k : text -> option text) :
  starts_with needle s = true ->
  rmatch fl (lit_text needle) s k = k (skipn (List.length needle) s).
Proof.
  revert s; induction needle as [|a needle IH]; intros s H; [reflexivity|].
  destruct s as [|b s]; [discriminate|].
  cbn [starts_with] in H. apply andb_prop in H as [Hab Hrest].
  apply Ascii.eqb_eq in Hab. subst b.
  cbn [List.length skipn].
  destruct needle as [|a' needle].
  - cbn [lit_text rmatch]. now rewrite chr_matches_refl.
  - change (lit_text (a :: a' :: needle))
      with (Seq (Chr a) (lit_text (a' :: needle))).
    cbn [rmatch]. rewrite chr_matches_refl. now apply IH.
Qed.

Lemma finditer_from_contains (fl : flags) (needle : text) (s : text) :
  forall fuel pos,
    contains needle s = true -> List.length s < fuel ->
    finditer_from fuel fl (lit_text needle) pos s <> [].
Proof.
  induction s as [|c s IH]; intros fuel pos Hc Hfuel;
    (destruct fuel as [|fuel]; [lia|]); cbn [finditer_from].
  - cbn [contains] in Hc. rewrite orb_false_r in Hc.
    rewrite (rmatch_lit_text _ _ _ _ Hc). discriminate.
  - cbn [contains] in Hc.
    destruct (starts_with needle (c :: s)) eqn:Es.
    + rewrite (rmatch_lit_text _ _ _ _ Es). discriminate.
    + cbn [orb] in Hc.
      destruct (rmatch fl (lit_text needle) (c :: s) (fun rest => Some rest));
        [discriminate|].
      apply IH; [exact Hc|cbn [List.length] in Hfuel; lia].
Qed.

Lemma literal_rule_findings (r : rule) (needle : string) (code : text)
    (lines : list text) :
  r_pattern r = lit needle -> r_keep r = always ->
  contains (of_string needle) code = true ->
  exists d, In d (rule_findings r code lines) /\
            pattern_type d = r_category r /\ severity d = r_severity r /\
            description d = r_description r.
Proof.
  intros Hp Hk Hc. unfold rule_findings, rule_matches. rewrite Hp, Hk.
  unfold always. rewrite filter_always.
  pose proof (finditer_from_contains (r_flags r) (of_string needle) code
                (S (List.length code)) 0 Hc ltac:(lia)) as Hne.
  fold (lit needle) in Hne.
  change (finditer_from (S (List.length code)) (r_flags r) (lit needle) 0 code)
    with (finditer (lit needle) code (r_flags r)) in Hne.
  destruct (finditer (lit needle) code (r_flags r)) as [|m ms]; [contradiction|].
  exists (rule_finding r code lines m). split; [now left|].
  repeat split.
Qed.

Lemma literal_rules_present :
  Forall (fun '(needle, (c, s, desc)) =>
            exists r, In r text_rules /\ r_pattern r = lit needle /\
                      r_keep r = always /\ r_category r = c /\
                      r_severity r = s /\ r_description r = desc)
    literal_rules.
Proof.
  assert (Hs : forall r, In r security_rules -> In r text_rules)
    by (intros r H; unfold text_rules; rewrite !in_app_iff; tauto).
  assert (Ht : forall r, In r test_avoidance_rules -> In r text_rules)
    by (intros r H; unfold text_rules; rewrite !in_app_iff; tauto).
  unfold literal_rules.
  repeat constructor.
  - eexists. split; [apply Hs; unfold security_rules, security_patterns;
                     cbn [map]; right; left; reflexivity|]. repeat split.
  - eexists. split; [apply Hs; unfold security_rules, security_patterns;
                     cbn [map]; right; right; left; reflexivity|]. repeat split.
  - eexists. split; [apply Ht; unfold test_avoidance_rules, skip_patterns;
                     cbn [map]; left; reflexivity|]. repeat split.
  - eexists. split; [apply Ht; unfold test_avoidance_rules, skip_patterns;
                     cbn [map]; right; left; reflexivity|]. repeat split.
  - eexists. split; [apply Ht; unfold test_avoidance_rules, skip_patterns;
                     cbn [map]; right; right; left; reflexivity|]. repeat split.
Qed.

Lemma text_rule_reported (ast_parse : text -> result ast) (code : string)
    (ds : list Detection) (r : rule) (d : Detection) :
  analyze_code ast_parse code = Ok ds ->
  In r text_rules ->
  In d (rule_findings r (of_string code) (split_lines (of_string code))) ->
  In d ds.
Proof.
  intros Hrun Hr Hd. apply analyze_code_parts in Hrun as (ns & ->).
  unfold before_parse, after_parse. cbv zeta. unfold text_rules in Hr.
  assert (Hflat : forall rs, In r rs ->
            In d (rules_findings rs (of_string code) (split_lines (of_string code)))).
  { intros rs Hin. unfold rules_findings. apply in_flat_map. now exists r. }
  rewrite !in_app_iff in Hr. rewrite !in_app_iff.
  destruct Hr as [H|[H|[H|[H|[H|H]]]]]; apply Hflat in H; tauto.
Qed.

(** X5: a text that holds [eval(], [exec(], [@pytest.mark.skip],
    [@unittest.skip] or [skipTest(] gets a finding of the rule of that
    text, whenever the analysis returns: critical for the first two. *)
Theorem analyze_code_reports_literal (ast_parse : text -> result ast)
    (code : string) (ds : list Detection)
    (needle : string) (c : PatternType) (s : Severity) (desc : string) :
  In (needle, (c, s, desc)) literal_rules ->
  contains (of_string needle) (of_string code) = true ->
  analyze_code ast_parse code = Ok ds ->
  Exists (fun d => pattern_type d = c /\ severity d = s /\ description d = desc) ds.
Proof.
  intros Hin Hc Hrun.
  pose proof literal_rules_present as H. rewrite Forall_forall in H.
  specialize (H _ Hin). cbn beta iota in H.
  destruct H as (r & Hr & Hp & Hk & <- & <- & <-).
  destruct (literal_rule_findings r needle (of_string code)
              (split_lines (of_string code)) Hp Hk Hc) as (d & Hd & H1 & H2 & H3).
  apply Exists_exists. exists d. split; [|now repeat split].
  eapply text_rule_reported; eassumption.
Qed.

Lemma analyze_code_reports_literal_witness :
  exists ds,
    analyze_code Samples.rejecting_parser "value = eval(text)" = Ok ds /\
    Exists (fun d => pattern_type d = SECURITY_SHORTCUT /\ severity d = CRITICAL /\
                     description d = "eval() allows arbitrary code execution"%string)
      ds.
Proof.
  eexists. split; [vm_compute; reflexivity|].
  eapply (analyze_code_reports_literal Samples.rejecting_parser
            "value = eval(text)" _ "eval(").
  - left. reflexivity.
  - vm_compute. reflexivity.
  - vm_compute. reflexivity.
Defined.

(** *** A syntax error *)

Lemma text_rules_unstructured :
  Forall (fun r => PatternType_eqb (r_category r) ASSUMPTION_BYPASS = false)
    text_rules.
Proof.
  unfold text_rules, silent_fallback_rules, warning_rules, warning_patterns,
    performance_rules, nested_loop_rule, api_in_loop_rule, security_rules,
    security_patterns, error_masking_rules, generic_errors,
    test_avoidance_rules, skip_patterns.
  cbn [map app].
  repeat (constructor; [reflexivity|]). constructor.
Qed.

Lemma text_findings_unstructured (code : text) :
  Forall (fun d => unstructured d = true) (before_parse code) /\
  Forall (fun d => unstructured d = true) (after_parse code).
Proof.
  apply text_findings_forall.
  - intros r m Hr _. unfold unstructured, has_category, rule_finding.
    cbn [pattern_type].
    pose proof text_rules_unstructured as H. rewrite Forall_forall in H.
    now rewrite (H r Hr).
  - eapply Forall_impl; [|apply duplicate_findings_category].
    intros d Hd. unfold unstructured, has_category. now rewrite Hd.
Qed.

(** X24: a syntax error removes the structural findings and nothing
    else: when the parser rejects the text, [analyze_code] returns the
    findings it returns for a parsed text, in the same order, without
    those of the structural detector. *)
Theorem syntax_error_drops_structural_only
    (rejecting ast_parse : text -> result ast) (code : string) (tree : ast)
    (ds : list Detection) :
  rejecting (of_string code) = Raise SyntaxError ->
  ast_parse (of_string code) = Ok tree ->
  analyze_code ast_parse code = Ok ds ->
  analyze_code rejecting code = Ok (filter unstructured ds).
Proof.
  intros Hr Hp Hrun. rewrite analyze_code_eq, Hp in Hrun. inversion Hrun; subst ds.
  rewrite analyze_code_eq, Hr. f_equal.
  destruct (text_findings_unstructured (of_string code)) as [Hb Ha].
  rewrite !filter_app, (filter_all _ _ Hb), (filter_all _ _ Ha).
  rewrite (filter_none unstructured (bypass_findings tree)); [reflexivity|].
  eapply Forall_impl; [|apply bypass_findings_category].
  intros d Hd. unfold unstructured, has_category. now rewrite Hd.
Qed.

Lemma syntax_error_drops_structural_only_witness :
  exists ds,
    analyze_code (Samples.parser_returning (Samples.module_of [Samples.plain_function]))
      Samples.plain_text = Ok ds /\
    analyze_code Samples.rejecting_parser Samples.plain_text =
    Ok (filter unstructured ds).
Proof.
  eexists. split; [vm_compute; reflexivity|].
  eapply (syntax_error_drops_structural_only Samples.rejecting_parser
            (Samples.parser_returning (Samples.module_of [Samples.plain_function]))
            Samples.plain_text).
  - reflexivity.
  - reflexivity.
  - vm_compute. reflexivity.
Defined.

(** *** Which windows are reported *)

Lemma find_first_spec (p : nat -> bool) (n j : nat) :
  find p (List.seq 0 n) = Some j <->
  j < n /\ p j = true /\ forall k, k < j -> p k = false.
Proof.
  revert j. induction n as [|n IH]; intros j.
  - cbn [List.seq find]. split; [discriminate|intros [H _]; lia].
  - rewrite seq_S, find_app, Nat.add_0_l. cbn [find].
    destruct (find p (List.seq 0 n)) as [j'|] eqn:Ef.
    + destruct (proj1 (IH j') eq_refl) as (Hj1 & Hp1 & Hmin1).
      split.
      * intros H. inversion H; subst j'. repeat split; auto.
      * intros (Hj & Hp & Hmin). f_equal.
        destruct (Nat.lt_trichotomy j j') as [Hlt|[Heq|Hgt]];
          [|exact (eq_sym Heq)|].
        -- rewrite (Hmin1 j Hlt) in Hp. discriminate.
        -- rewrite (Hmin j' Hgt) in Hp1. discriminate.
    + pose proof (find_none _ _ Ef) as Hnone.
      destruct (p n) eqn:Epn.
      * split.
        -- intros H. inversion H; subst j. repeat split; [lia|exact Epn|].
           intros k Hk. apply Hnone. apply in_seq. lia.
        -- intros (Hj & Hp & Hmin). f_equal.
           destruct (Nat.eq_dec j n) as [->|Hne]; [reflexivity|].
           rewrite (Hnone j) in Hp; [discriminate|apply in_seq; lia].
      * split; [discriminate|].
        intros (Hj & Hp & Hmin).
        destruct (Nat.eq_dec j n) as [->|Hne]; [congruence|].
        rewrite (Hnone j) in Hp; [discriminate|apply in_seq; lia].
Qed.

Lemma first_seen_spec (lines : list text) (i j : nat) :
  first_seen lines i = Some j <->
  j < i /\ window_key lines j = window_key lines i /\
  forall k, k < j -> window_key lines k <> window_key lines i.
Proof.
  unfold first_seen. rewrite find_first_spec. split.
  - intros (Hj & Hp & Hmin). split; [exact Hj|]. split; [now apply text_eqb_eq|].
    intros k Hk Heq. apply text_eqb_eq in Heq. rewrite (Hmin k Hk) in Heq.
    discriminate.
  - intros (Hj & Hp & Hmin). split; [exact Hj|]. split; [now apply text_eqb_eq|].
    intros k Hk. destruct (text_eqb (window_key lines k) (window_key lines i)) eqn:E;
      [|reflexivity].
    apply text_eqb_eq in E. now apply Hmin in E.
Qed.

(** X25: the duplicate findings are exactly the scanned windows that
    repeat an earlier window: a window whose normalized text is longer
    than 50 characters and equal to that of an earlier window is
    reported at its first line, naming the first line of the first
    window with that text; nothing else is reported as a duplicate. *)
Theorem duplicate_findings_exact (ast_parse : text -> result ast)
    (code : string) (ds : list Detection) (d : Detection) :
  analyze_code ast_parse code = Ok ds ->
  (In d ds /\ pattern_type d = DUPLICATE_CODE <->
   exists i j, repeats (split_lines (of_string code)) i j /\
               d = duplicate_finding (i + 1) (j + 1)).
Proof.
  intros Hrun. pose proof (analyze_code_duplicates _ _ _ Hrun) as Hdup.
  set (lines := split_lines (of_string code)) in *.
  assert (Hfilter : In d ds /\ pattern_type d = DUPLICATE_CODE <->
                    In d (duplicate_findings lines)).
  { rewrite <- Hdup, filter_In. unfold has_category. split.
    - intros [Hin Hc]. split; [exact Hin|]. now rewrite Hc.
    - intros [Hin Hc]. split; [exact Hin|].
      destruct (pattern_type d); try discriminate Hc. reflexivity. }
  rewrite Hfilter. unfold duplicate_findings. rewrite in_flat_map. split.
  - intros (i & Hi & Hin). apply in_seq in Hi. unfold duplicate_at in Hin.
    destruct (50 <? List.length (window_key lines i)) eqn:Hlong; [|contradiction].
    apply Nat.ltb_lt in Hlong.
    destruct (first_seen lines i) as [j|] eqn:Ej; [|contradiction].
    destruct Hin as [<-|[]]. apply first_seen_spec in Ej as (Hj & Heq & Hmin).
    exists i, j. split; [|reflexivity].
    unfold repeats. repeat split; try assumption; lia.
  - intros (i & j & (Hi & Hj & Hlong & Heq & Hmin) & ->).
    exists i. split; [apply in_seq; lia|].
    unfold duplicate_at. rewrite (proj2 (Nat.ltb_lt _ _) Hlong).
    rewrite (proj2 (first_seen_spec lines i j)) by (repeat split; assumption).
    now left.
Qed.

Lemma duplicate_findings_exact_witness :
  exists ds,
    analyze_code Samples.rejecting_parser Samples.duplicate_sample = Ok ds /\
    (In (duplicate_finding 15 1) ds /\
     pattern_type (duplicate_finding 15 1) = DUPLICATE_CODE <->
     exists i j, repeats (split_lines (of_string Samples.duplicate_sample)) i j /\
                 duplicate_finding 15 1 = duplicate_finding (i + 1) (j + 1)).
Proof.
  eexists. split; [vm_compute; reflexivity|].
  eapply (duplicate_findings_exact Samples.rejecting_parser Samples.duplicate_sample).
  vm_compute. reflexivity.
Defined.

End AnalysisFacts.

(** * More properties of the impact assessor *)

Local Close Scope nat_scope.
Local Open Scope Z_scope.

Module ScoreFacts.
Import FloatValue FloatFacts Observed.

(** *** The weighted total is monotone *)

Lemma float_of_int_small (p : Z) :
  0 <= p <= 100 ->
  exists F, float_of_int p = Ok F /\ nonneg F /\ val F = rnd 1 (p * 2 ^ K) /\
            val F <= 190 * 2 ^ K.
Proof.
  intros Hp. pose proof pow2_K_pos as HpK.
  destruct (Z.eq_dec p 0) as [->|Hnz].
  - exists fzero. rewrite Z.mul_0_l, rnd_0 by lia.
    repeat split; cbn [fzero val nonneg]; try exact I; lia.
  - destruct (float_of_int_pos p) as (F & HF & HnF & HvF).
    + split; [lia|]. assert (2 ^ 7 <= 2 ^ 1023) by (apply pow2_le; lia).
      change (2 ^ 7) with 128 in H. lia.
    + exists F. repeat split; try assumption.
      rewrite HvF. apply Z.le_trans with (rnd 1 (2 ^ (K + 7))).
      * apply rnd_mono; [lia|]. rewrite Z.pow_add_r by (unfold K; lia).
        change (2 ^ 7) with 128. nia.
      * rewrite rnd_pow2 by (unfold Emin, K; lia).
        rewrite Z.pow_add_r by (unfold K; lia). change (2 ^ 7) with 128. lia.
Qed.

Lemma int_mul_float_mono (p q : Z) (c : float) :
  0 <= p <= q -> q <= 100 -> valid_confidence c ->
  exists f g, int_mul_float p c = Ok f /\ int_mul_float q c = Ok g /\
              nonneg f /\ nonneg g /\ val f <= val g /\ val g <= 190 * 2 ^ K.
Proof.
  intros Hpq Hq Hc. pose proof pow2_K_pos as HpK.
  destruct (float_of_int_small p ltac:(lia)) as (F & HF & HnF & HvF & HbF).
  destruct (float_of_int_small q ltac:(lia)) as (G & HG & HnG & HvG & HbG).
  unfold int_mul_float. rewrite HF, HG. cbn [bind].
  exists (fmul F c), (fmul G c).
  destruct (fmul_confidence F c HnF HbF Hc) as (Hn1 & Hb1 & _).
  destruct (fmul_confidence G c HnG HbG Hc) as (Hn2 & Hb2 & _).
  repeat split; try assumption.
  apply fmul_confidence_mono; try assumption.
  rewrite HvF, HvG. apply rnd_mono; [lia|nia].
Qed.

Lemma small_below_sum : 190 * 2 ^ K <= 2 ^ (K + 61).
Proof.
  pose proof pow2_K_pos.
  assert (H8 : 2 ^ (K + 8) <= 2 ^ (K + 61)) by (apply pow2_le; unfold K; lia).
  rewrite Z.pow_add_r in H8 by (unfold K; lia). change (2 ^ 8) with 256 in H8. lia.
Qed.

(** The total of three metrics between 0 and 100 is returned, and it is
    monotone in each of them. *)
Lemma weighted_total_mono (p s m p' s' m' : Z) :
  0 <= p <= p' -> p' <= 100 -> 0 <= s <= s' -> s' <= 100 ->
  0 <= m <= m' -> m' <= 100 ->
  exists t t',
    ScoringSpec.weighted_total p s m = Ok t /\
    ScoringSpec.weighted_total p' s' m' = Ok t' /\
    0 <= t <= t'.
Proof.
  intros Hp Hp' Hs Hs' Hm Hm'. pose proof pow2_K_pos as HpK.
  pose proof small_below_sum as Hsmall.
  unfold ScoringSpec.weighted_total.
  destruct (int_mul_float_mono p p' _ Hp Hp' valid_confidence_03)
    as (a & a' & -> & -> & Ha & Ha' & Hla & Hba).
  destruct (int_mul_float_mono s s' _ Hs Hs' valid_confidence_04)
    as (b & b' & -> & -> & Hb & Hb' & Hlb & Hbb).
  destruct (int_mul_float_mono m m' _ Hm Hm' valid_confidence_03)
    as (c & c' & -> & -> & Hc & Hc' & Hlc & Hbc).
  cbn [bind].
  destruct (fadd_bounded a b Ha ltac:(lia) Hb ltac:(lia)) as (Hab & Hbab & _).
  destruct (fadd_bounded a' b' Ha' ltac:(lia) Hb' Hbb) as (Hab' & Hbab' & _).
  assert (Hl1 : val (fadd a b) <= val (fadd a' b'))
    by (apply fadd_mono; try assumption; lia).
  destruct (fadd_bounded _ c Hab Hbab Hc ltac:(lia)) as (Habc & _ & _).
  destruct (fadd_bounded _ c' Hab' Hbab' Hc' Hbc) as (Habc' & _ & _).
  assert (Hl2 : val (fadd (fadd a b) c) <= val (fadd (fadd a' b') c'))
    by (apply fadd_mono; try assumption; lia).
  rewrite (int_of_float_value _ Habc), (int_of_float_value _ Habc').
  eexists; eexists. split; [reflexivity|]. split; [reflexivity|].
  split.
  - apply Z.div_pos; [apply val_nonneg|lia].
  - apply Z.div_le_mono; lia.
Qed.

Lemma weighted_total_100 : ScoringSpec.weighted_total 100 100 100 = Ok 100.
Proof. vm_compute. reflexivity. Qed.

Lemma weighted_total_56 : ScoringSpec.weighted_total 56 56 56 = Ok 56.
Proof. vm_compute. reflexivity. Qed.

(** *** The range of the scores *)

Lemma total_sums_good (ds : list Detection) :
  Forall (fun d => valid_confidence (confidence d)) ds ->
  good_sums (total_sums ds).
Proof.
  intros H. unfold total_sums. apply fold_good; [|apply sums0_good].
  eapply Forall_impl; [|exact H]. intros d Hd. now apply contribution_good.
Qed.

Lemma length_float (ds : list Detection) :
  ds <> [] -> Z.of_nat (List.length ds) < 2 ^ 63 ->
  exists N, float_of_int (Z.of_nat (List.length ds)) = Ok N /\ nonneg N /\
            val N = rnd 1 (Z.of_nat (List.length ds) * 2 ^ K) /\ 2 ^ K <= val N.
Proof.
  intros Hne Hlen.
  assert (H1 : 1 <= Z.of_nat (List.length ds))
    by (destruct ds; [contradiction|cbn [List.length]; lia]).
  destruct (float_of_int_pos (Z.of_nat (List.length ds))) as (N & HN & HnN & HvN).
  { split; [exact H1|]. assert (2 ^ 63 <= 2 ^ 1023) by (apply pow2_le; lia). lia. }
  exists N. repeat split; try assumption.
  now apply (float_of_int_at_least_one (Z.of_nat (List.length ds)) N).
Qed.

(** The score of a non-empty list whose sums are well formed, with its
    total. *)
Lemma assess_impact_scores (ds : list Detection) (N : float) :
  ds <> [] ->
  float_of_int (Z.of_nat (List.length ds)) = Ok N -> nonneg N -> 2 ^ K <= val N ->
  good_sums (total_sums ds) ->
  exists t,
    ScoringSpec.weighted_total
      (normalized N (s_performance (total_sums ds)))
      (normalized N (s_security (total_sums ds)))
      (normalized N (s_maintainability (total_sums ds))) = Ok t /\
    assess_impact ds =
    Ok (mkImpactScore t
          (normalized N (s_performance (total_sums ds)))
          (normalized N (s_security (total_sums ds)))
          (normalized N (s_maintainability (total_sums ds)))
          (round1 (s_debug_hours (total_sums ds)))
          (risk_level_of t (normalized N (s_security (total_sums ds))))).
Proof.
  intros Hne HN HnN HvN ((P1 & P2) & (S1 & S2) & (M1 & M2)).
  destruct ds as [|d ds]; [contradiction|].
  rewrite assess_impact_unfold. cbv zeta.
  assert (Hlen : 1 <= Z.of_nat (List.length (d :: ds))) by (cbn [List.length]; lia).
  destruct (normalize_value _ N _ Hlen HN HnN HvN P1 P2) as [-> Hp].
  destruct (normalize_value _ N _ Hlen HN HnN HvN S1 S2) as [-> Hs].
  destruct (normalize_value _ N _ Hlen HN HnN HvN M1 M2) as [-> Hm].
  cbn [bind].
  destruct (weighted_total_mono _ _ _ 100 100 100
              (conj (proj1 Hp) (proj2 Hp)) ltac:(lia)
              (conj (proj1 Hs) (proj2 Hs)) ltac:(lia)
              (conj (proj1 Hm) (proj2 Hm)) ltac:(lia)) as (t & t' & Ht & _ & _).
  exists t. split; [exact Ht|].
  unfold ScoringSpec.weighted_total in Ht.
  destruct (int_mul_float (normalized N (s_performance (total_sums (d :: ds))))
              (float_lit 3 1)) as [a|e]; [cbn [bind] in *|discriminate Ht].
  destruct (int_mul_float (normalized N (s_security (total_sums (d :: ds))))
              (float_lit 4 1)) as [b|e]; [cbn [bind] in *|discriminate Ht].
  destruct (int_mul_float (normalized N (s_maintainability (total_sums (d :: ds))))
              (float_lit 3 1)) as [c|e]; [cbn [bind] in *|discriminate Ht].
  rewrite Ht. reflexivity.
Qed.

Lemma normalized_range (N total : float) : 0 < val N -> 0 <= normalized N total <= 100.
Proof.
  intros HN. pose proof pow2_K_pos. unfold normalized.
  assert (0 <= rnd (val N) (val total * 2 ^ K)).
  { apply rnd_nonneg; [lia|]. pose proof (val_nonneg total). nia. }
  assert (0 <= rnd (val N) (val total * 2 ^ K) / 2 ^ K) by (apply Z.div_pos; lia).
  lia.
Qed.

(** X7: for confidences between 0 and 1 the assessment returns, and every
    score it returns lies between 0 and 100. *)
Theorem assess_impact_range (ds : list Detection) :
  Forall (fun d => valid_confidence (confidence d)) ds ->
  Z.of_nat (List.length ds) < 2 ^ 63 ->
  exists r,
    assess_impact ds = Ok r /\
    0 <= performance_cost r <= 100 /\
    0 <= security_risk r <= 100 /\
    0 <= maintainability_debt r <= 100 /\
    0 <= total_score r <= 100.
Proof.
  intros Hvalid Hlen. pose proof pow2_K_pos as HpK.
  destruct ds as [|d ds].
  { eexists. split; [reflexivity|]. cbn. lia. }
  destruct (length_float (d :: ds) ltac:(discriminate) Hlen) as (N & HN & HnN & _ & HvN).
  destruct (assess_impact_scores (d :: ds) N ltac:(discriminate) HN HnN HvN
              (total_sums_good _ Hvalid)) as (t & Ht & ->).
  eexists. split; [reflexivity|].
  cbn [performance_cost security_risk maintainability_debt total_score].
  pose proof (normalized_range N (s_performance (total_sums (d :: ds))) ltac:(lia)) as Hp.
  pose proof (normalized_range N (s_security (total_sums (d :: ds))) ltac:(lia)) as Hs.
  pose proof (normalized_range N (s_maintainability (total_sums (d :: ds))) ltac:(lia)) as Hm.
  repeat split; try lia;
    destruct (weighted_total_mono _ _ _ 100 100 100
                (conj (proj1 Hp) (proj2 Hp)) ltac:(lia)
                (conj (proj1 Hs) (proj2 Hs)) ltac:(lia)
                (conj (proj1 Hm) (proj2 Hm)) ltac:(lia)) as (t1 & t2 & Ht1 & Ht2 & Hle);
    rewrite weighted_total_100 in Ht2; rewrite Ht in Ht1;
    inversion Ht1; inversion Ht2; subst; lia.
Qed.

Lemma assess_impact_range_witness :
  exists r,
    assess_impact order_sample = Ok r /\
    0 <= performance_cost r <= 100 /\
    0 <= security_risk r <= 100 /\
    0 <= maintainability_debt r <= 100 /\
    0 <= total_score r <= 100.
Proof.
  apply (assess_impact_range order_sample).
  - repeat constructor; vm_compute; repeat split.
  - vm_compute. reflexivity.
Defined.

(** *** Severity and the risk level *)

Lemma risk_level_mono (t s t' s' : Z) :
  t <= t' -> s <= s' ->
  risk_rank (risk_level_of t s) <= risk_rank (risk_level_of t' s').
Proof.
  intros Ht Hs. unfold risk_level_of.
  destruct (80 <=? t) eqn:A1, (90 <=? s) eqn:A2, (60 <=? t) eqn:A3,
           (70 <=? s) eqn:A4, (40 <=? t) eqn:A5;
  destruct (80 <=? t') eqn:B1, (90 <=? s') eqn:B2, (60 <=? t') eqn:B3,
           (70 <=? s') eqn:B4, (40 <=? t') eqn:B5;
  cbn [orb]; try (vm_compute; discriminate);
  rewrite ?Z.leb_le, ?Z.leb_gt in *; lia.
Qed.

(** X10: with confidences between 0 and 1, raising the severity of one
    Warning finding to Critical lowers neither the total score nor the
    risk level. *)
Theorem severity_raises_risk (l1 l2 : list Detection) (d : Detection) :
  severity d = WARNING ->
  Forall (fun x => valid_confidence (confidence x)) (l1 ++ d :: l2) ->
  Z.of_nat (List.length (l1 ++ d :: l2)) < 2 ^ 63 ->
  exists r r',
    assess_impact (l1 ++ d :: l2) = Ok r /\
    assess_impact (l1 ++ with_severity CRITICAL d :: l2) = Ok r' /\
    total_score r <= total_score r' /\
    risk_rank (risk_level r) <= risk_rank (risk_level r').
Proof.
  intros Hsev Hvalid Hlen. pose proof pow2_K_pos as HpK.
  set (d' := with_severity CRITICAL d).
  assert (Hvalid' : Forall (fun x => valid_confidence (confidence x)) (l1 ++ d' :: l2)).
  { apply Forall_app in Hvalid as [Hv1 Hv2]. apply Forall_app. split; [exact Hv1|].
    inversion Hv2; subst. now constructor. }
  assert (Hrel : Forall2 term_le (l1 ++ d :: l2) (l1 ++ d' :: l2)).
  { apply Forall_app in Hvalid as [Hv1 Hv2].
    inversion Hv2 as [|? ? Hvd Hv2']; subst.
    apply Forall2_app.
    - clear - Hv1. induction Hv1; constructor; [now apply term_le_refl|assumption].
    - constructor.
      + split; [now apply contribution_good|]. split; [now apply contribution_good|].
        now apply contribution_severity.
      + clear - Hv2'. induction Hv2'; constructor; [now apply term_le_refl|assumption]. }
  destruct (fold_mono _ _ Hrel sums0 sums0 sums0_good sums0_good (sums_le_refl _))
    as ((Lp & Ls & Lm) & Hgood & Hgood').
  fold (total_sums (l1 ++ d :: l2)) in *. fold (total_sums (l1 ++ d' :: l2)) in *.
  assert (Hlen' : List.length (l1 ++ d' :: l2) = List.length (l1 ++ d :: l2))
    by (rewrite !length_app; reflexivity).
  destruct (length_float (l1 ++ d :: l2) ltac:(destruct l1; discriminate) Hlen)
    as (N & HN & HnN & _ & HN1).
  destruct (assess_impact_scores (l1 ++ d :: l2) N) as (t & Ht & Hr);
    [destruct l1; discriminate|exact HN|exact HnN|exact HN1|exact Hgood|].
  destruct (assess_impact_scores (l1 ++ d' :: l2) N) as (t' & Ht' & Hr');
    [destruct l1; discriminate|rewrite Hlen'; exact HN|exact HnN|exact HN1|exact Hgood'|].
  pose proof (normalized_range N (s_performance (total_sums (l1 ++ d :: l2))) ltac:(lia)) as Rp.
  pose proof (normalized_range N (s_security (total_sums (l1 ++ d :: l2))) ltac:(lia)) as Rs.
  pose proof (normalized_range N (s_maintainability (total_sums (l1 ++ d :: l2))) ltac:(lia)) as Rm.
  pose proof (normalized_range N (s_performance (total_sums (l1 ++ d' :: l2))) ltac:(lia)) as Rp'.
  pose proof (normalized_range N (s_security (total_sums (l1 ++ d' :: l2))) ltac:(lia)) as Rs'.
  pose proof (normalized_range N (s_maintainability (total_sums (l1 ++ d' :: l2))) ltac:(lia)) as Rm'.
  pose proof (normalized_mono N _ _ HN1 Lp) as Mp.
  pose proof (normalized_mono N _ _ HN1 Ls) as Ms.
  pose proof (normalized_mono N _ _ HN1 Lm) as Mm.
  destruct (weighted_total_mono _ _ _ _ _ _
              (conj (proj1 Rp) Mp) (proj2 Rp')
              (conj (proj1 Rs) Ms) (proj2 Rs')
              (conj (proj1 Rm) Mm) (proj2 Rm')) as (t1 & t2 & Ht1 & Ht2 & Hle).
  rewrite Ht in Ht1. rewrite Ht' in Ht2. inversion Ht1; inversion Ht2; subst t1 t2.
  eexists; eexists. split; [exact Hr|]. split; [exact Hr'|].
  cbn [total_score risk_level]. split; [lia|].
  apply risk_level_mono; [lia|exact Ms].
Qed.

Lemma severity_raises_risk_witness :
  exists r r',
    assess_impact ([] ++ finding SECURITY_SHORTCUT WARNING (float_lit 95 2)
                      :: [finding ERROR_MASKING INFO (float_lit 8 1)]) = Ok r /\
    assess_impact ([] ++ with_severity CRITICAL
                           (finding SECURITY_SHORTCUT WARNING (float_lit 95 2))
                      :: [finding ERROR_MASKING INFO (float_lit 8 1)]) = Ok r' /\
    total_score r <= total_score r' /\
    risk_rank (risk_level r) <= risk_rank (risk_level r').
Proof.
  apply (severity_raises_risk []
           [finding ERROR_MASKING INFO (float_lit 8 1)]
           (finding SECURITY_SHORTCUT WARNING (float_lit 95 2))).
  - reflexivity.
  - repeat constructor; vm_compute; repeat split.
  - vm_compute. reflexivity.
Defined.

(** *** The findings of the detectors can always be assessed *)

Lemma grades_valid_table :
  forallb (fun c =>
    forallb (fun g => valid_binary prec emax (snd g)
                      && SFleb (S754_zero false) (snd g)
                      && SFleb (snd g) (float_lit 10 1)) (grades c))
    [SILENT_FALLBACK; WARNING_SUPPRESSION; ASSUMPTION_BYPASS; DUPLICATE_CODE;
     PERFORMANCE_DEGRADATION; SECURITY_SHORTCUT; ERROR_MASKING; TEST_AVOIDANCE]
  = true.
Proof. vm_compute. reflexivity. Qed.

Lemma all_categories (c : PatternType) :
  In c [SILENT_FALLBACK; WARNING_SUPPRESSION; ASSUMPTION_BYPASS; DUPLICATE_CODE;
        PERFORMANCE_DEGRADATION; SECURITY_SHORTCUT; ERROR_MASKING; TEST_AVOIDANCE].
Proof. destruct c; cbn [In]; tauto. Qed.

Lemma graded_valid (d : Detection) : graded d -> valid_confidence (confidence d).
Proof.
  unfold graded. intros H. pose proof grades_valid_table as T.
  rewrite forallb_forall in T. specialize (T _ (all_categories (pattern_type d))).
  rewrite forallb_forall in T. specialize (T _ H). cbn [snd] in T.
  apply andb_prop in T as [T T3]. apply andb_prop in T as [T1 T2].
  unfold valid_confidence. auto.
Qed.

(** X8: the findings of [analyze_code] can always be assessed: their
    confidences are between 0 and 1, so [assess_impact] returns a score
    with every metric between 0 and 100. *)
Theorem analysis_is_assessable (ast_parse : Text.text -> result Ast.ast)
    (code : string) (ds : list Detection) :
  Detector.analyze_code ast_parse code = Ok ds ->
  Z.of_nat (List.length ds) < 2 ^ 63 ->
  exists r,
    assess_impact ds = Ok r /\
    0 <= performance_cost r <= 100 /\
    0 <= security_risk r <= 100 /\
    0 <= maintainability_debt r <= 100 /\
    0 <= total_score r <= 100.
Proof.
  intros Hrun Hlen. apply assess_impact_range; [|exact Hlen].
  apply AnalysisFacts.analyze_code_grades in Hrun.
  eapply Forall_impl; [|exact Hrun]. exact graded_valid.
Qed.

Lemma analysis_is_assessable_witness :
  exists ds r,
    Detector.analyze_code Samples.rejecting_parser Samples.two_handlers = Ok ds /\
    assess_impact ds = Ok r /\
    0 <= performance_cost r <= 100 /\
    0 <= security_risk r <= 100 /\
    0 <= maintainability_debt r <= 100 /\
    0 <= total_score r <= 100.
Proof.
  edestruct (analysis_is_assessable Samples.rejecting_parser Samples.two_handlers)
    as (r & Hr & Hrange).
  - vm_compute. reflexivity.
  - vm_compute. reflexivity.
  - eexists. exists r. split; [vm_compute; reflexivity|].
    split; [exact Hr|exact Hrange].
Defined.

(** *** Without a critical finding the risk stays low *)

Lemma pow2_K3 : 2 ^ (K + 3) = 8 * 2 ^ K.
Proof. rewrite Z.pow_add_r by (unfold K; lia). change (2 ^ 3) with 8. lia. Qed.

Lemma digits_7k (k : Z) : 0 < k -> k < 2 ^ 50 -> Zdigits2 (7 * k) <= 53.
Proof.
  intros H0 H. apply digits_below_pow2; lia.
Qed.

(** [k * 56] is a double when [k] is below [2^50]. *)
Lemma rnd_56 (b k : Z) :
  0 < b -> 0 < k -> k < 2 ^ 50 -> rnd b (k * 56 * 2 ^ K * b) = k * 56 * 2 ^ K.
Proof.
  intros Hb H0 H.
  pose proof (rnd_representable b (7 * k) (K + 3) Hb ltac:(lia) (digits_7k k H0 H)
                ltac:(unfold Emin, K; lia)) as Hr.
  rewrite pow2_K3 in Hr.
  replace (k * 56 * 2 ^ K * b) with (7 * k * (8 * 2 ^ K) * b) by lia.
  rewrite Hr. lia.
Qed.

Lemma fadd_counted (k : Z) (s t : float) :
  0 <= k -> k + 1 < 2 ^ 50 ->
  nonneg s -> val s <= k * 56 * 2 ^ K ->
  nonneg t -> val t <= 56 * 2 ^ K ->
  nonneg (fadd s t) /\ val (fadd s t) <= (k + 1) * 56 * 2 ^ K.
Proof.
  intros Hk Hk1 Hs Hbs Ht Hbt. pose proof pow2_K_pos as HpK.
  pose proof (val_nonneg s). pose proof (val_nonneg t).
  assert (Hover : val s + val t < 2 ^ (K + 1023)).
  { rewrite Z.pow_add_r by (unfold K; lia).
    assert (2 ^ 56 <= 2 ^ 1023) by (apply pow2_le; lia).
    change (2 ^ 56) with (64 * 2 ^ 50) in H1. nia. }
  destruct (fadd_value s t Hs Ht Hover) as [Hn Hv].
  split; [exact Hn|]. rewrite Hv.
  pose proof (rnd_56 1 (k + 1) ltac:(lia) ltac:(lia) Hk1) as Hr.
  rewrite Z.mul_1_r in Hr. rewrite <- Hr. apply rnd_mono; lia.
Qed.

Lemma add_sums_counted (k : Z) (acc t : Sums) :
  0 <= k -> k + 1 < 2 ^ 50 ->
  sums_below (k * 56 * 2 ^ K) acc -> sums_below (56 * 2 ^ K) t ->
  sums_below ((k + 1) * 56 * 2 ^ K) (add_sums acc t).
Proof.
  intros Hk Hk1 ((A1 & A2) & (A3 & A4) & (A5 & A6)) ((T1 & T2) & (T3 & T4) & (T5 & T6)).
  unfold sums_below, add_sums. cbn [s_performance s_security s_maintainability].
  repeat split; apply (fadd_counted k); assumption.
Qed.

Lemma fold_counted (ds : list Detection) :
  Forall (fun d => sums_below (56 * 2 ^ K) (contribution d)) ds ->
  forall (k : Z) (acc : Sums),
    0 <= k -> k + Z.of_nat (List.length ds) < 2 ^ 50 ->
    sums_below (k * 56 * 2 ^ K) acc ->
    sums_below ((k + Z.of_nat (List.length ds)) * 56 * 2 ^ K)
      (fold_left (fun a d => add_sums a (contribution d)) ds acc).
Proof.
  induction 1 as [|d ds Hd _ IH]; intros k acc Hk Hlen Hacc; cbn [fold_left].
  - cbn [List.length]. now rewrite Z.add_0_r.
  - cbn [List.length] in *. rewrite Nat2Z.inj_succ in *.
    replace (k + Z.succ (Z.of_nat (List.length ds)))
      with ((k + 1) + Z.of_nat (List.length ds)) by lia.
    apply IH; [lia|lia|]. apply add_sums_counted; try assumption; lia.
Qed.

(** The terms of a finding that is not critical are at most 56. *)
Lemma uncritical_table :
  forallb (fun c =>
    forallb (fun g =>
      Severity_eqb (fst g) CRITICAL ||
      (small_nonnegb (56 * 2 ^ K)
         (s_performance (contribution (finding c (fst g) (snd g))))
       && small_nonnegb (56 * 2 ^ K)
            (s_security (contribution (finding c (fst g) (snd g))))
       && small_nonnegb (56 * 2 ^ K)
            (s_maintainability (contribution (finding c (fst g) (snd g))))))
      (grades c))
    [SILENT_FALLBACK; WARNING_SUPPRESSION; ASSUMPTION_BYPASS; DUPLICATE_CODE;
     PERFORMANCE_DEGRADATION; SECURITY_SHORTCUT; ERROR_MASKING; TEST_AVOIDANCE]
  = true.
Proof. vm_compute. reflexivity. Qed.

Lemma uncritical_term (d : Detection) :
  graded d -> severity d <> CRITICAL ->
  sums_below (56 * 2 ^ K) (contribution d).
Proof.
  unfold graded. intros Hg Hs. pose proof uncritical_table as T.
  rewrite forallb_forall in T. specialize (T _ (all_categories (pattern_type d))).
  rewrite forallb_forall in T. specialize (T _ Hg). cbn [fst snd] in T.
  assert (Hc : Severity_eqb (severity d) CRITICAL = false)
    by (destruct (severity d); try reflexivity; contradiction).
  rewrite Hc in T. cbn [orb] in T.
  change (finding (pattern_type d) (severity d) (confidence d))
    with (mkDetection (pattern_type d) (severity d) 1 "" "" "" "" (confidence d)) in T.
  assert (He : contribution (mkDetection (pattern_type d) (severity d) 1
                               "" "" "" "" (confidence d)) = contribution d)
    by reflexivity.
  rewrite He in T.
  apply andb_prop in T as [T H3]. apply andb_prop in T as [H1 H2].
  apply small_nonnegb_spec in H1, H2, H3. unfold sums_below. tauto.
Qed.

Lemma normalized_56 (n : Z) (N total : float) :
  0 < n -> n < 2 ^ 50 -> val N = rnd 1 (n * 2 ^ K) ->
  val total <= n * 56 * 2 ^ K ->
  normalized N total <= 56.
Proof.
  intros Hn Hn50 HN Ht. pose proof pow2_K_pos as HpK.
  pose proof (val_nonneg total).
  assert (HvN : val N = n * 2 ^ K).
  { rewrite HN.
    pose proof (rnd_representable 1 n K ltac:(lia) Hn
                  ltac:(apply digits_below_pow2; try lia;
                        assert (2 ^ 50 <= 2 ^ 53) by (apply pow2_le; lia); lia)
                  ltac:(unfold Emin, K; lia)) as Hr.
    rewrite Z.mul_1_r in Hr. exact Hr. }
  unfold normalized. rewrite HvN.
  apply Z.le_trans with (rnd (n * 2 ^ K) (val total * 2 ^ K) / 2 ^ K);
    [apply Z.le_min_r|].
  apply Z.div_le_upper_bound; [lia|].
  pose proof (rnd_56 (n * 2 ^ K) 1 ltac:(nia) ltac:(lia) ltac:(reflexivity)) as Hr.
  rewrite Z.mul_1_l in Hr.
  replace (2 ^ K * 56) with (56 * 2 ^ K) by lia. rewrite <- Hr.
  apply rnd_mono; [nia|]. nia.
Qed.

Lemma risk_level_below (t s : Z) :
  t <= 56 -> s <= 56 ->
  risk_level_of t s = "LOW"%string \/ risk_level_of t s = "MEDIUM"%string.
Proof.
  intros Ht Hs. unfold risk_level_of.
  rewrite (proj2 (Z.leb_gt 80 t)), (proj2 (Z.leb_gt 90 s)) by lia.
  rewrite (proj2 (Z.leb_gt 60 t)), (proj2 (Z.leb_gt 70 s)) by lia.
  cbn [orb]. destruct (40 <=? t); [right|left]; reflexivity.
Qed.

(** X9: findings as the detectors grade them, none of them critical,
    never reach a high or critical risk level: no metric exceeds 56. *)
Theorem uncritical_findings_risk (ds : list Detection) :
  uncritical ds ->
  Z.of_nat (List.length ds) < 2 ^ 50 ->
  exists r,
    assess_impact ds = Ok r /\
    (risk_level r = "LOW"%string \/ risk_level r = "MEDIUM"%string) /\
    performance_cost r <= 56 /\ security_risk r <= 56 /\
    maintainability_debt r <= 56 /\ total_score r <= 56.
Proof.
  intros [Hg Hs] Hlen. pose proof pow2_K_pos as HpK.
  destruct ds as [|d ds].
  { eexists. split; [reflexivity|]. cbn. split; [now left|lia]. }
  assert (Hlen63 : Z.of_nat (List.length (d :: ds)) < 2 ^ 63).
  { assert (2 ^ 50 <= 2 ^ 63) by (apply pow2_le; lia). lia. }
  destruct (length_float (d :: ds) ltac:(discriminate) Hlen63)
    as (N & HN & HnN & HvN & HN1).
  assert (Hvalid : Forall (fun x => valid_confidence (confidence x)) (d :: ds))
    by (eapply Forall_impl; [|exact Hg]; exact graded_valid).
  destruct (assess_impact_scores (d :: ds) N ltac:(discriminate) HN HnN HN1
              (total_sums_good _ Hvalid)) as (t & Ht & ->).
  assert (Hterms : Forall (fun x => sums_below (56 * 2 ^ K) (contribution x)) (d :: ds)).
  { apply Forall_forall. intros x Hx. rewrite Forall_forall in Hg, Hs.
    apply uncritical_term; auto. }
  pose proof (fold_counted (d :: ds) Hterms 0 sums0 ltac:(lia) ltac:(lia)) as Hsum.
  fold (total_sums (d :: ds)) in Hsum. rewrite Z.add_0_l in Hsum.
  destruct Hsum as ((_ & Hp) & (_ & Hsec) & (_ & Hm)).
  { unfold sums_below, sums0. cbn [s_performance s_security s_maintainability fzero nonneg val].
    repeat split; lia. }
  assert (Hn0 : 0 < Z.of_nat (List.length (d :: ds))) by (cbn [List.length]; lia).
  pose proof (normalized_56 _ N _ Hn0 Hlen HvN Hp) as Bp.
  pose proof (normalized_56 _ N _ Hn0 Hlen HvN Hsec) as Bs.
  pose proof (normalized_56 _ N _ Hn0 Hlen HvN Hm) as Bm.
  pose proof (normalized_range N (s_performance (total_sums (d :: ds))) ltac:(lia)) as Rp.
  pose proof (normalized_range N (s_security (total_sums (d :: ds))) ltac:(lia)) as Rs.
  pose proof (normalized_range N (s_maintainability (total_sums (d :: ds))) ltac:(lia)) as Rm.
  destruct (weighted_total_mono _ _ _ 56 56 56
              (conj (proj1 Rp) Bp) ltac:(lia)
              (conj (proj1 Rs) Bs) ltac:(lia)
              (conj (proj1 Rm) Bm) ltac:(lia)) as (t1 & t2 & Ht1 & Ht2 & Hle).
  rewrite weighted_total_56 in Ht2. rewrite Ht in Ht1.
  inversion Ht1; inversion Ht2; subst t1 t2.
  eexists. split; [reflexivity|].
  cbn [risk_level performance_cost security_risk maintainability_debt total_score].
  split; [apply risk_level_below; lia|]. lia.
Qed.

Lemma uncritical_findings_risk_witness :
  exists r,
    assess_impact uncritical_sample = Ok r /\
    (risk_level r = "LOW"%string \/ risk_level r = "MEDIUM"%string) /\
    performance_cost r <= 56 /\ security_risk r <= 56 /\
    maintainability_debt r <= 56 /\ total_score r <= 56.
Proof.
  apply (uncritical_findings_risk uncritical_sample).
  - split.
    + unfold uncritical_sample.
      repeat (constructor;
              [unfold graded;
               cbn [finding severity confidence pattern_type grades In]; auto 6|]).
      constructor.
    + unfold uncritical_sample. repeat (constructor; [discriminate|]). constructor.
  - vm_compute. reflexivity.
Defined.

End ScoreFacts.

(** * Properties of the impact report *)

Local Close Scope nat_scope.
Local Open Scope Z_scope.

Module ReportFacts.
Import Text Report.

(** *** The stable sort in non-increasing key order *)

Section StableSort.
Context {K A : Type} (ltb : K -> K -> bool) (key : A -> K) (r : A -> Z).
Hypothesis ltb_rank : forall a b, ltb (key a) (key b) = (r a <? r b).

(** The sort works on pairs of an element and its own key: lists [l]
    with [Forall (fun p => fst p = key (snd p)) l]. *)

Lemma insert_reverse_perm (k : K) (x : A) (l : list (K * A)) :
  Permutation (insert_reverse ltb k x l) ((k, x) :: l).
Proof.
  induction l as [|[k' y] l IH]; cbn [insert_reverse]; [reflexivity|].
  destruct (ltb k k'); [|reflexivity].
  rewrite IH. apply perm_swap.
Qed.

Lemma sorted_reverse_perm (l : list (K * A)) : Permutation (sorted_reverse ltb l) l.
Proof.
  induction l as [|[k x] l IH]; cbn [sorted_reverse]; [reflexivity|].
  rewrite insert_reverse_perm. now constructor.
Qed.

Lemma sorted_reverse_keyed (l : list (K * A)) :
  Forall (fun p => fst p = key (snd p)) l -> Forall (fun p => fst p = key (snd p)) (sorted_reverse ltb l).
Proof.
  intros H.
  eapply Permutation_Forall; [|exact H]. symmetry. apply sorted_reverse_perm.
Qed.

Lemma insert_reverse_sorted (x : A) (l : list (K * A)) :
  Forall (fun p => fst p = key (snd p)) l ->
  StronglySorted (fun p q => r (snd q) <= r (snd p)) l ->
  StronglySorted (fun p q => r (snd q) <= r (snd p)) (insert_reverse ltb (key x) x l).
Proof.
  intros Hk Hs.
  induction l as [|[k' y] l IH]; cbn [insert_reverse].
  - repeat constructor.
  - inversion Hk as [|? ? Hy Hk']; subst. inversion Hs as [|? ? Hs' Hall]; subst.
    cbn [fst snd] in Hy. subst k'. rewrite ltb_rank.
    destruct (r x <? r y) eqn:E.
    + apply Z.ltb_lt in E. constructor; [now apply IH|].
      eapply Permutation_Forall; [symmetry; apply insert_reverse_perm|].
      constructor; [cbn [snd]; lia|exact Hall].
    + apply Z.ltb_ge in E. constructor; [exact Hs|].
      constructor; [cbn [snd]; lia|].
      eapply Forall_impl; [|exact Hall]. cbn [snd]. intros p Hp. lia.
Qed.

Lemma sorted_reverse_sorted (l : list (K * A)) :
  Forall (fun p => fst p = key (snd p)) l ->
  StronglySorted (fun p q => r (snd q) <= r (snd p)) (sorted_reverse ltb l).
Proof.
  induction 1 as [|[k x] l Hx Hl IH]; cbn [sorted_reverse].
  - constructor.
  - cbn [fst snd] in Hx. subst k.
    apply insert_reverse_sorted; [now apply sorted_reverse_keyed|exact IH].
Qed.

Lemma insert_reverse_stable (z : Z) (x : A) (l : list (K * A)) :
  Forall (fun p => fst p = key (snd p)) l ->
  filter (fun p => r (snd p) =? z) (insert_reverse ltb (key x) x l) =
  filter (fun p => r (snd p) =? z) ((key x, x) :: l).
Proof.
  induction 1 as [|[k' y] l Hy Hl IH]; cbn [insert_reverse];
    [reflexivity|].
  cbn [fst snd] in Hy. subst k'. rewrite ltb_rank.
  destruct (r x <? r y) eqn:E; [|reflexivity].
  apply Z.ltb_lt in E. cbn [filter snd] in *. rewrite IH.
  destruct (r y =? z) eqn:Ey, (r x =? z) eqn:Ex; try reflexivity.
  apply Z.eqb_eq in Ey, Ex. lia.
Qed.

Lemma sorted_reverse_stable (z : Z) (l : list (K * A)) :
  Forall (fun p => fst p = key (snd p)) l ->
  filter (fun p => r (snd p) =? z) (sorted_reverse ltb l) =
  filter (fun p => r (snd p) =? z) l.
Proof.
  induction 1 as [|[k x] l Hx Hl IH]; cbn [sorted_reverse];
    [reflexivity|].
  cbn [fst snd] in Hx. subst k.
  rewrite insert_reverse_stable by (now apply sorted_reverse_keyed).
  cbn [filter]. now rewrite IH.
Qed.

Lemma keyed_map (l : list A) : Forall (fun p => fst p = key (snd p)) (map (fun a => (key a, a)) l).
Proof.
  apply Forall_forall. intros p Hp.
  apply in_map_iff in Hp as (a & <- & _). reflexivity.
Qed.

Lemma filter_map_snd (z : Z) (l : list (K * A)) :
  filter (fun a => r a =? z) (map snd l) =
  map snd (filter (fun p => r (snd p) =? z) l).
Proof.
  induction l as [|p l IH]; [reflexivity|].
  cbn [map filter]. destruct (r (snd p) =? z); cbn [map]; now rewrite IH.
Qed.

Lemma map_snd_keys (l : list A) : map snd (map (fun a => (key a, a)) l) = l.
Proof. rewrite map_map. cbn [snd]. apply map_id. Qed.

(** The sorted list holds the same elements, in non-increasing order of
    [r], and the elements of one value of [r] keep their order. *)
Lemma sort_by_key (l : list A) :
  let sorted := map snd (sorted_reverse ltb (map (fun a => (key a, a)) l)) in
  Permutation sorted l /\
  StronglySorted (fun a b => r b <= r a) sorted /\
  forall z, filter (fun a => r a =? z) sorted = filter (fun a => r a =? z) l.
Proof.
  cbv zeta. repeat split.
  - rewrite sorted_reverse_perm. now rewrite map_snd_keys.
  - pose proof (sorted_reverse_sorted _ (keyed_map l)) as H.
    induction H as [|p s Hs IH Hall]; cbn [map]; constructor; [exact IH|].
    apply Forall_forall. intros b Hb. apply in_map_iff in Hb as (q & <- & Hq).
    rewrite Forall_forall in Hall. now apply Hall.
  - intros z. rewrite filter_map_snd, sorted_reverse_stable by apply keyed_map.
    rewrite <- filter_map_snd. now rewrite map_snd_keys.
Qed.

End StableSort.

(** *** The key of a finding *)

(** The key is half of [rank], computed without rounding. *)
Lemma priority_value (d : Detection) :
  priority d = Ok (binary_normalize prec emax (rank d) (-1) false).
Proof.
  unfold priority, rank. destruct (pattern_type d), (severity d);
    vm_compute; reflexivity.
Qed.

Lemma rank_values (d : Detection) :
  In (rank d) [392; 196; 98; 276; 138; 69; 344; 172; 86; 388; 194; 97;
               444; 222; 111; 616; 308; 154; 320; 160; 80; 340; 170; 85].
Proof.
  unfold rank. destruct (pattern_type d), (severity d); cbn; tauto.
Qed.

Lemma key_order_table :
  let ranks := [392; 196; 98; 276; 138; 69; 344; 172; 86; 388; 194; 97;
                444; 222; 111; 616; 308; 154; 320; 160; 80; 340; 170; 85] in
  forallb (fun a =>
    forallb (fun b =>
      Bool.eqb (SFltb (binary_normalize prec emax a (-1) false)
                      (binary_normalize prec emax b (-1) false))
               (a <? b)) ranks) ranks = true.
Proof. vm_compute. reflexivity. Qed.

Lemma key_order (a b : Detection) :
  SFltb (binary_normalize prec emax (rank a) (-1) false)
        (binary_normalize prec emax (rank b) (-1) false) = (rank a <? rank b).
Proof.
  pose proof key_order_table as H. cbv zeta in H.
  rewrite forallb_forall in H. specialize (H _ (rank_values a)).
  rewrite forallb_forall in H. specialize (H _ (rank_values b)).
  now apply Bool.eqb_prop in H.
Qed.

Lemma map_result_ok {A B : Type} (f : A -> result B) (g : A -> B) (l : list A) :
  (forall a, f a = Ok (g a)) -> map_result f l = Ok (map g l).
Proof.
  intros H. induction l as [|a l IH]; [reflexivity|].
  cbn [map_result map]. rewrite H, IH. reflexivity.
Qed.

Lemma combine_map_self {A B : Type} (g : A -> B) (l : list A) :
  combine (map g l) l = map (fun a => (g a, a)) l.
Proof. induction l as [|a l IH]; [reflexivity|]. cbn [map combine]. now rewrite IH. Qed.

Lemma sorted_detections_value (ds : list Detection) :
  sorted_detections ds =
  Ok (map snd (sorted_reverse SFltb
                 (map (fun d => (binary_normalize prec emax (rank d) (-1) false, d)) ds))).
Proof.
  unfold sorted_detections.
  rewrite (map_result_ok _ (fun d => binary_normalize prec emax (rank d) (-1) false))
    by apply priority_value.
  cbn [bind]. now rewrite combine_map_self.
Qed.

(** X11: the recommendations are taken from the findings sorted by the
    product of the severity multiplier and the sum of the four weights
    of the category, the debug hours included: the sort returns, keeps
    every finding, puts the keys in non-increasing order and leaves the
    findings of one key in the order of the analysis. *)
Theorem sorted_detections_stable (ds : list Detection) :
  exists sorted,
    sorted_detections ds = Ok sorted /\
    Permutation sorted ds /\
    StronglySorted (fun a b => rank b <= rank a) sorted /\
    forall z, filter (fun d => rank d =? z) sorted = filter (fun d => rank d =? z) ds.
Proof.
  eexists. split; [apply sorted_detections_value|].
  apply (sort_by_key SFltb
           (fun d => binary_normalize prec emax (rank d) (-1) false) rank key_order).
Qed.

(** *** The first recommendation *)

Lemma rank_top (d : Detection) : rank d <= 616.
Proof. pose proof (rank_values d) as H. cbn [In] in H. lia. Qed.

Lemma critical_shortcut_rank (d : Detection) :
  critical_shortcut d = (rank d =? 616).
Proof.
  unfold critical_shortcut, rank.
  destruct (pattern_type d), (severity d); reflexivity.
Qed.

Lemma sorted_detections_head (ds : list Detection) (d : Detection)
    (rest : list Detection) :
  filter critical_shortcut ds = d :: rest ->
  exists tail, sorted_detections ds = Ok (d :: tail).
Proof.
  intros Hf.
  destruct (sorted_detections_stable ds) as (sorted & Hs & Hperm & Hsorted & Hstable).
  rewrite Hs.
  assert (Hin : In d sorted).
  { apply (Permutation_in d (Permutation_sym Hperm)).
    assert (H : In d (filter critical_shortcut ds)) by (rewrite Hf; now left).
    now apply filter_In in H. }
  assert (Hd : rank d = 616).
  { assert (H : In d (filter critical_shortcut ds)) by (rewrite Hf; now left).
    apply filter_In in H as [_ H]. rewrite critical_shortcut_rank in H.
    now apply Z.eqb_eq. }
  destruct sorted as [|h tail]; [contradiction|].
  exists tail. f_equal. f_equal.
  assert (Hh : rank h = 616).
  { inversion Hsorted as [|? ? _ Hall]; subst.
    destruct Hin as [->|Hin]; [exact Hd|].
    rewrite Forall_forall in Hall. specialize (Hall d Hin).
    pose proof (rank_top h). lia. }
  specialize (Hstable 616). cbn [filter] in Hstable.
  rewrite Hh in Hstable. cbn in Hstable.
  assert (Hext : filter (fun x => rank x =? 616) ds = filter critical_shortcut ds).
  { apply filter_ext. intros x. symmetry. apply critical_shortcut_rank. }
  rewrite Hext, Hf in Hstable. now inversion Hstable.
Qed.

(** X12: when a finding is a critical security shortcut, the first
    recommendation of the report is the recommendation of the first such
    finding, wherever it stands among the findings. *)
Theorem report_first_recommendation (ds : list Detection) (d : Detection)
    (rest : list Detection) (report : string) :
  filter critical_shortcut ds = d :: rest ->
  generate_impact_report ds = Ok report ->
  exists before after,
    report =
    ((before ++ recommendations_title) ++
     ("1. " ++ recommendation d ++ LF ++ after))%string.
Proof.
  intros Hf Hrun. unfold generate_impact_report in Hrun.
  destruct (assess_impact ds) as [impact|e]; [cbn [bind] in Hrun|discriminate].
  destruct (sorted_detections_head ds d rest Hf) as [tail Hs].
  rewrite Hs in Hrun. cbn [bind] in Hrun.
  match type of Hrun with
  | Ok (append (append ?b recommendations_title) _) = _ => exists b
  end.
  exists (numbered 2 (firstn 4 tail)).
  inversion Hrun as [Hr]. reflexivity.
Qed.

Lemma report_first_recommendation_witness :
  exists report before after,
    generate_impact_report report_sample = Ok report /\
    report =
    ((before ++ recommendations_title) ++ ("1. " ++ "second" ++ LF ++ after))%string.
Proof.
  edestruct (report_first_recommendation report_sample) as (before & after & H).
  - vm_compute. reflexivity.
  - vm_compute. reflexivity.
  - eexists. exists before, after. split; [vm_compute; reflexivity|exact H].
Defined.

(** X13: the report adds no failure of its own: it is returned exactly
    when the assessment returns. *)
Theorem generate_impact_report_returns (ds : list Detection) :
  returns (generate_impact_report ds) <-> returns (assess_impact ds).
Proof.
  unfold generate_impact_report.
  destruct (assess_impact ds) as [impact|e]; cbn [bind].
  - rewrite sorted_detections_value. cbn [bind].
    split; intros _; eexists; reflexivity.
  - split; intros [x H]; discriminate.
Qed.

End ReportFacts.

(** * Properties of the hook *)

Local Close Scope nat_scope.
Local Open Scope Z_scope.

Module HookFacts.
Import Text Ast Detector Report Hook.

(** *** Sorting by the name of the severity *)

Section SortedReverse.
Context {K A : Type} (ltb : K -> K -> bool).

Lemma insert_reverse_skip (k : K) (x : A) (l1 l2 : list (K * A)) :
  Forall (fun p => ltb k (fst p) = true) l1 ->
  insert_reverse ltb k x (l1 ++ l2) = l1 ++ insert_reverse ltb k x l2.
Proof.
  induction 1 as [|[k' y] l1 Hk _ IH]; [reflexivity|].
  cbn [app insert_reverse]. cbn [fst] in Hk. rewrite Hk, IH. reflexivity.
Qed.

Lemma insert_reverse_front (k : K) (x : A) (l : list (K * A)) :
  Forall (fun p => ltb k (fst p) = false) l ->
  insert_reverse ltb k x l = (k, x) :: l.
Proof.
  intros H. destruct H as [|[k' y] l Hk _]; [reflexivity|].
  cbn [insert_reverse]. cbn [fst] in Hk. now rewrite Hk.
Qed.

End SortedReverse.

Lemma Severity_eqb_eq (a b : Severity) : Severity_eqb a b = true <-> a = b.
Proof. destruct a, b; split; intros H; try reflexivity; discriminate H. Qed.

Lemma keyed_filter_ltb (k : string) (s : Severity) (b : bool) (ds : list Detection) :
  String.ltb k (Severity_value s) = b ->
  Forall (fun p => String.ltb k (fst p) = b) (map keyed (filter (has_severity s) ds)).
Proof.
  intros Hk. induction ds as [|d ds IH]; cbn [filter map]; [constructor|].
  unfold has_severity at 1. destruct (Severity_eqb (severity d) s) eqn:E; [|exact IH].
  apply Severity_eqb_eq in E. cbn [map]. constructor; [|exact IH].
  unfold keyed; cbn [fst]. now rewrite E.
Qed.

Lemma sorted_keyed (ds : list Detection) :
  sorted_reverse String.ltb (map keyed ds) =
  map keyed (filter (has_severity WARNING) ds) ++
  map keyed (filter (has_severity INFO) ds) ++
  map keyed (filter (has_severity CRITICAL) ds).
Proof.
  induction ds as [|d ds IH]; [reflexivity|].
  cbn [map sorted_reverse]. unfold keyed at 1. rewrite IH. clear IH.
  cbn [filter].
  assert (Hs : forall s, has_severity s d = Severity_eqb (severity d) s) by reflexivity.
  rewrite !Hs. clear Hs.
  destruct (severity d) eqn:Es; cbn [Severity_eqb Severity_value map app].
  - (* CRITICAL: after the warnings and the infos *)
    rewrite insert_reverse_skip by (now apply keyed_filter_ltb).
    rewrite insert_reverse_skip by (now apply keyed_filter_ltb).
    rewrite insert_reverse_front by (now apply keyed_filter_ltb).
    change (keyed d) with (Severity_value (severity d), d). rewrite Es. reflexivity.
  - (* WARNING: in front *)
    rewrite insert_reverse_front
      by (rewrite !Forall_app; repeat split; now apply keyed_filter_ltb).
    change (keyed d) with (Severity_value (severity d), d). rewrite Es. reflexivity.
  - (* INFO: after the warnings *)
    rewrite insert_reverse_skip by (now apply keyed_filter_ltb).
    rewrite insert_reverse_front
      by (rewrite !Forall_app; repeat split; now apply keyed_filter_ltb).
    change (keyed d) with (Severity_value (severity d), d). rewrite Es. reflexivity.
Qed.

Lemma map_snd_keyed (ds : list Detection) : map snd (map keyed ds) = ds.
Proof. rewrite map_map. cbn [keyed snd]. apply map_id. Qed.

(** X21: the warning message sorts the findings by the name of the severity
    in reverse alphabetical order: the warnings come first, then the
    infos, then the criticals, each group in the order of the findings. *)
Theorem sorted_by_severity_groups (detections : list Detection) :
  sorted_by_severity detections =
  filter (has_severity WARNING) detections ++
  filter (has_severity INFO) detections ++
  filter (has_severity CRITICAL) detections.
Proof.
  unfold sorted_by_severity.
  rewrite sorted_keyed, !map_app, !map_snd_keyed. reflexivity.
Qed.

(** *** The helpers of [main] never leave through [sys.exit] *)

Lemma lift_no_exit {A : Type} (r : result A) (o : outcome) : lift r <> SysExit o.
Proof. destruct r; discriminate. Qed.

Lemma get_no_exit (v : json) (key : string) (default : json) (o : outcome) :
  get v key default <> SysExit o.
Proof. destruct v; discriminate. Qed.

Lemma contains_key_no_exit (key : string) (v : json) (o : outcome) :
  contains_key key v <> SysExit o.
Proof. destruct v; discriminate. Qed.

Lemma subscript_no_exit (v : json) (key : string) (o : outcome) :
  subscript v key <> SysExit o.
Proof. destruct v; try discriminate. apply lift_no_exit. Qed.

Lemma len_no_exit (v : json) (o : outcome) : len v <> SysExit o.
Proof. destruct v; discriminate. Qed.

Lemma any_keyword_no_exit (ks : list string) (command : json) (o : outcome) :
  any_keyword ks command <> SysExit o.
Proof.
  induction ks as [|k ks IH]; cbn [any_keyword]; [discriminate|].
  destruct (contains_key k command) as [[|]|o'|e] eqn:E; cbn [flow_bind];
    try discriminate; [assumption|].
  exfalso. exact (contains_key_no_exit _ _ _ E).
Qed.

Lemma should_analyze_no_exit (tool_name tool_input : json) (o : outcome) :
  should_analyze tool_name tool_input <> SysExit o.
Proof.
  unfold should_analyze.
  destruct (negb (existsb (eq_str tool_name) code_tools)); [discriminate|].
  destruct (eq_str tool_name "Bash"); [|discriminate].
  destruct (get tool_input "command" (JStr "")) as [command|o'|e] eqn:Eg;
    cbn [flow_bind]; try discriminate;
    [|exfalso; exact (get_no_exit _ _ _ _ Eg)].
  destruct (any_keyword keywords command) as [[|]|o'|e] eqn:Ek;
    cbn [flow_bind negb]; try discriminate.
  exfalso. exact (any_keyword_no_exit _ _ _ Ek).
Qed.

Lemma extract_code_no_exit (tool_input : json) (o : outcome) :
  extract_code_from_tool_input tool_input <> SysExit o.
Proof.
  unfold extract_code_from_tool_input.
  destruct (contains_key "content" tool_input) as [[|]|o'|e] eqn:E1;
    cbn [flow_bind]; try discriminate;
    [apply subscript_no_exit| |exfalso; exact (contains_key_no_exit _ _ _ E1)].
  destruct (contains_key "new_string" tool_input) as [[|]|o'|e] eqn:E2;
    cbn [flow_bind]; try discriminate;
    [apply subscript_no_exit| |exfalso; exact (contains_key_no_exit _ _ _ E2)].
  destruct (contains_key "command" tool_input) as [[|]|o'|e] eqn:E3;
    cbn [flow_bind]; try discriminate;
    [apply subscript_no_exit|exfalso; exact (contains_key_no_exit _ _ _ E3)].
Qed.

(** *** The runs of [main] *)

Section Runs.
Variable ast_parse : text -> result ast.
Variable log_detection : list Detection -> Z * string * Z * Z -> option hook_exn.

Lemma analyze_no_exit (code : json) (o : outcome) :
  analyze ast_parse code <> SysExit o.
Proof. destruct code; try discriminate. apply lift_no_exit. Qed.

(** A string of at least 20 characters is not trivial code. *)
Lemma long_code_not_trivial (code : string) :
  20 <= Z.of_nat (String.length code) ->
  (if negb (truthy (JStr code)) then Return true
   else n <~ len (JStr code) ;; Return (n <? 20)) = Return false.
Proof.
  intros Hlen. cbn [truthy len flow_bind].
  destruct code as [|c code]; [cbn in Hlen; lia|].
  cbn [String.eqb negb]. f_equal. apply Z.ltb_ge. exact Hlen.
Qed.

Lemma decided_run (stdin : option json) (detections : list Detection)
    (impact : ImpactScore) :
  decided ast_parse log_detection stdin detections impact ->
  main_try ast_parse log_detection stdin = SysExit (decision detections impact).
Proof.
  intros (hook_input & tool_name & tool_input & code &
          -> & Hn & Hi & Hw & Hc & Hlen & Ha & Hne & Hs & Hl).
  unfold main_try. cbn [flow_bind]. rewrite Hn; cbn [flow_bind].
  rewrite Hi; cbn [flow_bind]. rewrite Hw; cbn [flow_bind negb].
  rewrite Hc; cbn [flow_bind]. rewrite (long_code_not_trivial code Hlen).
  cbn [flow_bind analyze]. rewrite Ha. cbn [lift flow_bind].
  destruct detections as [|d ds]; [contradiction|].
  rewrite Hs. cbn [lift flow_bind]. rewrite Hl. reflexivity.
Qed.

Lemma exit_run (stdin : option json) (o : outcome) :
  main_try ast_parse log_detection stdin = SysExit o ->
  o = mkOutcome 0 [] \/
  exists detections impact,
    decided ast_parse log_detection stdin detections impact /\
    o = decision detections impact.
Proof.
  unfold main_try. destruct stdin as [hook_input|]; cbn [flow_bind]; [|discriminate].
  pose proof (get_no_exit hook_input "tool_name" (JStr "")) as N1.
  destruct (get hook_input "tool_name" (JStr "")) as [tool_name|o1|e1] eqn:E1;
    cbn [flow_bind]; [|exfalso; exact (N1 _ eq_refl)|discriminate].
  pose proof (get_no_exit hook_input "tool_input" (JDict [])) as N2.
  destruct (get hook_input "tool_input" (JDict [])) as [tool_input|o2|e2] eqn:E2;
    cbn [flow_bind]; [|exfalso; exact (N2 _ eq_refl)|discriminate].
  pose proof (should_analyze_no_exit tool_name tool_input) as N3.
  destruct (should_analyze tool_name tool_input) as [wanted|o3|e3] eqn:E3;
    cbn [flow_bind]; [|exfalso; exact (N3 _ eq_refl)|discriminate].
  destruct wanted; cbn [negb]; [|intros H; left; now inversion H].
  pose proof (extract_code_no_exit tool_input) as N4.
  destruct (extract_code_from_tool_input tool_input) as [code|o4|e4] eqn:E4;
    cbn [flow_bind]; [|exfalso; exact (N4 _ eq_refl)|discriminate].
  destruct (negb (truthy code)) eqn:Et; cbn [flow_bind].
  { intros H; left; now inversion H. }
  pose proof (len_no_exit code) as N5.
  destruct (len code) as [n|o5|e5] eqn:E5;
    cbn [flow_bind]; [|exfalso; exact (N5 _ eq_refl)|discriminate].
  destruct (n <? 20) eqn:En; [intros H; left; now inversion H|].
  pose proof (analyze_no_exit code) as N6.
  destruct (analyze ast_parse code) as [detections|o6|e6] eqn:E6;
    cbn [flow_bind]; [|exfalso; exact (N6 _ eq_refl)|discriminate].
  destruct detections as [|d ds] eqn:Ed; [intros H; left; now inversion H|].
  rewrite <- Ed in *.
  destruct (assess_impact detections) as [impact|e7] eqn:E7;
    cbn [lift flow_bind]; [|discriminate].
  destruct (log_detection detections _) as [e8|] eqn:E8;
    cbn [flow_bind]; [discriminate|].
  intros H. right. exists detections, impact. split; [|now inversion H].
  destruct code as [| | | |s| |]; try discriminate E6.
  cbn [analyze] in E6. cbn [len] in E5. inversion E5; subst n.
  exists hook_input, tool_name, tool_input, s.
  repeat split; try assumption.
  - apply Z.ltb_ge. exact En.
  - destruct (analyze_code ast_parse s); [cbn [lift] in E6; congruence|discriminate].
  - rewrite Ed. discriminate.
Qed.

End Runs.

(** X14: the hook ends with status 0 or with status 2, whatever it reads,
    whatever the parser and the file system answer. *)
Theorem main_exit_status (ast_parse : text -> result ast)
    (log_detection : list Detection -> Z * string * Z * Z -> option hook_exn)
    (stdin : option json) :
  exit_code (main ast_parse log_detection stdin) = 0 \/
  exit_code (main ast_parse log_detection stdin) = 2.
Proof.
  unfold main.
  destruct (main_try ast_parse log_detection stdin) as [u|o|e] eqn:E;
    [left; reflexivity| |left; reflexivity].
  apply exit_run in E as [->|(ds & impact & _ & ->)]; [left; reflexivity|].
  unfold decision.
  destruct (_ || _); [right; reflexivity|].
  destruct (existsb _ _); left; reflexivity.
Qed.

Lemma decision_blocks (detections : list Detection) (impact : ImpactScore) :
  exit_code (decision detections impact) = 2 <->
  (Exists (fun d => severity d = CRITICAL) detections \/
   risk_level impact = "CRITICAL"%string).
Proof.
  unfold decision.
  assert (Hc : (0 <? Z.of_nat (List.length (filter (has_severity CRITICAL) detections)))
               = true <-> Exists (fun d => severity d = CRITICAL) detections).
  { rewrite Z.ltb_lt. split.
    - destruct (filter (has_severity CRITICAL) detections) as [|d l] eqn:E;
        [cbn; lia|]. intros _.
      assert (Hin : In d (filter (has_severity CRITICAL) detections))
        by (rewrite E; now left).
      apply filter_In in Hin as [Hin Hs]. apply Exists_exists.
      exists d. split; [exact Hin|]. now apply Severity_eqb_eq.
    - intros H. apply Exists_exists in H as (d & Hin & Hs).
      assert (Hin' : In d (filter (has_severity CRITICAL) detections)).
      { apply filter_In. split; [exact Hin|]. now apply Severity_eqb_eq. }
      destruct (filter (has_severity CRITICAL) detections); [contradiction|].
      cbn [List.length]. lia. }
  destruct (0 <? _) eqn:E0; cbn [orb].
  - cbn [exit_code]. split; [intros _; left; now apply Hc|reflexivity].
  - destruct (String.eqb (risk_level impact) "CRITICAL") eqn:E1.
    + apply String.eqb_eq in E1. cbn [exit_code].
      split; [intros _; now right|reflexivity].
    + apply String.eqb_neq in E1.
      split.
      * destruct (existsb _ _); cbn [exit_code]; discriminate.
      * intros [H|H]; [apply Hc in H; discriminate|contradiction].
Qed.

Lemma decision_blocks_listed (detections : list Detection) (impact : ImpactScore) :
  exit_code (decision detections impact) = 2 ->
  listed (decision detections impact) = filter (has_severity CRITICAL) detections.
Proof.
  unfold decision. destruct (_ || _); [reflexivity|].
  destruct (existsb _ _); discriminate.
Qed.

(** X15: the hook blocks a tool call exactly in the runs that reach the
    decision with a critical finding or a critical risk level: the input
    is a JSON object, the tool is analysed, the code is a string of at
    least 20 characters, the analysis and the assessment return, and the
    log entry is written.  The critical findings are then the ones the
    message lists. *)
Theorem main_blocks_iff (ast_parse : text -> result ast)
    (log_detection : list Detection -> Z * string * Z * Z -> option hook_exn)
    (stdin : option json) :
  exit_code (main ast_parse log_detection stdin) = 2 <->
  exists detections impact,
    decided ast_parse log_detection stdin detections impact /\
    (Exists (fun d => severity d = CRITICAL) detections \/
     risk_level impact = "CRITICAL"%string) /\
    listed (main ast_parse log_detection stdin) =
    filter (has_severity CRITICAL) detections.
Proof.
  unfold main. split.
  - destruct (main_try ast_parse log_detection stdin) as [u|o|e] eqn:E;
      try discriminate.
    intros H2. apply exit_run in E as [->|(ds & impact & Hd & ->)]; [discriminate|].
    exists ds, impact. split; [exact Hd|]. split.
    + now apply decision_blocks.
    + now apply decision_blocks_listed.
  - intros (ds & impact & Hd & Hc & _).
    rewrite (decided_run _ _ _ _ _ Hd). now apply decision_blocks.
Qed.

(** X16: an exception of the parser other than [SyntaxError] leaves the
    analysis, is caught by [main] and lets the tool call pass, whatever
    the code holds. *)
Theorem main_allows_when_parser_raises (ast_parse : text -> result ast)
    (log_detection : list Detection -> Z * string * Z * Z -> option hook_exn)
    (hook_input tool_input : json) (code : string) (e : exn) :
  get hook_input "tool_input" (JDict []) = Return tool_input ->
  extract_code_from_tool_input tool_input = Return (JStr code) ->
  ast_parse (of_string code) = Raise e ->
  e <> SyntaxError ->
  main ast_parse log_detection (Some hook_input) = mkOutcome 0 [].
Proof.
  intros Hi Hc Hparse Hne. unfold main.
  destruct (main_try ast_parse log_detection (Some hook_input)) as [u|o|e'] eqn:E;
    try reflexivity.
  apply exit_run in E as [->|(ds & impact & Hd & ->)]; [reflexivity|].
  exfalso.
  destruct Hd as (hi & tn & ti & code' & Hs & _ & Hi' & _ & Hc' & _ & Ha & _).
  inversion Hs; subst hi.
  rewrite Hi in Hi'. inversion Hi'; subst ti.
  rewrite Hc in Hc'. inversion Hc'; subst code'.
  rewrite DetectorFacts.analyze_code_eq, Hparse in Ha.
  destruct e; try discriminate Ha. now apply Hne.
Qed.

Lemma main_allows_when_parser_raises_witness :
  main Samples.nul_checking_parser log_written
    (tool_call "Write" "content" nul_payload) = mkOutcome 0 [].
Proof.
  apply (main_allows_when_parser_raises Samples.nul_checking_parser log_written
           _ (JDict [("content"%string, JStr nul_payload)]) nul_payload ValueError).
  - reflexivity.
  - reflexivity.
  - reflexivity.
  - discriminate.
Defined.

(** X17: when the log entry cannot be written, the exception is caught by
    [main] and the tool call passes: nothing is blocked. *)
Theorem main_allows_when_log_fails (ast_parse : text -> result ast)
    (log_detection : list Detection -> Z * string * Z * Z -> option hook_exn)
    (stdin : option json) :
  (forall detections entry, log_detection detections entry <> None) ->
  main ast_parse log_detection stdin = mkOutcome 0 [].
Proof.
  intros Hlog. unfold main.
  destruct (main_try ast_parse log_detection stdin) as [u|o|e'] eqn:E;
    try reflexivity.
  apply exit_run in E as [->|(ds & impact & Hd & ->)]; [reflexivity|].
  exfalso.
  destruct Hd as (hi & tn & ti & code' & _ & _ & _ & _ & _ & _ & _ & _ & _ & Hl).
  exact (Hlog _ _ Hl).
Qed.

Lemma main_allows_when_log_fails_witness :
  main Samples.rejecting_parser log_refused
    (tool_call "Write" "content" "password = 'hunter2-hunter2'") = mkOutcome 0 [].
Proof.
  apply main_allows_when_log_fails. intros ds entry. discriminate.
Defined.

(** X18: code of fewer than 20 characters is never analysed. *)
Theorem main_allows_short_code (ast_parse : text -> result ast)
    (log_detection : list Detection -> Z * string * Z * Z -> option hook_exn)
    (hook_input tool_input : json) (code : string) :
  get hook_input "tool_input" (JDict []) = Return tool_input ->
  extract_code_from_tool_input tool_input = Return (JStr code) ->
  Z.of_nat (String.length code) < 20 ->
  main ast_parse log_detection (Some hook_input) = mkOutcome 0 [].
Proof.
  intros Hi Hc Hlen. unfold main.
  destruct (main_try ast_parse log_detection (Some hook_input)) as [u|o|e'] eqn:E;
    try reflexivity.
  apply exit_run in E as [->|(ds & impact & Hd & ->)]; [reflexivity|].
  exfalso.
  destruct Hd as (hi & tn & ti & code' & Hs & _ & Hi' & _ & Hc' & Hlen' & _).
  inversion Hs; subst hi.
  rewrite Hi in Hi'. inversion Hi'; subst ti.
  rewrite Hc in Hc'. inversion Hc'; subst code'. lia.
Qed.

Lemma main_allows_short_code_witness :
  main Samples.rejecting_parser log_written
    (tool_call "Write" "content" "eval(input())") = mkOutcome 0 [].
Proof.
  apply (main_allows_short_code Samples.rejecting_parser log_written
           _ (JDict [("content"%string, JStr "eval(input())")]) "eval(input())").
  - reflexivity.
  - reflexivity.
  - cbn. lia.
Defined.

(** X19: a call of a tool other than Write, Edit and Bash passes without any
    analysis, whatever its input holds. *)
Theorem main_ignores_other_tools (ast_parse : text -> result ast)
    (log_detection : list Detection -> Z * string * Z * Z -> option hook_exn)
    (hook_input tool_name : json) :
  get hook_input "tool_name" (JStr "") = Return tool_name ->
  existsb (eq_str tool_name) code_tools = false ->
  main ast_parse log_detection (Some hook_input) = mkOutcome 0 [].
Proof.
  intros Hn Ht. unfold main.
  destruct (main_try ast_parse log_detection (Some hook_input)) as [u|o|e'] eqn:E;
    try reflexivity.
  apply exit_run in E as [->|(ds & impact & Hd & ->)]; [reflexivity|].
  exfalso.
  destruct Hd as (hi & tn & ti & code' & Hs & Hn' & _ & Hw & _).
  inversion Hs; subst hi.
  rewrite Hn in Hn'. inversion Hn'; subst tn.
  unfold should_analyze in Hw. rewrite Ht in Hw. discriminate.
Qed.

Lemma main_ignores_other_tools_witness :
  main Samples.rejecting_parser log_written
    (tool_call "NotebookEdit" "content" "result = eval(user_input)") = mkOutcome 0 [].
Proof.
  apply (main_ignores_other_tools Samples.rejecting_parser log_written
           _ (JStr "NotebookEdit")).
  - reflexivity.
  - reflexivity.
Defined.

Lemma any_keyword_string (ks : list string) (command : string) :
  any_keyword ks (JStr command) =
  Return (existsb (fun k => contains (of_string k) (of_string command)) ks).
Proof.
  induction ks as [|k ks IH]; [reflexivity|].
  cbn [any_keyword contains_key flow_bind existsb].
  destruct (contains (of_string k) (of_string command)); [reflexivity|exact IH].
Qed.

(** X20: a Bash command that holds none of [python], [def ], [class ] and
    [import ] passes without any analysis, whatever else the input
    holds. *)
Theorem main_ignores_plain_commands (ast_parse : text -> result ast)
    (log_detection : list Detection -> Z * string * Z * Z -> option hook_exn)
    (hook_input tool_input : json) (command : string) :
  get hook_input "tool_name" (JStr "") = Return (JStr "Bash") ->
  get hook_input "tool_input" (JDict []) = Return tool_input ->
  get tool_input "command" (JStr "") = Return (JStr command) ->
  existsb (fun k => contains (of_string k) (of_string command)) keywords = false ->
  main ast_parse log_detection (Some hook_input) = mkOutcome 0 [].
Proof.
  intros Hn Hi Hcmd Hk. unfold main.
  destruct (main_try ast_parse log_detection (Some hook_input)) as [u|o|e'] eqn:E;
    try reflexivity.
  apply exit_run in E as [->|(ds & impact & Hd & ->)]; [reflexivity|].
  exfalso.
  destruct Hd as (hi & tn & ti & code' & Hs & Hn' & Hi' & Hw & _).
  inversion Hs; subst hi.
  rewrite Hn in Hn'. inversion Hn'; subst tn.
  rewrite Hi in Hi'. inversion Hi'; subst ti.
  unfold should_analyze in Hw. cbn [existsb eq_str code_tools] in Hw.
  cbn [String.eqb Ascii.eqb Bool.eqb orb negb andb] in Hw.
  rewrite Hcmd in Hw. cbn [flow_bind] in Hw.
  rewrite any_keyword_string, Hk in Hw. discriminate.
Qed.

Lemma main_ignores_plain_commands_witness :
  main Samples.rejecting_parser log_written
    (tool_call "Bash" "command" "perl -e 'print eval(<STDIN>)' > out.txt") =
  mkOutcome 0 [].
Proof.
  apply (main_ignores_plain_commands Samples.rejecting_parser log_written
           _ (JDict [("command"%string,
                      JStr "perl -e 'print eval(<STDIN>)' > out.txt")])
           "perl -e 'print eval(<STDIN>)' > out.txt").
  - reflexivity.
  - reflexivity.
  - reflexivity.
  - reflexivity.
Defined.

(** *** The hook on the findings of the analysis *)

(** X22: on the findings of the analysis the risk level adds nothing to
    the decision: a run that reaches it is blocked exactly when one of
    the findings is critical. *)
Theorem main_blocks_iff_critical (ast_parse : text -> result ast)
    (log_detection : list Detection -> Z * string * Z * Z -> option hook_exn)
    (stdin : option json) (detections : list Detection) (impact : ImpactScore) :
  decided ast_parse log_detection stdin detections impact ->
  Z.of_nat (List.length detections) < 2 ^ 50 ->
  (exit_code (main ast_parse log_detection stdin) = 2 <->
   Exists (fun d => severity d = CRITICAL) detections).
Proof.
  intros Hd Hlen. unfold main. rewrite (decided_run _ _ _ _ _ Hd).
  rewrite decision_blocks. split; [|now left].
  intros [H|Hrisk]; [exact H|].
  destruct (Exists_dec (fun d => severity d = CRITICAL) detections) as [H|H];
    [intros d; destruct (severity d); (now left) || (right; discriminate)
    |exact H|exfalso].
  apply Forall_Exists_neg in H.
  destruct Hd as (hi & tn & ti & code & _ & _ & _ & _ & _ & _ & Ha & _ & Hs & _).
  destruct (ScoreFacts.uncritical_findings_risk detections) as (r & Hr & Hlow & _).
  - split; [|exact H]. eapply AnalysisFacts.analyze_code_grades; exact Ha.
  - exact Hlen.
  - rewrite Hs in Hr. inversion Hr; subst r.
    rewrite Hrisk in Hlow. destruct Hlow; discriminate.
Qed.

Lemma main_blocks_iff_critical_witness :
  exists detections impact,
    decided Samples.rejecting_parser log_written
      (tool_call "Edit" "new_string" "except Exception: pass") detections impact /\
    (exit_code (main Samples.rejecting_parser log_written
                  (tool_call "Edit" "new_string" "except Exception: pass")) = 2 <->
     Exists (fun d => severity d = CRITICAL) detections).
Proof.
  assert (H : exists detections impact,
             decided Samples.rejecting_parser log_written
               (tool_call "Edit" "new_string" "except Exception: pass")
               detections impact /\
             Z.of_nat (List.length detections) < 2 ^ 50).
  { eexists. eexists. split.
    - eexists. eexists. eexists. exists "except Exception: pass"%string.
      split; [reflexivity|]. split; [reflexivity|]. split; [reflexivity|].
      split; [reflexivity|]. split; [reflexivity|]. split; [cbn; lia|].
      split; [vm_compute; reflexivity|]. split; [discriminate|].
      split; [vm_compute; reflexivity|]. reflexivity.
    - vm_compute. reflexivity. }
  destruct H as (ds & impact & Hd & Hlen).
  exists ds, impact. split; [exact Hd|].
  exact (main_blocks_iff_critical _ _ _ ds impact Hd Hlen).
Defined.

(** X23: a Write or an Edit whose text has at least 20 characters and
    holds [eval(] or [exec(] is blocked, as long as the parser returns
    or reports a syntax error and the log can be written. *)
Theorem main_blocks_literal (ast_parse : text -> result ast)
    (log_detection : list Detection -> Z * string * Z * Z -> option hook_exn)
    (tool field code needle : string) :
  In tool ["Write"; "Edit"]%string ->
  In field ["content"; "new_string"; "command"]%string ->
  In needle ["eval("; "exec("]%string ->
  contains (of_string needle) (of_string code) = true ->
  20 <= Z.of_nat (String.length code) ->
  Observed.parses_or_rejects ast_parse code ->
  (forall ds, analyze_code ast_parse code = Ok ds ->
              Z.of_nat (List.length ds) < 2 ^ 63) ->
  (forall ds entry, log_detection ds entry = None) ->
  exit_code (main ast_parse log_detection (tool_call tool field code)) = 2.
Proof.
  intros Htool Hfield Hneedle Hc Hlen Hparse Hcount Hlog.
  apply AnalysisFacts.analyze_code_returns_iff in Hparse as [ds Hds].
  assert (Hcrit : Exists (fun d => severity d = CRITICAL) ds).
  { assert (Hlit : exists desc,
               In (needle, (SECURITY_SHORTCUT, CRITICAL, desc)) Observed.literal_rules).
    { destruct Hneedle as [<-|[<-|[]]]; eexists; cbn; eauto. }
    destruct Hlit as [desc Hlit].
    pose proof (AnalysisFacts.analyze_code_reports_literal _ _ _ _ _ _ _ Hlit Hc Hds)
      as Hex.
    apply Exists_exists in Hex as (d & Hin & _ & Hs & _).
    apply Exists_exists. now exists d. }
  destruct (ScoreFacts.analysis_is_assessable _ _ _ Hds (Hcount _ Hds))
    as (impact & Himpact & _).
  apply main_blocks_iff. exists ds, impact. split; [|split; [now left|]].
  - exists (JDict [("tool_name"%string, JStr tool);
                   ("tool_input"%string, JDict [(field, JStr code)])]),
           (JStr tool), (JDict [(field, JStr code)]), code.
    repeat split; try reflexivity; try assumption.
    + destruct Htool as [<-|[<-|[]]]; reflexivity.
    + destruct Hfield as [<-|[<-|[<-|[]]]]; reflexivity.
    + intros ->. inversion Hcrit.
    + apply Hlog.
  - unfold main.
    erewrite decided_run.
    + apply decision_blocks_listed. apply decision_blocks. now left.
    + exists (JDict [("tool_name"%string, JStr tool);
                     ("tool_input"%string, JDict [(field, JStr code)])]),
             (JStr tool), (JDict [(field, JStr code)]), code.
      repeat split; try reflexivity; try eassumption.
      * destruct Htool as [<-|[<-|[]]]; reflexivity.
      * destruct Hfield as [<-|[<-|[<-|[]]]]; reflexivity.
      * intros ->. inversion Hcrit.
      * apply Hlog.
Qed.

Lemma main_blocks_literal_witness :
  exit_code (main Samples.rejecting_parser log_written
               (tool_call "Write" "content" "result = eval(user_input)")) = 2.
Proof.
  apply (main_blocks_literal Samples.rejecting_parser log_written
           "Write" "content" "result = eval(user_input)" "eval(").
  - left. reflexivity.
  - left. reflexivity.
  - left. reflexivity.
  - vm_compute. reflexivity.
  - cbn. lia.
  - intros e He. vm_compute in He. inversion He. reflexivity.
  - intros ds Hds. vm_compute in Hds. inversion Hds. vm_compute. reflexivity.
  - reflexivity.
Defined.

End HookFacts.
